(** * berty: account persistence layer and pairing driver

    A shallow embedding of [go/internal/accountutils/utils.go] (device push
    key store, account registry, datastore selection) and of the pairing
    driver of the [mini] package ([shareContact], [doClient2],
    [receiveContactRequest], [receiveMessage]), with the properties the
    design document states about them.

    Go values are modelled as follows.  A byte slice and a byte array are a
    [list byte]; indexing outside the list panics, as the Go runtime does.
    A pointer result is an [option]; a Go function returning [(x, err)] is a
    function returning the pair of options.  The operating system (file
    tree, key generator, log) is an explicit [World] threaded through every
    call, together with the trace of the system calls performed.  The
    protocol service, the SQL driver and the messages generated from the
    protobuf schemas are parameters of the functions that use them.
    [GetMessengerDBForPath] and the terminal interface of [Main], which
    [Main] does not reach, are not modelled. *)

From Stdlib Require Import Strings.Byte NArith ZArith Lia List String Ascii.
From stdpp Require Import base option list vector strings gmap.

Local Open Scope list_scope.

#[global] Instance byte_eq_dec : EqDecision byte := Byte.byte_eq_dec.

(** ** The Go runtime: panics and errors *)

Module Go.

(** Error numbers the file-system calls of the model can report. *)
Inductive Errno := ENOENT | ENOTDIR | EISDIR.

(** The error codes of [berty.tech/berty/v2/go/pkg/errcode] that the two
    source files use. *)
Inductive ErrCode :=
| ErrInternal
| ErrCryptoKeyGeneration
| ErrPushUnableToDecrypt
| ErrBertyAccountFSError
| ErrBertyAccountDataNotFound
| ErrDeserialization
| ErrDBOpen
| ErrDBWrite
| TODO.

(** Go [error] values.  [PathError] is what the [os] package returns,
    [Errorf] is [fmt.Errorf] on a plain message and [ErrorfW prefix e] is
    [fmt.Errorf] on the format [prefix] followed by [%w], given [e];
    [Code c] is a bare error code, [Wrap c e] is [c.Wrap(e)], [EOF] is
    [io.EOF], and [LibError] is an error of an external library (crypto,
    SQL driver, protobuf, gRPC). *)
Inductive error :=
| EOF
| PathError (op path : string) (e : Errno)
| Errorf (msg : string)
| ErrorfW (prefix : string) (wrapped : error)
| Code (c : ErrCode)
| Wrap (c : ErrCode) (inner : error)
| LibError (msg : string).

(** [os.IsNotExist]: true exactly on an [os] error whose cause is ENOENT;
    false on [nil]. *)
Definition os_IsNotExist (err : option error) : bool :=
  match err with
  | Some (PathError _ _ ENOENT) => true
  | _ => false
  end.

(** What a panic carries: a run-time error or the value given to [panic]. *)
Inductive panic_value :=
| IndexOutOfRange (index len : nat)
| NilDereference
| PanicError (e : error).

(** A call returns, panics, or never returns because it waits for an
    event that does not come. *)
Inductive outcome (A : Type) :=
| Return (a : A)
| Panic (p : panic_value)
| Blocked.
Arguments Return {A} a.
Arguments Panic {A} p.
Arguments Blocked {A}.

Definition obind {A B} (o : outcome A) (k : A -> outcome B) : outcome B :=
  match o with
  | Return a => k a
  | Panic p => Panic p
  | Blocked => Blocked
  end.

(** [l[i]], bounds-checked. *)
Definition index {A} (l : list A) (i : nat) : outcome A :=
  match l !! i with
  | Some x => Return x
  | None => Panic (IndexOutOfRange i (length l))
  end.

(** [l[i] = x], bounds-checked. *)
Definition store {A} (l : list A) (i : nat) (x : A) : outcome (list A) :=
  if decide (i < length l) then Return (<[i:=x]> l)
  else Panic (IndexOutOfRange i (length l)).

(** [for i := lo; i < lo+n; i++ { s = body i s }], stopping at a panic. *)
Fixpoint for_range {St} (n lo : nat) (body : nat -> St -> outcome St)
  (s : St) : outcome St :=
  match n with
  | O => Return s
  | S n' => obind (body lo s) (for_range n' (S lo) body)
  end.

(** The line feed and the tabulation, as strings. *)
Definition nl : string := String (ascii_of_nat 10) "".
Definition tab : string := String (ascii_of_nat 9) "".

(** [*p] on a pointer. *)
Definition deref {A} (p : option A) : outcome A :=
  match p with
  | Some a => Return a
  | None => Panic NilDereference
  end.

(** Programs with effects: state passing over the state [W] of what is
    outside the program, ended by a panic. *)
Definition M (W A : Type) : Type := W -> outcome A * W.

Definition ret {W A} (a : A) : M W A := fun w => (Return a, w).

Definition bind {W A B} (m : M W A) (k : A -> M W B) : M W B :=
  fun w =>
    match m w with
    | (Return a, w') => k a w'
    | (Panic p, w') => (Panic p, w')
    | (Blocked, w') => (Blocked, w')
    end.

(** A computation that touches nothing outside the program. *)
Definition lift {W A} (o : outcome A) : M W A := fun w => (o, w).

End Go.
Export Go.

Notation "'let*' x ':=' m 'in' k" := (Go.bind m (fun x => k))
  (at level 10, x name, m at level 100, k at level 200).
Notation "'let*' ( x , y ) ':=' m 'in' k" :=
  (Go.bind m (fun xy => let '(x, y) := xy in k))
  (at level 10, x name, y name, m at level 100, k at level 200).
Notation "'let*' ( x , y , z ) ':=' m 'in' k" :=
  (Go.bind m (fun xyz => let '(x, y, z) := xyz in k))
  (at level 10, x name, y name, z name, m at level 100, k at level 200).

(** ** Lexical paths: Go's [path] package *)

Module path.

(** The elements of [s] between slashes: [split "a//b" = ["a"; ""; "b"]]. *)
Fixpoint split (s : string) : list string :=
  match s with
  | EmptyString => [EmptyString]
  | String c s' =>
      if Ascii.eqb c "/"%char then EmptyString :: split s'
      else match split s' with
           | h :: t => String c h :: t
           | [] => [String c EmptyString]
           end
  end.

Definition rooted (s : string) : bool :=
  match s with
  | String c _ => Ascii.eqb c "/"%char
  | EmptyString => false
  end.

(** One element pushed on the (reversed) stack of cleaned elements. *)
Definition push (rooted : bool) (out : list string) (elem : string)
  : list string :=
  if String.eqb elem "" then out
  else if String.eqb elem "." then out
  else if String.eqb elem ".." then
    match out with
    | top :: out' =>
        if String.eqb top ".." then elem :: out else out'
    | [] => if rooted then [] else [elem]
    end
  else elem :: out.

(** The elements of the cleaned path, outermost first. *)
Definition elements (s : string) : list string :=
  rev (fold_left (push (rooted s)) (split s) []).

(** [path.Clean]. *)
Definition Clean (s : string) : string :=
  let body := String.concat "/" (elements s) in
  if rooted s then String.append "/" body
  else if String.eqb body "" then "."%string else body.

(** Everything up to and including the last slash ([path.Split]'s first
    result). *)
Fixpoint dir_part (s : string) : string :=
  match s with
  | EmptyString => EmptyString
  | String c s' =>
      let d := dir_part s' in
      if String.eqb d "" then
        (if Ascii.eqb c "/"%char then String c EmptyString else EmptyString)
      else String c d
  end.

(** [path.Dir]. *)
Definition Dir (s : string) : string := Clean (dir_part s).

(** [path.Join] (and [filepath.Join] on a slash-separated system): the
    non-empty elements joined by slashes and cleaned; empty when there is
    none. *)
Definition Join (elems : list string) : string :=
  match filter (fun e => e <> ""%string) elems with
  | [] => ""%string
  | es => Clean (String.concat "/" es)
  end.

End path.

Module cryptoutil.
(** [cryptoutil.KeySize]: the size of a [box] key, which
    [GetDevicePushKeyForPath] assigns to a [*[KeySize]byte]. *)
Definition KeySize : nat := 32.
End cryptoutil.

(** ** The operating system *)

Module os.
Import cryptoutil.

(** A file tree.  The entries of a directory are kept in the order of
    their names, the order in which [ioutil.ReadDir] lists them. *)
#[warnings="-register-all"]
Inductive node :=
| File (contents : list byte)
| Dir (entries : list (string * node)).

(** What [os.Stat] and [ioutil.ReadDir] tell about an entry. *)
Record FileInfo := { Name : string; IsDir : bool }.

(** The calls made to the world outside the program. *)
Inductive event :=
| EvReadFile (p : string)
| EvStat (p : string)
| EvReadDir (p : string)
| EvMkdirAll (p : string)
| EvCreate (p : string)
| EvWriteFile (p : string) (data : list byte)
| EvGenerateKey
| EvWarn (msg : string) (err : error) (accountID : string).

(** A [[KeySize]byte] array. *)
Abbreviation key := (vec byte KeySize).

(** The world: the file tree, the outcomes of the coming calls of the key
    generator (its only input is the system's random source), and the
    trace of the calls made so far.  The working directory is the root
    of the tree; there are no links, and permissions are not modelled. *)
Record World := {
  root : node;
  entropy : list (error + key * key);
  trace : list event
}.

Definition set_root (n : node) (w : World) : World :=
  {| root := n; entropy := entropy w; trace := trace w |}.
Definition set_entropy (e : list (error + key * key)) (w : World) : World :=
  {| root := root w; entropy := e; trace := trace w |}.
Definition log (e : event) (w : World) : World :=
  {| root := root w; entropy := entropy w; trace := trace w ++ [e] |}.

(** Programs over the world. *)
Abbreviation M := (Go.M World).

Fixpoint lookup_entry (name : string) (es : list (string * node))
  : option node :=
  match es with
  | [] => None
  | (k, v) :: es' => if String.eqb k name then Some v else lookup_entry name es'
  end.

(** The entry [name] set to [n], in name order. *)
Fixpoint put_entry (name : string) (n : node) (es : list (string * node))
  : list (string * node) :=
  match es with
  | [] => [(name, n)]
  | (k, v) :: es' =>
      if String.eqb k name then (name, n) :: es'
      else if String.ltb name k then (name, n) :: (k, v) :: es'
      else (k, v) :: put_entry name n es'
  end.

(** The names a clean path leads through, from the root: what
    [path.Clean] leaves of it, with [..] at the root staying at the
    root. *)
Definition resolve (p : string) : list string :=
  rev (fold_left (path.push true) (path.split p) []).

Fixpoint lookup_node (n : node) (p : list string) : Errno + node :=
  match p with
  | [] => inr n
  | name :: p' =>
      match n with
      | File _ => inl ENOTDIR
      | Dir es =>
          match lookup_entry name es with
          | Some child => lookup_node child p'
          | None => inl ENOENT
          end
      end
  end.

(** One element of a path taken from the directory [cur]: an empty
    element (between two slashes, or after the last one) and [.] stay
    there, [..] goes to the directory above, the root to itself. *)
Definition step (cur : list string) (elem : string) : list string :=
  if String.eqb elem "" then cur
  else if String.eqb elem "." then cur
  else if String.eqb elem ".." then removelast cur
  else cur ++ [elem].

(** The walk of the kernel along the elements of a path as they are
    written, from the directory [cur]: every element, [.] and [..] and
    the empty element as well, is taken from a directory that exists.
    The entry that the last element names is not looked at. *)
Fixpoint walk (r : node) (cur : list string) (elems : list string)
  : Errno + list string :=
  match elems with
  | [] => inr cur
  | elem :: elems' =>
      match lookup_node r cur with
      | inr (Dir _) => walk r (step cur elem) elems'
      | inr (File _) => inl ENOTDIR
      | inl e => inl e
      end
  end.

(** What a path names, for the calls that open or stat it. *)
Definition lookup_path (n : node) (p : string) : Errno + node :=
  if String.eqb p "" then inl ENOENT
  else
    match walk n [] (path.split p) with
    | inr q => lookup_node n q
    | inl e => inl e
    end.

(** Open for writing with O_CREATE|O_TRUNC and write [data]: the file is
    created when only its last element is missing. *)
Fixpoint write_node (n : node) (p : list string) (data : list byte)
  : Errno + node :=
  match p with
  | [] =>
      match n with
      | File _ => inr (File data)
      | Dir _ => inl EISDIR
      end
  | name :: p' =>
      match n with
      | File _ => inl ENOTDIR
      | Dir es =>
          match lookup_entry name es, p' with
          | None, [] => inr (Dir (put_entry name (File data) es))
          | None, _ :: _ => inl ENOENT
          | Some child, _ =>
              match write_node child p' data with
              | inl e => inl e
              | inr child' => inr (Dir (put_entry name child' es))
              end
          end
      end
  end.

(** The elements of a path without the empty ones at its end. *)
Fixpoint trim (elems : list string) : list string :=
  match elems with
  | [] => []
  | elem :: elems' =>
      match trim elems' with
      | [] => if String.eqb elem "" then [] else [elem]
      | rest => elem :: rest
      end
  end.

(** A path opened with O_CREATE: one that ends in a slash names a
    directory, whatever is there. *)
Definition write_path (n : node) (p : string) (data : list byte)
  : Errno + node :=
  if String.eqb p "" then inl ENOENT
  else if String.eqb (List.last (path.split p) "x"%string) "" then
    match walk n [] (trim (path.split p)) with
    | inr _ => inl EISDIR
    | inl e => inl e
    end
  else
    match walk n [] (path.split p) with
    | inr q => write_node n q data
    | inl e => inl e
    end.

(** Every missing directory along the names [p] created; an error when a
    file is in the way. *)
Fixpoint mkdir_all (n : node) (p : list string) : Errno + node :=
  match n with
  | File _ => inl ENOTDIR
  | Dir es =>
      match p with
      | [] => inr n
      | name :: p' =>
          match mkdir_all (default (Dir []) (lookup_entry name es)) p' with
          | inl e => inl e
          | inr child' => inr (Dir (put_entry name child' es))
          end
      end
  end.

(** The regular file at a path, if there is one. *)
Definition file_at (r : node) (p : string) : option (list byte) :=
  match lookup_path r p with
  | inr (File c) => Some c
  | _ => None
  end.

(** An entry that is a directory. *)
Definition is_dir_entry (e : string * node) : bool :=
  match snd e with
  | Dir _ => true
  | File _ => false
  end.

Definition info_of (name : string) (n : node) : FileInfo :=
  {| Name := name;
     IsDir := match n with Dir _ => true | File _ => false end |}.

(** [ioutil.ReadFile]. *)
Definition ReadFile (p : string) : M (list byte * option error) :=
  fun w =>
    let w' := log (EvReadFile p) w in
    match lookup_path (root w) p with
    | inr (File c) => (Return (c, None), w')
    | inr (Dir _) => (Return ([], Some (PathError "read" p EISDIR)), w')
    | inl e => (Return ([], Some (PathError "open" p e)), w')
    end.

(** The name [os.Stat] reports: the last element of the path as it is
    written. *)
Definition basename (p : string) : string :=
  match trim (path.split p) with
  | [] => if String.eqb p "" then ""%string else "/"%string
  | elems => List.last elems ""%string
  end.

(** [os.Stat]. *)
Definition Stat (p : string) : M (option FileInfo * option error) :=
  fun w =>
    let w' := log (EvStat p) w in
    match lookup_path (root w) p with
    | inr n => (Return (Some (info_of (basename p) n), None), w')
    | inl e => (Return (None, Some (PathError "stat" p e)), w')
    end.

(** [ioutil.ReadDir]. *)
Definition ReadDir (p : string) : M (list FileInfo * option error) :=
  fun w =>
    let w' := log (EvReadDir p) w in
    match lookup_path (root w) p with
    | inr (Dir es) =>
        (Return (map (fun e => info_of (fst e) (snd e)) es, None), w')
    | inr (File _) =>
        (Return ([], Some (PathError "readdirent" p ENOTDIR)), w')
    | inl e => (Return ([], Some (PathError "open" p e)), w')
    end.

(** The path up to the file that is in the way of [os.MkdirAll]: the
    first elements of the path, as few as name a regular file. *)
Fixpoint up_to_file (r : node) (prefix rest : list string) : list string :=
  match rest with
  | [] => prefix
  | elem :: rest' =>
      match walk r [] (prefix ++ [elem]) with
      | inr q =>
          match lookup_node r q with
          | inr (File _) => prefix ++ [elem]
          | _ => up_to_file r (prefix ++ [elem]) rest'
          end
      | inl _ => up_to_file r (prefix ++ [elem]) rest'
      end
  end.

(** [os.MkdirAll] of a clean path, which is what its callers here pass
    (the results of [path.Dir] and [path.Join]): the directories missing
    along the path are made, and its error names the file in the way. *)
Definition MkdirAll (p : string) : M (option error) :=
  fun w =>
    let w' := log (EvMkdirAll p) w in
    if String.eqb p "" then (Return (Some (PathError "mkdir" p ENOENT)), w')
    else
      match mkdir_all (root w) (resolve p) with
      | inr n => (Return None, set_root n w')
      | inl e =>
          let blocked :=
            String.concat "/" (up_to_file (root w) [] (path.split p)) in
          (Return (Some (PathError "mkdir" blocked e)), w')
      end.

(** [os.Create]; the handle it returns is not used by the callers. *)
Definition Create (p : string) : M (option error) :=
  fun w =>
    let w' := log (EvCreate p) w in
    match write_path (root w) p [] with
    | inr n => (Return None, set_root n w')
    | inl e => (Return (Some (PathError "open" p e)), w')
    end.

(** [ioutil.WriteFile]. *)
Definition WriteFile (p : string) (data : list byte) : M (option error) :=
  fun w =>
    let w' := log (EvWriteFile p data) w in
    match write_path (root w) p data with
    | inr n => (Return None, set_root n w')
    | inl e => (Return (Some (PathError "open" p e)), w')
    end.

(** [box.GenerateKey(crand.Reader)]: the next outcome of the generator;
    an exhausted random source is a read error. *)
Definition GenerateKey
  : M (option (list byte) * option (list byte) * option error) :=
  fun w =>
    let w' := log EvGenerateKey w in
    match entropy w with
    | inr (pk, sk) :: rest =>
        (Return (Some (vec_to_list pk), Some (vec_to_list sk), None),
         set_entropy rest w')
    | inl e :: rest => (Return (None, None, Some e), set_entropy rest w')
    | [] => (Return (None, None, Some EOF), w')
    end.

End os.

(** ** [go/internal/accountutils/utils.go] *)

Module accountutils.
Import os cryptoutil.

Definition InMemoryDir : string := ":memory:".
Definition DefaultPushKeyFilename : string := "push.key".
Definition AccountMetafileName : string := "account_meta".
Definition AccountNetConfFileName : string := "account_net_conf".
Definition MessengerDatabaseFilename : string := "messenger.sqlite".

(** The zero value of a [[KeySize]byte]. *)
Definition zeros : list byte := replicate KeySize x00.

(** The body of the loop that lays the two keys out in [contents]:
    [contents[i] = pk[i]; contents[i+KeySize] = sk[i]]. *)
Definition fill_contents (pk sk : option (list byte)) (i : nat)
  (contents : list byte) : outcome (list byte) :=
  obind (deref pk) (fun pkv =>
  obind (index pkv i) (fun b =>
  obind (store contents i b) (fun contents =>
  obind (deref sk) (fun skv =>
  obind (index skv i) (fun b' =>
  store contents (i + KeySize) b'))))).

(** The body of the loop that splits [contents]:
    [pkVal[i] = contents[i]; skVal[i] = contents[i+KeySize]]. *)
Definition split_contents (contents : list byte) (i : nat)
  (vals : list byte * list byte) : outcome (list byte * list byte) :=
  obind (index contents i) (fun b =>
  obind (store (fst vals) i b) (fun pkVal =>
  obind (index contents (i + KeySize)) (fun b' =>
  obind (store (snd vals) i b') (fun skVal =>
  Return (pkVal, skVal))))).

(** The error of a key file that cannot be read. *)
Definition key_not_found : error :=
  Wrap ErrPushUnableToDecrypt (Errorf "unable to get device push key").

Definition GetDevicePushKeyForPath (filePath : string) (createIfMissing : bool)
  : M (option (list byte) * option (list byte) * option error) :=
  let* (contents, err) := ReadFile filePath in
  if os_IsNotExist err && createIfMissing then
    let* err := MkdirAll (path.Dir filePath) in
    match err with
    | Some e => ret (None, None, Some (Wrap ErrInternal e))
    | None =>
    let* (pk, sk, err) := GenerateKey in
    match err with
    | Some e => ret (None, None, Some (Wrap ErrCryptoKeyGeneration e))
    | None =>
    let contents := replicate (KeySize * 2) x00 in
    let* contents :=
      lift (for_range KeySize 0 (fill_contents pk sk) contents) in
    let* err := Create filePath in
    match err with
    | Some e => ret (None, None, Some (Wrap ErrInternal e))
    | None =>
    let* err := WriteFile filePath contents in
    match err with
    | Some e => ret (None, None, Some (Wrap ErrInternal e))
    | None => ret (pk, sk, None)
    end end end end
  else if bool_decide (err <> None) then
    ret (None, None, Some key_not_found)
  else
    let pkVal := zeros in
    let skVal := zeros in
    let* (pkVal, skVal) :=
      lift (for_range KeySize 0 (split_contents contents) (pkVal, skVal)) in
    ret (Some pkVal, Some skVal, None).

(** [zap]: a logger either drops a warning (as the no-op logger does) or
    writes it. *)
Record Logger := { warn_enabled : bool }.
Definition NewNop : Logger := {| warn_enabled := false |}.

Definition Warn (logger : Logger) (msg : string) (err : error)
  (accountID : string) : M unit :=
  fun w =>
    (Return tt,
     if warn_enabled logger then log (EvWarn msg err accountID) w else w).

Section Registry.

(** [accounttypes.AccountMetadata] is generated from a protobuf schema of
    the repository; this layer reads and writes two of its fields, the
    others are [Fields]. *)
Variable Fields : Type.

Record AccountMetadata := {
  AccountID : string;
  Error : string;
  other : Fields
}.

Definition set_AccountID (id : string) (m : AccountMetadata)
  : AccountMetadata :=
  {| AccountID := id; Error := Error m; other := other m |}.

(** [proto.Unmarshal] into a fresh [AccountMetadata]: the message as
    filled, and the error. *)
Variable Unmarshal : list byte -> AccountMetadata * option error.

(** [err.Error()], the text of an error. *)
Variable error_text : error -> string.

(** The zero value of the fields this layer does not read. *)
Variable no_fields : Fields.

Definition GetAccountMetaForName (rootDir accountID : string)
  (logger : option Logger) : M (option AccountMetadata * option error) :=
  let logger := default NewNop logger in
  let metafileName := path.Join [rootDir; accountID; AccountMetafileName] in
  let* (metaBytes, err) := ReadFile metafileName in
  if os_IsNotExist err then
    ret (None, Some (Code ErrBertyAccountDataNotFound))
  else
    match err with
    | Some e =>
        let* _ := Warn logger "unable to read account metadata" e accountID in
        ret (None,
             Some (Wrap ErrBertyAccountFSError
                     (ErrorfW "unable to read account metadata: " e)))
    | None =>
        let (meta, err) := Unmarshal metaBytes in
        match err with
        | Some e =>
            ret (None,
                 Some (Wrap ErrDeserialization
                         (ErrorfW "unable to unmarshall account metadata: "
                            e)))
        | None => ret (Some (set_AccountID accountID meta), None)
        end
    end.

(** What loading the metadata of [accountID] returns on a file tree. *)
Definition load (r : node) (rootDir accountID : string)
  : option AccountMetadata * option error :=
  match
    fst (GetAccountMetaForName rootDir accountID None
           {| root := r; entropy := []; trace := [] |})
  with
  | Return res => res
  | _ => (None, None)
  end.

(** The record [ListAccounts] appends for a directory. *)
Definition record_of (name : string)
  (res : option AccountMetadata * option error)
  : option AccountMetadata :=
  match res with
  | (_, Some e) =>
      Some {| AccountID := name; Error := error_text e; other := no_fields |}
  | (account, None) => account
  end.

(** The body of [for _, subitem := range subitems] in [ListAccounts],
    over the items still to visit. *)
Fixpoint ListAccounts_range (rootDir : string) (logger : option Logger)
  (subitems : list FileInfo) (accounts : list (option AccountMetadata))
  : M (list (option AccountMetadata)) :=
  match subitems with
  | [] => ret accounts
  | subitem :: rest =>
      if negb (IsDir subitem) then
        ListAccounts_range rootDir logger rest accounts
      else
        let* (account, err) :=
          GetAccountMetaForName rootDir (Name subitem) logger in
        match err with
        | Some e =>
            ListAccounts_range rootDir logger rest
              (accounts ++ [Some {| AccountID := Name subitem;
                                    Error := error_text e;
                                    other := no_fields |}])
        | None =>
            ListAccounts_range rootDir logger rest (accounts ++ [account])
        end
  end.

Definition ListAccounts (rootDir : string) (logger : option Logger)
  : M (list (option AccountMetadata) * option error) :=
  let logger := Some (default NewNop logger) in
  let* (_, err) := Stat rootDir in
  if os_IsNotExist err then ret ([], None)
  else
    match err with
    | Some e => ret ([], Some (Wrap ErrBertyAccountFSError e))
    | None =>
        let* (subitems, err) := ReadDir rootDir in
        match err with
        | Some e => ret ([], Some (Wrap ErrBertyAccountFSError e))
        | None =>
            let* accounts := ListAccounts_range rootDir logger subitems [] in
            ret (accounts, None)
        end
    end.

End Registry.

Arguments AccountID {Fields} _.
Arguments Error {Fields} _.
Arguments other {Fields} _.

Definition GetDatastoreDir (dir : string) : M (string * option error) :=
  if String.eqb dir "" then
    ret (""%string, Some (Wrap TODO (Errorf "--store.dir is empty")))
  else if String.eqb dir InMemoryDir then ret (InMemoryDir, None)
  else
    let dir := path.Join [dir; "account0"%string] in
    let* (_, err) := Stat dir in
    if os_IsNotExist err then
      let* err := MkdirAll dir in
      match err with
      | Some e => ret (""%string, Some (Wrap TODO e))
      | None => ret (dir, None)
      end
    else
      match err with
      | Some e => ret (""%string, Some (Wrap TODO e))
      | None => ret (dir, None)
      end.

Section Datastore.

(** [database/sql] with the SQLite driver is outside the repository: a
    handle type and the two calls made on it, as steps on the world. *)
Variable DB : Type.
Variable sql_Open : string -> string -> M (option DB * option error).
Variable db_Exec : DB -> string -> M (option error).

(** [datastore.Batching]: the map datastore of [go-datastore], the SQL
    datastore of [go-ds-sql] over a handle and the queries of a table, and
    [sync_ds.MutexDatastore], the wrapper that takes a lock around every
    operation of its child. *)
Inductive Batching :=
| MapDatastore (values : gmap string (list byte))
| SQLDatastore (db : DB) (queriesTable : string)
| MutexDatastore (child : Batching).

Definition NewMapDatastore : Batching := MapDatastore ∅.
Definition MutexWrap (d : Batching) : Batching := MutexDatastore d.

(** The statement [fmt.Sprintf] builds for [db.Exec]. *)
Definition create_table_statement (tableName : string) : string :=
  String.concat ""
    ["CREATE TABLE IF NOT EXISTS "; tableName; " ("; nl;
     tab; tab; tab; "key TEXT PRIMARY KEY,"; nl;
     tab; tab; tab; "data BLOB"; nl;
     tab; tab; ") WITHOUT ROWID;"]%string.

Definition GetRootDatastoreForPath (dir : string) (logger : option Logger)
  : M (option Batching * option error) :=
  let inMemory := String.eqb dir InMemoryDir in
  (* the statements after the [if]: [ds = sync_ds.MutexWrap(ds)] *)
  let wrap_and_return (ds : Batching) : M (option Batching * option error) :=
    let ds := MutexWrap ds in
    ret (Some ds, None) in
  if inMemory then
    let ds := NewMapDatastore in
    wrap_and_return ds
  else
    let tableName := "blocks"%string in
    let dbPath := path.Join [dir; "datastore.sqlite"%string] in
    let dbURL := dbPath in
    let* (db, err) := sql_Open "sqlite3" dbURL in
    match err with
    | Some e => ret (None, Some (Wrap ErrDBOpen e))
    | None =>
        let* db := lift (deref db) in
        let* err := db_Exec db (create_table_statement tableName) in
        match err with
        | Some e => ret (None, Some (Wrap ErrDBWrite e))
        | None =>
            let ds := SQLDatastore db tableName in
            wrap_and_return ds
        end
    end.

End Datastore.

Arguments MapDatastore {DB} _.
Arguments SQLDatastore {DB} _ _.
Arguments MutexDatastore {DB} _.

End accountutils.

(** ** The contact token: protobuf wire format and base58

    [proto.Marshal], [proto.Unmarshal] and [base58] are libraries outside
    the repository.  They are modelled by the formats they implement: the
    proto3 wire format of the message [ShareableContact] (three [bytes]
    fields, numbered 1 to 3), and the base-58 numerals over the Bitcoin
    alphabet. *)

Module protocoltypes.

Record ShareableContact := {
  PK : list byte;
  PublicRendezvousSeed : list byte;
  Metadata : list byte
}.

Definition set_PK (v : list byte) (m : ShareableContact) :=
  {| PK := v; PublicRendezvousSeed := PublicRendezvousSeed m;
     Metadata := Metadata m |}.
Definition set_PublicRendezvousSeed (v : list byte) (m : ShareableContact) :=
  {| PK := PK m; PublicRendezvousSeed := v; Metadata := Metadata m |}.
Definition set_Metadata (v : list byte) (m : ShareableContact) :=
  {| PK := PK m; PublicRendezvousSeed := PublicRendezvousSeed m;
     Metadata := v |}.

End protocoltypes.

Module proto.
Import protocoltypes.
Local Open Scope N_scope.

Definition byte_of_N (n : N) : byte := default x00 (Byte.of_N (n mod 256)).

Definition uint64 (n : N) : N := n mod 2 ^ 64.

(** Base-128 varint of a [uint64], low group first; ten bytes hold 64
    bits, so the count never runs out. *)
Fixpoint encodeVarint_from (count : nat) (v : N) : list byte :=
  match count with
  | O => []
  | S count' =>
      if v <? 128 then [byte_of_N v]
      else byte_of_N (N.lor (N.land v 127) 128)
             :: encodeVarint_from count' (N.shiftr v 7)
  end.

Definition encodeVarint (v : N) : list byte :=
  encodeVarint_from 10 (uint64 v).

Definition ErrIntOverflow : error := LibError "proto: integer overflow".
Definition ErrInvalidLength : error :=
  LibError "proto: negative length found during unmarshaling".
Definition ErrUnexpectedEOF : error := LibError "unexpected EOF".
Definition ErrUnexpectedEndOfGroup : error :=
  LibError "proto: unexpected end of group".

(** The varint at the head of [d] and what follows it; [shift] is the
    position of the next group of seven bits. *)
Fixpoint decodeVarint_from (shift acc : N) (d : list byte)
  : error + N * list byte :=
  if 64 <=? shift then inl ErrIntOverflow
  else
    match d with
    | [] => inl ErrUnexpectedEOF
    | b :: d' =>
        let acc' :=
          uint64 (N.lor acc (N.shiftl (N.land (Byte.to_N b) 127) shift)) in
        if Byte.to_N b <? 128 then inr (acc', d')
        else decodeVarint_from (shift + 7) acc' d'
    end.

Definition decodeVarint (d : list byte) : error + N * list byte :=
  decodeVarint_from 0 0 d.

(** A length read into an [int]: negative from 2^63 on. *)
Definition is_negative_int (n : N) : bool := 2 ^ 63 <=? n.

(** One field of type [bytes]: nothing when empty, else tag (field number
    and wire type 2), length, contents. *)
Definition bytes_field (num : N) (v : list byte) : list byte :=
  match v with
  | [] => []
  | _ =>
      encodeVarint (N.lor (N.shiftl num 3) 2)
        ++ encodeVarint (N.of_nat (length v)) ++ v
  end.

(** [proto.Marshal] of a [ShareableContact]. *)
Definition Marshal (m : ShareableContact) : list byte * option error :=
  (bytes_field 1 (PK m)
     ++ bytes_field 2 (PublicRendezvousSeed m)
     ++ bytes_field 3 (Metadata m),
   None).

(** The contents of a length-delimited field at the head of [d].  A
    length that reaches beyond the end of [d] is an unexpected end; the
    generated code names the length negative instead where index plus
    length overflow an [int], a case that is an unexpected end here as
    well. *)
Definition read_bytes (d : list byte) : error + list byte * list byte :=
  match decodeVarint d with
  | inl e => inl e
  | inr (byteLen, d') =>
      if is_negative_int byteLen then inl ErrInvalidLength
      else if N.of_nat (length d') <? byteLen then inl ErrUnexpectedEOF
      else inr (take (N.to_nat byteLen) d', drop (N.to_nat byteLen) d')
  end.

(** The bytes of a varint skipped. *)
Fixpoint skip_varint (shift : N) (d : list byte) : error + list byte :=
  if 64 <=? shift then inl ErrIntOverflow
  else
    match d with
    | [] => inl ErrUnexpectedEOF
    | b :: d' =>
        if Byte.to_N b <? 128 then inr d' else skip_varint (shift + 7) d'
    end.

Definition skip_fixed (n : nat) (d : list byte) : error + list byte :=
  if decide (n <= length d)%nat then inr (drop n d) else inl ErrUnexpectedEOF.

(** A field of a number the message does not have, skipped whole;
    [depth] counts the groups open. *)
Fixpoint skip_field (fuel : nat) (depth : nat) (d : list byte)
  : error + list byte :=
  match fuel, d with
  | O, _ | _, [] => inl ErrUnexpectedEOF
  | S fuel', _ =>
      match decodeVarint d with
      | inl e => inl e
      | inr (wire, d1) =>
          let wireType := N.land wire 7 in
          let continue (depth : nat) (r : error + list byte) :=
            match r with
            | inl e => inl e
            | inr d2 =>
                match depth with
                | O => inr d2
                | _ => skip_field fuel' depth d2
                end
            end in
          if wireType =? 0 then continue depth (skip_varint 0 d1)
          else if wireType =? 1 then continue depth (skip_fixed 8 d1)
          else if wireType =? 2 then
            continue depth
              match read_bytes d1 with
              | inl e => inl e
              | inr (_, d2) => inr d2
              end
          else if wireType =? 3 then continue (S depth) (inr d1)
          else if wireType =? 4 then
            match depth with
            | O => inl ErrUnexpectedEndOfGroup
            | S depth' => continue depth' (inr d1)
            end
          else if wireType =? 5 then continue depth (skip_fixed 4 d1)
          else inl (LibError "proto: illegal wireType")
      end
  end.

(** The field number as an [int32]. *)
Definition int32 (n : N) : Z :=
  let z := (Z.of_N n mod 2 ^ 32)%Z in
  if (z <? 2 ^ 31)%Z then z else (z - 2 ^ 32)%Z.

(** The loop of the generated [Unmarshal]: one field read from [d] into
    [m] a turn, until [d] is empty.  Every turn consumes a byte, so
    [length d] turns are enough. *)
Fixpoint Unmarshal_from (fuel : nat) (d : list byte) (m : ShareableContact)
  : ShareableContact * option error :=
  match fuel, d with
  | _, [] => (m, None)
  | O, _ => (m, Some ErrUnexpectedEOF)
  | S fuel', _ =>
      match decodeVarint d with
      | inl e => (m, Some e)
      | inr (wire, d1) =>
          let fieldNum := int32 (N.shiftr wire 3) in
          let wireType := N.land wire 7 in
          let bytes_into (set : list byte -> ShareableContact -> _) :=
            if negb (wireType =? 2) then
              (m, Some (LibError "proto: wrong wireType"))
            else
              match read_bytes d1 with
              | inl e => (m, Some e)
              | inr (v, d2) => Unmarshal_from fuel' d2 (set v m)
              end in
          if wireType =? 4 then
            (m, Some (LibError "proto: wiretype end group for non-group"))
          else if (fieldNum <=? 0)%Z then
            (m, Some (LibError "proto: illegal tag"))
          else if (fieldNum =? 1)%Z then bytes_into set_PK
          else if (fieldNum =? 2)%Z then bytes_into set_PublicRendezvousSeed
          else if (fieldNum =? 3)%Z then bytes_into set_Metadata
          else
            match skip_field (length d) 0 d with
            | inl e => (m, Some e)
            | inr d2 => Unmarshal_from fuel' d2 m
            end
      end
  end.

(** A Go slice: its length is an [int]. *)
Definition slice_len_ok (v : list byte) : Prop :=
  N.of_nat (length v) < 2 ^ 63.

(** What reading the field written from [v] does to a message: an empty
    [v] is not written. *)
Definition read_into (set : list byte -> ShareableContact -> ShareableContact)
  (v : list byte) (m : ShareableContact) : ShareableContact :=
  match v with
  | [] => m
  | _ => set v m
  end.

(** [proto.Unmarshal] into a fresh [ShareableContact]. *)
Definition Unmarshal (d : list byte) : ShareableContact * option error :=
  Unmarshal_from (length d) d {| PK := []; PublicRendezvousSeed := [];
                                 Metadata := [] |}.

End proto.

Module base58.
Local Open Scope N_scope.

(** The Bitcoin alphabet; the digit 0 is written ['1']. *)
Definition alphabet : list ascii :=
  list_ascii_of_string
    "123456789ABCDEFGHJKLMNPQRSTUVWXYZabcdefghijkmnopqrstuvwxyz".

Definition encode_digit (d : N) : ascii :=
  nth (N.to_nat d) alphabet "1"%char.

Fixpoint index_of (c : ascii) (l : list ascii) (i : N) : option N :=
  match l with
  | [] => None
  | a :: l' => if Ascii.eqb a c then Some i else index_of c l' (i + 1)
  end.

Definition decode_digit (c : ascii) : option N := index_of c alphabet 0.

(** The digits of [n] in base [base], lowest first; the number of binary
    digits of [n] bounds their number. *)
Fixpoint to_digits_le (base : N) (count : nat) (n : N) : list N :=
  match count with
  | O => []
  | S count' =>
      if n =? 0 then []
      else (n mod base) :: to_digits_le base count' (n / base)
  end.

(** The numeral of [n], highest digit first, without leading zeros. *)
Definition to_digits (base n : N) : list N :=
  rev (to_digits_le base (S (N.to_nat (N.log2 n))) n).

(** The number a numeral denotes, highest digit first. *)
Definition of_digits (base : N) (l : list N) : N :=
  fold_left (fun acc d => acc * base + d) l 0.

(** The number a numeral denotes, lowest digit first. *)
Fixpoint value_le (base : N) (l : list N) : N :=
  match l with
  | [] => 0
  | d :: l' => d + base * value_le base l'
  end.

(** [count] turns are enough to write [n]. *)
Definition enough (count : nat) (n : N) : Prop :=
  n = 0 \/ N.log2 n < N.of_nat count.

(** The number of zeros at the head of a numeral. *)
Fixpoint zcount (l : list N) : nat :=
  match l with
  | d :: l' => if d =? 0 then S (zcount l') else O
  | [] => O
  end.

(** [base58.Encode]: one ['1'] for each leading zero byte, then the
    base-58 numeral of the bytes read as a big-endian number. *)
Definition Encode (bin : list byte) : string :=
  let digits256 := map Byte.to_N bin in
  string_of_list_ascii
    (map encode_digit
       (replicate (zcount digits256) 0
          ++ to_digits 58 (of_digits 256 digits256))).

Fixpoint decode_digits (l : list ascii) : option (list N) :=
  match l with
  | [] => Some []
  | c :: l' =>
      match decode_digit c, decode_digits l' with
      | Some d, Some ds => Some (d :: ds)
      | _, _ => None
      end
  end.

(** [base58.Decode]: an error on the empty string and on a character
    outside the alphabet, else one zero byte for each leading ['1'], then
    the big-endian bytes of the number the numeral denotes. *)
Definition Decode (str : string) : list byte * option error :=
  if String.eqb str "" then ([], Some (Errorf "zero length string"))
  else
    match decode_digits (list_ascii_of_string str) with
    | None => ([], Some (LibError "invalid base58 digit"))
    | Some digits58 =>
        (map proto.byte_of_N
           (replicate (zcount digits58) 0
              ++ to_digits 256 (of_digits 58 digits58)),
         None)
    end.

End base58.

(** ** The pairing driver of package [mini] *)

Module mini.
Import protocoltypes.

(** The protocol-service messages, with the fields the driver reads. *)
Inductive EventType :=
| EventTypeAccountGroupJoined
| EventTypeAccountContactRequestIncomingReceived
| EventTypeOther (code : N).

#[global] Instance EventType_eq_dec : EqDecision EventType.
Proof. solve_decision. Defined.

Record ServiceGetConfiguration_Reply := {
  AccountPK : list byte;
  AccountGroupPK : list byte
}.

Record ContactRequestReference_Reply := {
  Ref_PublicRendezvousSeed : list byte;
  Enabled : bool
}.

Record Group := { PublicKey : list byte }.
Record GroupInfo_Reply := { Group_ : option Group }.

Record GroupMetadata := { EventType_ : EventType }.
Record GroupMetadataEvent := {
  Metadata_ : option GroupMetadata;
  Event : list byte
}.

Record GroupMessageEvent := { Message : list byte }.

Record AccountContactRequestReceived := { ContactPK : list byte }.

(** One [Recv] on a subscription as the driver sees it: the event, the
    error, and what the stream's [Context().Err()] reports when asked
    after it.  The context of a subscription is derived from the context
    of the call: when that one is cancelled, this one reports the
    cancellation. *)
Record Recv (A : Type) := {
  recv_msg : option A;
  recv_err : option error;
  ctx_err : option error
}.
Arguments recv_msg {A} _.
Arguments recv_err {A} _.
Arguments ctx_err {A} _.

(** A subscription: the results of its coming [Recv]s; after the last of
    them [Recv] does not return. *)
Definition Stream (A : Type) : Type := list (Recv A).

Definition is_EOF (err : option error) : bool :=
  match err with
  | Some EOF => true
  | _ => false
  end.

(** A [Recv] the loop of [receiveContactRequest] passes over: no error,
    a live context, and no event or an event of another type. *)
Definition passed_over (r : Recv GroupMetadataEvent) : bool :=
  match recv_err r, ctx_err r, recv_msg r with
  | None, None, None => true
  | None, None, Some md =>
      match Metadata_ md with
      | Some gm =>
          bool_decide (EventType_ gm
                       <> EventTypeAccountContactRequestIncomingReceived)
      | None => false
      end
  | _, _, _ => false
  end.

Definition string_of_bytes (b : list byte) : string :=
  string_of_list_ascii (map ascii_of_byte b).
Definition bytes_of_string (s : string) : list byte :=
  map byte_of_ascii (list_ascii_of_string s).

Section Driver.

(** The protocol service behind the client, a collaborator outside the
    repository: its state and its calls, as steps on that state. *)
Variable Service : Type.
Variable ServiceGetConfiguration
  : M Service (option ServiceGetConfiguration_Reply * option error).
Variable ContactRequestReference
  : M Service (option ContactRequestReference_Reply * option error).
Variable ContactRequestResetReference : M Service (option error).
Variable ContactRequestEnable : M Service (option error).
Variable ContactRequestSend : ShareableContact -> M Service (option error).
Variable ContactRequestAccept : list byte -> M Service (option error).
Variable GroupInfo
  : list byte -> M Service (option GroupInfo_Reply * option error).
Variable ActivateGroup : list byte -> M Service (option error).
Variable AppMessageSend : list byte -> list byte -> M Service (option error).
Variable GroupMetadataList
  : list byte -> M Service (option (Stream GroupMetadataEvent) * option error).
Variable GroupMessageList
  : list byte -> M Service (option (Stream GroupMessageEvent) * option error).

(** [request.Unmarshal]: the request as filled, and the error. *)
Variable Unmarshal_request
  : list byte -> AccountContactRequestReceived * option error.

(** The process: the service and what was written to standard output. *)
Definition Process : Type := Service * list string.

Definition rpc {A} (m : M Service A) : M Process A :=
  fun p => let (o, s) := m (fst p) in (o, (s, snd p)).

Definition Print (s : string) : M Process unit :=
  fun p => (Return tt, (fst p, snd p ++ [s])).
Definition Println (s : string) : M Process unit :=
  Print (String.append s nl).

Definition panic {W A} (e : error) : M W A := lift (Panic (PanicError e)).

Definition shareContact : M Service (list byte * option error) :=
  let* (contactRequestRef, err) := ContactRequestReference in
  match err with
  | Some e => ret ([], Some e)
  | None =>
  let* ref := lift (deref contactRequestRef) in
  let* (contactRequestRef, err) :=
    if (length (Ref_PublicRendezvousSeed ref) =? 0)%nat || negb (Enabled ref)
    then
      let* err := ContactRequestResetReference in
      match err with
      | Some e => ret (contactRequestRef, Some e)
      | None =>
      let* err := ContactRequestEnable in
      match err with
      | Some e => ret (contactRequestRef, Some e)
      | None => ContactRequestReference
      end end
    else ret (contactRequestRef, None) in
  match err with
  | Some e => ret ([], Some e)
  | None =>
  let* (config, err) := ServiceGetConfiguration in
  match err with
  | Some e => ret ([], Some e)
  | None =>
  let* config := lift (deref config) in
  let* ref := lift (deref contactRequestRef) in
  let contact :=
    {| PK := AccountPK config;
       PublicRendezvousSeed := Ref_PublicRendezvousSeed ref;
       Metadata := [] |} in
  ret (proto.Marshal contact)
  end end end.

(** The [for] loop of [receiveContactRequest], over the [Recv]s to come. *)
Fixpoint receiveContactRequest_loop (subMetadata : Stream GroupMetadataEvent)
  : outcome (option AccountContactRequestReceived * option error) :=
  match subMetadata with
  | [] => Blocked
  | r :: rest =>
      let metadata := recv_msg r in
      let err := recv_err r in
      if is_EOF err || bool_decide (ctx_err r <> None) then
        (* Not received. *)
        Return (None, None)
      else
        match err with
        | Some e => Return (None, Some e)
        | None =>
            match metadata with
            | None => receiveContactRequest_loop rest
            | Some md =>
                obind (deref (Metadata_ md)) (fun gm =>
                if bool_decide
                     (EventType_ gm
                      <> EventTypeAccountContactRequestIncomingReceived)
                then receiveContactRequest_loop rest
                else
                  let (request, err) := Unmarshal_request (Event md) in
                  match err with
                  | Some e => Return (None, Some e)
                  | None => Return (Some request, None)
                  end)
            end
        end
  end.

Definition receiveContactRequest
  : M Service (option AccountContactRequestReceived * option error) :=
  let* (config, err) := ServiceGetConfiguration in
  match err with
  | Some e => ret (None, Some e)
  | None =>
  let* config := lift (deref config) in
  let* (subMetadata, err) := GroupMetadataList (AccountGroupPK config) in
  match err with
  | Some e => ret (None, Some e)
  | None =>
  let* subMetadata := lift (deref subMetadata) in
  lift (receiveContactRequest_loop subMetadata)
  end end.

(** The [for] loop of [receiveMessage]: every path of its body returns,
    so it takes one [Recv]. *)
Definition receiveMessage_loop (subMessages : Stream GroupMessageEvent)
  : outcome (option GroupMessageEvent * option error) :=
  match subMessages with
  | [] => Blocked
  | r :: _ =>
      let message := recv_msg r in
      let err := recv_err r in
      if is_EOF err then
        (* Not received. *)
        Return (None, None)
      else
        match err with
        | Some e => Return (None, Some e)
        | None => Return (message, None)
        end
  end.

Definition receiveMessage (groupInfo : option GroupInfo_Reply)
  : M Service (option GroupMessageEvent * option error) :=
  let* groupInfo := lift (deref groupInfo) in
  let* group := lift (deref (Group_ groupInfo)) in
  let* (subMessages, err) := GroupMessageList (PublicKey group) in
  match err with
  | Some e => panic e
  | None =>
  let* subMessages := lift (deref subMessages) in
  lift (receiveMessage_loop subMessages)
  end.

(** The token [doClient1] prints for a shared contact. *)
Definition contact_token (binaryContact : list byte) : string :=
  base58.Encode binaryContact.

Definition doClient1 : M Process unit :=
  let* (binaryContact, err) := rpc shareContact in
  match err with
  | Some e => panic e
  | None =>
  let* _ := Println "***Contact share:" in
  let* _ := Println (contact_token binaryContact) in
  let* (request, err) := rpc receiveContactRequest in
  match err with
  | Some e => panic e
  | None =>
  match request with
  | None => Println "Error: Did not receive the contact request"
  | Some request =>
  let* err := rpc (ContactRequestAccept (ContactPK request)) in
  match err with
  | Some e => panic e
  | None =>
  let* (groupInfo, err) := rpc (GroupInfo (ContactPK request)) in
  match err with
  | Some e => panic e
  | None =>
  let* info := lift (deref groupInfo) in
  let* group := lift (deref (Group_ info)) in
  let* err := rpc (ActivateGroup (PublicKey group)) in
  match err with
  | Some e => panic e
  | None =>
  let* (message, err) := rpc (receiveMessage groupInfo) in
  match err with
  | Some e => panic e
  | None =>
  match message with
  | None => Print "End of stream without receiving message"
  | Some message =>
      Println (String.append "client2: " (string_of_bytes (Message message)))
  end end end end end end end end.

(** The first statements of [doClient2]: the token decoded into a
    [ShareableContact], a panic when it is not one. *)
Definition decode_contact {W} (encodedContact : string)
  : M W ShareableContact :=
  let (contactBinary, err) := base58.Decode encodedContact in
  match err with
  | Some e => panic e
  | None =>
  let (contact, err) := proto.Unmarshal contactBinary in
  match err with
  | Some e => panic e
  | None => ret contact
  end end.

Definition doClient2 (encodedContact : string) : M Process unit :=
  let* contact := decode_contact encodedContact in
  let* err := rpc (ContactRequestSend contact) in
  match err with
  | Some e => panic e
  | None =>
  let* (groupInfo, err) := rpc (GroupInfo (PK contact)) in
  match err with
  | Some e => panic e
  | None =>
  let* info := lift (deref groupInfo) in
  let* group := lift (deref (Group_ info)) in
  let* err := rpc (ActivateGroup (PublicKey group)) in
  match err with
  | Some e => panic e
  | None =>
  let* err :=
    rpc (AppMessageSend (PublicKey group) (bytes_of_string "Hello")) in
  match err with
  | Some e => panic e
  | None => Println "Message sent. Sleep."
  end end end end.

End Driver.

End mini.

(** ** [Main] of package [mini]

    [Main] returns in both branches of its test of the invitation: the
    statements after it, which build the terminal interface, are never
    reached, and [Main] is the checks, the call for the configuration and
    one of the two pairing flows. *)

Module mini_main.
Import protocoltypes mini.

(** [Opts], with the fields [Main] reads before it starts a flow: the
    two clients, here or [nil], and the invitation. *)
Record Opts := {
  MessengerClient : option unit;
  ProtocolClient : option unit;
  GroupInvitation : string
}.

Section Main.

Variable Service : Type.
Variable ServiceGetConfiguration
  : M Service (option ServiceGetConfiguration_Reply * option error).
Variable ContactRequestReference
  : M Service (option ContactRequestReference_Reply * option error).
Variable ContactRequestResetReference : M Service (option error).
Variable ContactRequestEnable : M Service (option error).
Variable ContactRequestSend : ShareableContact -> M Service (option error).
Variable ContactRequestAccept : list byte -> M Service (option error).
Variable GroupInfo
  : list byte -> M Service (option GroupInfo_Reply * option error).
Variable ActivateGroup : list byte -> M Service (option error).
Variable AppMessageSend : list byte -> list byte -> M Service (option error).
Variable GroupMetadataList
  : list byte -> M Service (option (Stream GroupMetadataEvent) * option error).
Variable GroupMessageList
  : list byte -> M Service (option (Stream GroupMessageEvent) * option error).
Variable Unmarshal_request
  : list byte -> AccountContactRequestReceived * option error.

(** The error of [terminfo.LookupTerminfo(os.Getenv("TERM"))], and the
    two error codes of the repository that [Main] wraps. *)
Variable LookupTerminfo_error : option error.
Variable ErrMissingInput ErrCLINoTermcaps : ErrCode.

Definition doClient1 : M (Process Service) unit :=
  mini.doClient1 Service ServiceGetConfiguration ContactRequestReference
    ContactRequestResetReference ContactRequestEnable ContactRequestAccept
    GroupInfo ActivateGroup GroupMetadataList GroupMessageList
    Unmarshal_request.

Definition doClient2 (encodedContact : string) : M (Process Service) unit :=
  mini.doClient2 Service ContactRequestSend GroupInfo ActivateGroup
    AppMessageSend encodedContact.

Definition Main (opts : option Opts) : M (Process Service) (option error) :=
  let* opts := lift (deref opts) in
  match MessengerClient opts with
  | None =>
      ret (Some (Wrap ErrMissingInput (Errorf "missing messenger client")))
  | Some _ =>
  match ProtocolClient opts with
  | None =>
      ret (Some (Wrap ErrMissingInput (Errorf "missing protocol client")))
  | Some _ =>
  match LookupTerminfo_error with
  | Some e => ret (Some (Wrap ErrCLINoTermcaps e))
  | None =>
  let* (config, err) := rpc Service ServiceGetConfiguration in
  match err with
  | Some e => ret (Some (Wrap TODO e))
  | None =>
      if (String.length (GroupInvitation opts) =? 0)%nat then
        let* _ := doClient1 in
        ret None
      else
        let* _ := doClient2 (GroupInvitation opts) in
        ret None
  end end end end.

End Main.

End mini_main.

(** ** Vocabulary of the properties of the calls made *)

Module behaviour.
Import os.

(** The calls that read the file tree. *)
Definition is_read (ev : event) : bool :=
  match ev with
  | EvReadFile _ | EvStat _ | EvReadDir _ => true
  | _ => false
  end.

Definition is_warn (ev : event) : bool :=
  match ev with
  | EvWarn _ _ _ => true
  | _ => false
  end.

(** From [w] to [w'] only reads were made, and warnings written when
    [warnings] allows them: the file tree and the key generator are the
    same. *)
Definition only_reads (warnings : bool) (w w' : World) : Prop :=
  root w' = root w
  /\ entropy w' = entropy w
  /\ exists evs,
       trace w' = trace w ++ evs
       /\ forallb (fun ev => is_read ev || (warnings && is_warn ev)) evs
          = true.

(** The metadata file of an account, as [GetAccountMetaForName] names
    it. *)
Definition metafile (rootDir accountID : string) : string :=
  path.Join [rootDir; accountID; accountutils.AccountMetafileName].

(** The directory [GetDatastoreDir] keeps the store of an account in. *)
Definition account0 (dir : string) : string :=
  path.Join [dir; "account0"%string].

(** The contact [shareContact] builds from a configuration and a
    reference. *)
Definition contact_of (config : mini.ServiceGetConfiguration_Reply)
  (ref : mini.ContactRequestReference_Reply)
  : protocoltypes.ShareableContact :=
  {| protocoltypes.PK := mini.AccountPK config;
     protocoltypes.PublicRendezvousSeed := mini.Ref_PublicRendezvousSeed ref;
     protocoltypes.Metadata := [] |}.

(** An incoming contact request on a subscription: no error, a live
    context, and an event of that type. *)
Definition is_request (r : mini.Recv mini.GroupMetadataEvent)
  (md : mini.GroupMetadataEvent) : Prop :=
  mini.recv_err r = None
  /\ mini.ctx_err r = None
  /\ mini.recv_msg r = Some md
  /\ mini.Metadata_ md
     = Some {| mini.EventType_ :=
                 mini.EventTypeAccountContactRequestIncomingReceived |}.

End behaviour.

(** ** Worlds and services to run the code on *)

Module Examples.
Import os accountutils protocoltypes mini.

(** A world whose key file was cut short after three bytes. *)
Definition truncated_key_world : World :=
  {| root := Dir [("push.key"%string, File [x01; x02; x03])];
     entropy := [];
     trace := [] |}.

(** A world whose key file has one byte too many. *)
Definition long_key_world : World :=
  {| root := Dir [("push.key"%string, File (replicate 65 x07))];
     entropy := [];
     trace := [] |}.

Definition example_pk : key :=
  list_to_vec
    [x01; x02; x03; x04; x05; x06; x07; x08; x09; x0a; x0b; x0c; x0d; x0e;
     x0f; x10; x11; x12; x13; x14; x15; x16; x17; x18; x19; x1a; x1b; x1c;
     x1d; x1e; x1f; x20].

Definition example_sk : key :=
  list_to_vec
    [xa1; xa2; xa3; xa4; xa5; xa6; xa7; xa8; xa9; xaa; xab; xac; xad; xae;
     xaf; xb0; xb1; xb2; xb3; xb4; xb5; xb6; xb7; xb8; xb9; xba; xbb; xbc;
     xbd; xbe; xbf; xc0].

(** An empty file tree and a key generator about to yield one pair. *)
Definition fresh_world : World :=
  {| root := Dir [];
     entropy := [inr (example_pk, example_sk)];
     trace := [] |}.

(** An accounts directory with a loadable account, an account whose
    metadata file is corrupt, an account without metadata file, and a
    regular file. *)
Definition accounts_entries : list (string * node) :=
  [("alice", Dir [("account_meta", File [])]);
   ("bob", Dir [("account_meta", File [xff])]);
   ("carol", Dir []);
   ("notes.txt", File [x01])]%string.

Definition accounts_world : World :=
  {| root := Dir [("accounts"%string, Dir accounts_entries)];
     entropy := [];
     trace := [] |}.

(** A metadata decoder that accepts the empty message only. *)
Definition example_Unmarshal (d : list byte)
  : AccountMetadata unit * option error :=
  let meta := {| AccountID := ""; Error := ""; other := tt |} in
  match d with
  | [] => (meta, None)
  | _ => (meta, Some (LibError "proto: illegal tag"))
  end.

Fixpoint example_error_text (e : error) : string :=
  match e with
  | EOF => "EOF"
  | PathError op p _ => String.append op (String.append " " p)
  | Errorf msg => msg
  | ErrorfW msg e' => String.append msg (example_error_text e')
  | Code _ => "ErrCode"
  | Wrap _ e' => String.append "ErrCode: " (example_error_text e')
  | LibError msg => msg
  end.

(** An SQL driver that opens every database and executes every
    statement. *)
Definition example_sql_Open (driver url : string)
  : M (option string * option error) :=
  ret (Some url, None).
Definition example_db_Exec (db stmt : string) : M (option error) :=
  ret None.

(** A protocol service that answers every call, with one subscription
    for the metadata events and one for the messages. *)
Definition example_config : ServiceGetConfiguration_Reply :=
  {| AccountPK := [x01; x02]; AccountGroupPK := [x03] |}.

Definition example_ServiceGetConfiguration
  : Go.M unit (option ServiceGetConfiguration_Reply * option error) :=
  ret (Some example_config, None).

Definition subscription {A} (stream : Stream A)
  : list byte -> Go.M unit (option (Stream A) * option error) :=
  fun _ => ret (Some stream, None).

Definition example_Unmarshal_request (d : list byte)
  : AccountContactRequestReceived * option error :=
  ({| ContactPK := d |}, None).

(** The stream is closed by the service. *)
Definition closed {A} : Recv A :=
  {| recv_msg := None; recv_err := Some EOF; ctx_err := None |}.

(** The context is cancelled: [Recv] fails with the status of the
    cancellation and the context reports its error. *)
Definition cancelled_error : error :=
  LibError "rpc error: code = Canceled desc = context canceled".
Definition cancelled {A} : Recv A :=
  {| recv_msg := None;
     recv_err := Some cancelled_error;
     ctx_err := Some (LibError "context canceled") |}.

(** An event of another type than the incoming contact request. *)
Definition group_joined : Recv GroupMetadataEvent :=
  {| recv_msg :=
       Some {| Metadata_ :=
                 Some {| EventType_ := EventTypeAccountGroupJoined |};
               Event := [] |};
     recv_err := None;
     ctx_err := None |}.

Definition example_groupInfo : GroupInfo_Reply :=
  {| Group_ := Some {| PublicKey := [x09] |} |}.

Definition example_contact : ShareableContact :=
  {| PK := [x00; x01; x02]; PublicRendezvousSeed := [xfe; xff];
     Metadata := [] |}.

End Examples.

(** ** More worlds, and a service that records its calls *)

Module Scenarios.
Import os accountutils protocoltypes mini.

(** A world whose key generator fails. *)
Definition entropy_error : error := LibError "unexpected EOF".
Definition failing_world : World :=
  {| root := Dir [];
     entropy := [inl entropy_error];
     trace := [] |}.

(** An account whose metadata file is a directory. *)
Definition unreadable_world : World :=
  {| root :=
       Dir [("accounts"%string,
             Dir [("dave"%string, Dir [("account_meta"%string, Dir [])])])];
     entropy := [];
     trace := [] |}.

(** A store directory whose [account0] is a regular file. *)
Definition store_world : World :=
  {| root := Dir [("data"%string, Dir [("account0"%string, File [x2a])])];
     entropy := [];
     trace := [] |}.

(** An SQL driver that cannot open the database. *)
Definition open_error : error := LibError "unable to open database file".
Definition failing_sql_Open (driver url : string)
  : M (option string * option error) :=
  ret (None, Some open_error).

(** A protocol service whose state is the list of the calls made to it.
    Its reference is enabled, with a seed, once [ContactRequestEnable]
    was called. *)
Definition answer {A} (name : string) (a : A) : Go.M (list string) A :=
  fun calls => (Return a, calls ++ [name]).

Definition enabled_in (calls : list string) : bool :=
  existsb (String.eqb "ContactRequestEnable") calls.

Definition reference_in (calls : list string)
  : ContactRequestReference_Reply :=
  {| Ref_PublicRendezvousSeed :=
       if enabled_in calls then [xfe; xff] else [];
     Enabled := enabled_in calls |}.

Definition ServiceGetConfiguration
  : Go.M (list string)
      (option ServiceGetConfiguration_Reply * option error) :=
  answer "ServiceGetConfiguration" (Some Examples.example_config, None).

Definition ContactRequestReference
  : Go.M (list string)
      (option ContactRequestReference_Reply * option error) :=
  fun calls =>
    answer "ContactRequestReference" (Some (reference_in calls), None) calls.

Definition ContactRequestResetReference
  : Go.M (list string) (option error) :=
  answer "ContactRequestResetReference" None.

Definition ContactRequestEnable : Go.M (list string) (option error) :=
  answer "ContactRequestEnable" None.

Definition ContactRequestSend (contact : ShareableContact)
  : Go.M (list string) (option error) :=
  answer "ContactRequestSend" None.

Definition ContactRequestAccept (contactPK : list byte)
  : Go.M (list string) (option error) :=
  answer "ContactRequestAccept" None.

Definition GroupInfo (contactPK : list byte)
  : Go.M (list string) (option GroupInfo_Reply * option error) :=
  answer "GroupInfo" (Some Examples.example_groupInfo, None).

Definition ActivateGroup (groupPK : list byte)
  : Go.M (list string) (option error) :=
  answer "ActivateGroup" None.

Definition AppMessageSend (groupPK payload : list byte)
  : Go.M (list string) (option error) :=
  answer "AppMessageSend" None.

Definition GroupMetadataList (stream : Stream GroupMetadataEvent)
  (groupPK : list byte)
  : Go.M (list string)
      (option (Stream GroupMetadataEvent) * option error) :=
  answer "GroupMetadataList" (Some stream, None).

Definition GroupMessageList (stream : Stream GroupMessageEvent)
  (groupPK : list byte)
  : Go.M (list string)
      (option (Stream GroupMessageEvent) * option error) :=
  answer "GroupMessageList" (Some stream, None).

(** The service is not reachable. *)
Definition unavailable : error :=
  LibError "rpc error: code = Unavailable desc = transport is closing".

Definition failed {A} : Recv A :=
  {| recv_msg := None; recv_err := Some unavailable; ctx_err := None |}.

(** An incoming contact request, an event without metadata, and a
    message. *)
Definition request_event : GroupMetadataEvent :=
  {| Metadata_ :=
       Some {| EventType_ :=
                 EventTypeAccountContactRequestIncomingReceived |};
     Event := [x05; x06] |}.

Definition contact_request : Recv GroupMetadataEvent :=
  {| recv_msg := Some request_event; recv_err := None; ctx_err := None |}.

Definition bare_event : GroupMetadataEvent :=
  {| Metadata_ := None; Event := [] |}.

Definition without_metadata : Recv GroupMetadataEvent :=
  {| recv_msg := Some bare_event; recv_err := None; ctx_err := None |}.

Definition hello : GroupMessageEvent :=
  {| Message := bytes_of_string "Hello" |}.

Definition message_hello : Recv GroupMessageEvent :=
  {| recv_msg := Some hello; recv_err := None; ctx_err := None |}.

(** The options of [Main] with both clients. *)
Definition options (invitation : string) : mini_main.Opts :=
  {| mini_main.MessengerClient := Some tt;
     mini_main.ProtocolClient := Some tt;
     mini_main.GroupInvitation := invitation |}.

End Scenarios.

(** * Properties *)

(** ** The models of the libraries on known values *)

Example path_Dir_ex : path.Dir "/a/b/push.key" = "/a/b"%string.
Proof. reflexivity. Qed.
Example path_Join_ex :
  path.Join ["accounts/"; "0"; "account_meta"]%string
  = "accounts/0/account_meta"%string.
Proof. reflexivity. Qed.
Example path_Clean_ex : path.Clean "a/../../b/./c/" = "../b/c"%string.
Proof. reflexivity. Qed.
Example base58_Encode_ex :
  base58.Encode [x00; x00; x01; x02] = "115T"%string.
Proof. reflexivity. Qed.
Example base58_Decode_ex :
  base58.Decode "115T" = ([x00; x00; x01; x02], None).
Proof. reflexivity. Qed.
Example base58_Encode_hello :
  base58.Encode (mini.bytes_of_string "Hello World!")
  = "2NEpo7TZRRrLZSi2U"%string.
Proof. reflexivity. Qed.
Example base58_Encode_leading_zeros :
  base58.Encode [x00; x00; x28; x7f; xb4; xcd] = "11233QC4"%string.
Proof. reflexivity. Qed.
Example base58_Decode_empty :
  base58.Decode "" = ([], Some (Errorf "zero length string")).
Proof. reflexivity. Qed.
Example encodeVarint_300 : proto.encodeVarint 300 = [xac; x02].
Proof. reflexivity. Qed.
Example Marshal_ex :
  proto.Marshal Examples.example_contact
  = ([x0a; x03; x00; x01; x02; x12; x02; xfe; xff], None).
Proof. reflexivity. Qed.

(** The walk of a path as it is written: a slash after the name of a
    file, a way through a directory that is not there, a way through
    directories that are, and a file created behind a slash. *)
Example lookup_path_slash_after_file :
  os.lookup_path (os.root Examples.truncated_key_world) "push.key/"
  = inl ENOTDIR.
Proof. reflexivity. Qed.
Example lookup_path_through_missing :
  os.lookup_path (os.root Examples.accounts_world) "x/../accounts"
  = inl ENOENT
  /\ os.lookup_path (os.root Examples.accounts_world) "accounts"
     = inr (os.Dir Examples.accounts_entries).
Proof. by split. Qed.
Example lookup_path_through_directories :
  os.lookup_path (os.root Examples.accounts_world)
    "/accounts/./alice/..//carol/"
  = inr (os.Dir []).
Proof. reflexivity. Qed.
Example write_path_slash :
  os.write_path (os.root Examples.fresh_world) "push.key/" [] = inl EISDIR.
Proof. reflexivity. Qed.
Example MkdirAll_file_in_the_way :
  os.MkdirAll "push.key/keys/0" Examples.truncated_key_world
  = (Return (Some (PathError "mkdir" "push.key" ENOTDIR)),
     os.log (os.EvMkdirAll "push.key/keys/0") Examples.truncated_key_world).
Proof. reflexivity. Qed.

(** ** Loops and the file tree *)

Section Loops.
Context {St : Type}.
Implicit Types (body : nat -> St -> outcome St) (s : St).

(** A loop whose body keeps an invariant and does not panic returns a
    state in which the invariant holds. *)
Lemma for_range_invariant (P : nat -> St -> Prop) body n lo s :
  P lo s ->
  (forall i s, lo <= i < lo + n -> P i s ->
     exists s', body i s = Return s' /\ P (S i) s') ->
  exists s', for_range n lo body s = Return s' /\ P (lo + n) s'.
Proof.
  revert lo s. induction n as [|n IH]; intros lo s HP Hbody; simpl.
  - exists s. by rewrite Nat.add_0_r.
  - destruct (Hbody lo s) as (s1 & -> & HP1); [lia | done |]. simpl.
    destruct (IH (S lo) s1) as (s2 & -> & HP2); [done | |].
    + intros i s' Hi. apply Hbody. lia.
    + exists s2. split; [done|]. by rewrite <- Nat.add_succ_comm.
Qed.

Lemma for_range_add body a b lo s :
  for_range (a + b) lo body s
  = obind (for_range a lo body s) (for_range b (lo + a) body).
Proof.
  revert lo s. induction a as [|a IH]; intros lo s; simpl.
  - by rewrite Nat.add_0_r.
  - destruct (body lo s) as [s1| |]; simpl; [|done|done].
    by rewrite IH, <- Nat.add_succ_comm.
Qed.

End Loops.

Section FileTree.
Import os.

Lemma lookup_put_entry name n es :
  lookup_entry name (put_entry name n es) = Some n.
Proof.
  induction es as [|[k v] es IH]; simpl.
  - by rewrite String.eqb_refl.
  - destruct (String.eqb k name) eqn:Hk; simpl.
    + by rewrite String.eqb_refl.
    + destruct (String.ltb name k); simpl.
      * by rewrite String.eqb_refl.
      * by rewrite Hk.
Qed.

(** What was written is what is there. *)
Lemma write_node_lookup p : forall n data n',
  write_node n p data = inr n' -> lookup_node n' p = inr (File data).
Proof.
  induction p as [|name p IH]; intros n data n'; simpl.
  - destruct n; [|done]. by intros [= <-].
  - destruct n as [|es]; [done|].
    destruct (lookup_entry name es) as [child|] eqn:Hc.
    + destruct (write_node child p data) as [|child'] eqn:Hw; [done|].
      intros [= <-]. simpl. rewrite lookup_put_entry. by eapply IH.
    + destruct p; [|done]. intros [= <-]. simpl.
      by rewrite lookup_put_entry.
Qed.

Lemma lookup_put_entry_ne name name' n es :
  name' <> name ->
  lookup_entry name' (put_entry name n es) = lookup_entry name' es.
Proof.
  intros Hne. induction es as [|[k v] es IH]; simpl.
  - destruct (String.eqb_spec name name'); [congruence|done].
  - destruct (String.eqb_spec k name) as [->|Hk]; simpl.
    + destruct (String.eqb_spec name name'); [congruence|done].
    + destruct (String.ltb name k); simpl.
      * destruct (String.eqb_spec name name'); [congruence|done].
      * by rewrite IH.
Qed.

(** A walk goes the same way in a tree that has the directories of the
    tree it was made in. *)
Lemma walk_kept r r' elems : forall cur q,
  (forall d es, lookup_node r d = inr (Dir es) ->
     exists es', lookup_node r' d = inr (Dir es')) ->
  walk r cur elems = inr q -> walk r' cur elems = inr q.
Proof.
  induction elems as [|elem elems IH]; intros cur q Hdirs; [done|].
  cbn [walk]. destruct (lookup_node r cur) as [e|[c|es]] eqn:Hl; try done.
  destruct (Hdirs _ _ Hl) as [es' ->]. by apply IH.
Qed.

(** Writing a file leaves the directories where they are. *)
Lemma write_node_keeps_dirs p data : forall n n',
  write_node n p data = inr n' ->
  forall d es, lookup_node n d = inr (Dir es) ->
    exists es', lookup_node n' d = inr (Dir es').
Proof.
  induction p as [|name p IH]; intros n n'; cbn [write_node].
  - destruct n; [|done]. intros [= <-] d es. by destruct d.
  - destruct n as [|es0]; [done|].
    destruct (lookup_entry name es0) as [child|] eqn:Hc.
    + destruct (write_node child p data) as [|child'] eqn:Hw; [done|].
      intros [= <-] d es. destruct d as [|x d]; [by eexists|].
      cbn [lookup_node].
      destruct (String.eqb_spec x name) as [->|Hx].
      * rewrite lookup_put_entry, Hc. by apply (IH _ _ Hw).
      * rewrite lookup_put_entry_ne by done. eauto.
    + destruct p; [|done]. intros [= <-] d es.
      destruct d as [|x d]; [by eexists|]. cbn [lookup_node].
      destruct (String.eqb_spec x name) as [->|Hx].
      * by rewrite Hc.
      * rewrite lookup_put_entry_ne by done. eauto.
Qed.

(** A path that was written does not end in a slash, could be walked, and
    was written where the walk led. *)
Lemma write_path_inv r p data r' :
  write_path r p data = inr r' ->
  String.eqb p "" = false
  /\ String.eqb (List.last (path.split p) "x"%string) "" = false
  /\ exists q,
       walk r [] (path.split p) = inr q /\ write_node r q data = inr r'.
Proof.
  unfold write_path. destruct (String.eqb p ""); [done|].
  destruct (String.eqb (List.last (path.split p) "x"%string) "").
  { by destruct (walk r [] (trim (path.split p))). }
  destruct (walk r [] (path.split p)) as [|q]; [done|].
  intros Hw. by eauto.
Qed.

Lemma write_path_lookup r p data r' :
  write_path r p data = inr r' -> lookup_path r' p = inr (File data).
Proof.
  intros (Hne & _ & q & Hwalk & Hw)%write_path_inv.
  unfold lookup_path. rewrite Hne.
  rewrite (walk_kept _ _ _ _ _ (write_node_keeps_dirs _ _ _ _ Hw) Hwalk).
  by eapply write_node_lookup.
Qed.

Lemma lookup_node_app p q : forall n,
  lookup_node n (p ++ q)
  = match lookup_node n p with
    | inr n' => lookup_node n' q
    | inl e => inl e
    end.
Proof.
  induction p as [|name p IH]; intros n; [done|]. cbn [app lookup_node].
  destruct n as [|es]; [done|]. by destruct (lookup_entry name es).
Qed.

(** After [mkdir_all] the path is a directory. *)
Lemma mkdir_all_lookup p : forall n n',
  mkdir_all n p = inr n' -> exists es, lookup_node n' p = inr (Dir es).
Proof.
  induction p as [|name p IH]; intros n n'; destruct n as [|es0]; try done.
  - intros [= <-]. by exists es0.
  - cbn [mkdir_all].
    destruct (mkdir_all (default (Dir []) (lookup_entry name es0)) p)
      as [|child'] eqn:Hc; [done|].
    intros [= <-]. cbn [lookup_node]. rewrite lookup_put_entry. by eapply IH.
Qed.

(** [mkdir_all] along [p] does not create the entry [name] under [p]. *)
Lemma mkdir_all_keeps_missing name p : forall n n',
  lookup_node n (p ++ [name]) = inl ENOENT ->
  mkdir_all n p = inr n' ->
  lookup_node n' (p ++ [name]) = inl ENOENT.
Proof.
  induction p as [|d p IH]; intros n n'; destruct n as [|es0]; try done.
  - by intros H [= <-].
  - cbn [app lookup_node mkdir_all]. intros Hmiss.
    destruct (mkdir_all (default (Dir []) (lookup_entry d es0)) p)
      as [|child'] eqn:Hc; [done|].
    intros [= <-]. cbn [lookup_node]. rewrite lookup_put_entry.
    refine (IH _ _ _ Hc).
    destruct (lookup_entry d es0) as [child|]; [done|].
    cbn [default]. by destruct p.
Qed.

(** A file can be written where a file is, and where nothing is in an
    existing directory. *)
Lemma write_node_over_file p data : forall n c,
  lookup_node n p = inr (File c) -> exists n', write_node n p data = inr n'.
Proof.
  induction p as [|name p IH]; intros n c; cbn [lookup_node write_node].
  - intros [= ->]. by eexists.
  - destruct n as [|es]; [done|].
    destruct (lookup_entry name es) as [child|]; [|done].
    intros [n' ->]%IH. by eexists.
Qed.

Lemma write_node_in_dir name data p : forall n es,
  lookup_node n p = inr (Dir es) -> lookup_entry name es = None ->
  exists n', write_node n (p ++ [name]) data = inr n'.
Proof.
  induction p as [|d p IH]; intros n es; cbn [app lookup_node write_node].
  - intros [= ->] ->. by eexists.
  - destruct n as [|es0]; [done|].
    destruct (lookup_entry d es0) as [child|]; [|done].
    intros Hl Hn. destruct (IH _ _ Hl Hn) as [n' ->]. by eexists.
Qed.

(** A path that was written can be written again. *)
Lemma write_path_again r p data data' r' :
  write_path r p data = inr r' ->
  exists r'', write_path r' p data' = inr r''.
Proof.
  intros (Hne & Hlast & q & Hwalk & Hw)%write_path_inv.
  unfold write_path. rewrite Hne, Hlast.
  rewrite (walk_kept _ _ _ _ _ (write_node_keeps_dirs _ _ _ _ Hw) Hwalk).
  eapply write_node_over_file. by eapply write_node_lookup.
Qed.

(** The files of a tree after [mkdir_all] are files of the tree before. *)
Lemma mkdir_all_files p : forall n n',
  mkdir_all n p = inr n' ->
  forall q c, lookup_node n' q = inr (File c) -> lookup_node n q = inr (File c).
Proof.
  induction p as [|name p IH]; intros n n'; destruct n as [|es0]; try done.
  - by intros [= <-].
  - cbn [mkdir_all].
    destruct (mkdir_all (default (Dir []) (lookup_entry name es0)) p)
      as [|child'] eqn:Hc; [done|].
    intros [= <-] q c. destruct q as [|x q]; [done|]. cbn [lookup_node].
    destruct (String.eqb_spec x name) as [->|Hx].
    + rewrite lookup_put_entry. intros Hq.
      pose proof (IH _ _ Hc _ _ Hq) as Hq'.
      destruct (lookup_entry name es0) as [child|]; [done|].
      cbn [default from_option id] in Hq'. by destruct q.
    + by rewrite lookup_put_entry_ne.
Qed.

(** The directories of a tree after [mkdir_all] along a directory that
    was there are directories of the tree before. *)
Lemma mkdir_all_dirs_back p : forall n n' es,
  lookup_node n p = inr (Dir es) ->
  mkdir_all n p = inr n' ->
  forall q es', lookup_node n' q = inr (Dir es') ->
    exists es'', lookup_node n q = inr (Dir es'').
Proof.
  induction p as [|name p IH]; intros n n' es; destruct n as [|es0];
    try done.
  - intros _ [= <-]. eauto.
  - cbn [lookup_node mkdir_all].
    destruct (lookup_entry name es0) as [child|] eqn:Hn; [|done].
    cbn [default from_option id]. intros Hl.
    destruct (mkdir_all child p) as [|child'] eqn:Hc; [done|].
    intros [= <-] q es'. destruct q as [|x q]; [by eauto|].
    cbn [lookup_node].
    destruct (String.eqb_spec x name) as [->|Hx].
    + rewrite lookup_put_entry, Hn. by apply (IH _ _ _ Hl Hc).
    + rewrite lookup_put_entry_ne by done. eauto.
Qed.

(** The place a walk leads to is the one the path names once cleaned. *)
Lemma step_push cur elem :
  Forall (fun e => e <> ".."%string) cur ->
  rev (step cur elem) = path.push true (rev cur) elem
  /\ Forall (fun e => e <> ".."%string) (step cur elem).
Proof.
  intros Hcur. unfold step, path.push.
  destruct (String.eqb_spec elem "") as [->|H1]; [done|].
  destruct (String.eqb_spec elem ".") as [->|H2]; [done|].
  destruct (String.eqb_spec elem "..") as [->|H3].
  - destruct cur as [|c cur _] using rev_ind; [done|].
    rewrite removelast_last, rev_unit.
    apply Forall_app in Hcur as [Hcur Hc]. apply Forall_cons in Hc as [Hc _].
    by destruct (String.eqb_spec c "..").
  - split; [by rewrite rev_unit|].
    apply Forall_app. split; [done|]. by apply Forall_cons.
Qed.

Lemma walk_resolve r elems : forall cur q,
  Forall (fun e => e <> ".."%string) cur ->
  walk r cur elems = inr q ->
  q = rev (fold_left (path.push true) elems (rev cur)).
Proof.
  induction elems as [|elem elems IH]; intros cur q Hcur; cbn [walk].
  - intros [= <-]. cbn [fold_left]. by rewrite rev_involutive.
  - destruct (lookup_node r cur) as [|[|]]; try done.
    destruct (step_push cur elem Hcur) as [Hpush Hstep].
    intros Hw. rewrite (IH _ _ Hstep Hw). cbn [fold_left].
    by rewrite Hpush.
Qed.

Lemma lookup_path_resolve r p n :
  lookup_path r p = inr n -> lookup_node r (resolve p) = inr n.
Proof.
  unfold lookup_path, resolve. destruct (String.eqb p ""); [done|].
  destruct (walk r [] (path.split p)) as [|q] eqn:Hw; [done|].
  by rewrite (walk_resolve _ _ [] _ (List.Forall_nil _) Hw).
Qed.

Lemma Clean_not_empty s : path.Clean s <> ""%string.
Proof.
  unfold path.Clean. destruct (path.rooted s); [done|].
  by destruct (String.eqb_spec (String.concat "/" (path.elements s)) "").
Qed.

End FileTree.

(** ** Clean paths: the walk goes where the names lead *)

Section CleanPaths.
Import os.

Lemma split_not_nil s : path.split s <> [].
Proof.
  destruct s as [|c s]; [done|]. cbn [path.split].
  destruct (Ascii.eqb c "/"); [done|]. by destruct (path.split s).
Qed.

(** An element between slashes holds no slash: it splits into itself. *)
Lemma split_cons_inv c e :
  path.split (String c e) = [String c e] ->
  Ascii.eqb c "/" = false /\ path.split e = [e].
Proof.
  cbn [path.split]. destruct (Ascii.eqb c "/"); [done|].
  pose proof (split_not_nil e) as Hnil.
  destruct (path.split e) as [|h t]; [done|]. by intros [= -> ->].
Qed.

Lemma split_elements s : Forall (fun e => path.split e = [e]) (path.split s).
Proof.
  induction s as [|c s IH]; cbn [path.split].
  - by apply Forall_cons.
  - destruct (Ascii.eqb c "/") eqn:Hc; [by apply Forall_cons|].
    destruct (path.split s) as [|h t]; [by apply Forall_cons; cbn; rewrite Hc|].
    apply Forall_cons in IH as [Hh Ht]. apply Forall_cons. split; [|done].
    cbn [path.split]. by rewrite Hc, Hh.
Qed.

Lemma split_append e s :
  path.split e = [e] -> path.split (e +:+ "/" +:+ s) = e :: path.split s.
Proof.
  induction e as [|c e IH]; [done|].
  intros [Hc He]%split_cons_inv.
  change (String c e +:+ "/" +:+ s) with (String c (e +:+ "/" +:+ s)).
  cbn [path.split]. by rewrite Hc, (IH He).
Qed.

Lemma split_concat es :
  es <> [] -> Forall (fun e => path.split e = [e]) es ->
  path.split (String.concat "/" es) = es.
Proof.
  induction es as [|e es IH]; [done|]. intros _ [He Hes]%Forall_cons.
  destruct es as [|e' es]; [done|].
  change (String.concat "/" (e :: e' :: es))
    with (e +:+ "/" +:+ String.concat "/" (e' :: es)).
  by rewrite split_append, IH.
Qed.

Lemma concat_not_empty e es :
  e <> ""%string -> String.concat "/" (e :: es) <> ""%string.
Proof.
  intros He. destruct es as [|e' es]; [done|].
  change (String.concat "/" (e :: e' :: es))
    with (e +:+ "/" +:+ String.concat "/" (e' :: es)).
  by destruct e.
Qed.

(** The stack of [path.Clean]: names under a run of [..], which is empty
    in a rooted path. *)
Lemma push_names rooted elem ns ds :
  path.split elem = [elem] ->
  Forall (fun e => path.split e = [e] /\ e <> ""%string /\ e <> "."%string
                   /\ e <> ".."%string) ns ->
  Forall (fun e => e = ".."%string) ds ->
  (rooted = true -> ds = []) ->
  exists ns' ds',
    path.push rooted (ns ++ ds) elem = ns' ++ ds'
    /\ Forall (fun e => path.split e = [e] /\ e <> ""%string /\ e <> "."%string
                        /\ e <> ".."%string) ns'
    /\ Forall (fun e => e = ".."%string) ds'
    /\ (rooted = true -> ds' = []).
Proof.
  intros Helem Hns Hds Hrooted. unfold path.push.
  destruct (String.eqb_spec elem "") as [->|H1]; [by exists ns, ds|].
  destruct (String.eqb_spec elem ".") as [->|H2]; [by exists ns, ds|].
  destruct (String.eqb_spec elem "..") as [->|H3].
  - destruct ns as [|n ns].
    + cbn [app]. destruct ds as [|d ds].
      * destruct rooted; [by exists [], []|].
        exists [], [".."%string]. repeat split; try done. by apply Forall_cons.
      * apply Forall_cons in Hds as [-> Hds]. cbn [String.eqb Ascii.eqb].
        cbv iota.
        exists [], (".." :: ".." :: ds)%string. repeat split; try done.
        -- by repeat constructor.
        -- intros Hr. by specialize (Hrooted Hr).
    + apply Forall_cons in Hns as [(_ & _ & _ & Hn) Hns]. cbn [app].
      destruct (String.eqb_spec n ".."); [done|]. by exists ns, ds.
  - exists (elem :: ns), ds. repeat split; try done. by apply Forall_cons.
Qed.

Lemma fold_push_names rooted elems : forall ns ds,
  Forall (fun e => path.split e = [e]) elems ->
  Forall (fun e => path.split e = [e] /\ e <> ""%string /\ e <> "."%string
                   /\ e <> ".."%string) ns ->
  Forall (fun e => e = ".."%string) ds ->
  (rooted = true -> ds = []) ->
  exists ns' ds',
    fold_left (path.push rooted) elems (ns ++ ds) = ns' ++ ds'
    /\ Forall (fun e => path.split e = [e] /\ e <> ""%string /\ e <> "."%string
                        /\ e <> ".."%string) ns'
    /\ Forall (fun e => e = ".."%string) ds'
    /\ (rooted = true -> ds' = []).
Proof.
  induction elems as [|elem elems IH]; intros ns ds Helems Hns Hds Hr.
  - by exists ns, ds.
  - apply Forall_cons in Helems as [Helem Helems]. cbn [fold_left].
    destruct (push_names rooted elem ns ds Helem Hns Hds Hr)
      as (ns1 & ds1 & -> & Hns1 & Hds1 & Hr1).
    by apply IH.
Qed.

(** The elements of a clean path: empty elements, [.] or [..] only at
    its head, then names. *)
Lemma Clean_split s :
  exists heads names,
    path.split (path.Clean s) = heads ++ names
    /\ Forall (fun e => e = ""%string \/ e = "."%string
                        \/ e = ".."%string) heads
    /\ Forall (fun e => e <> ""%string /\ e <> "."%string
                        /\ e <> ".."%string) names.
Proof.
  destruct (fold_push_names (path.rooted s) (path.split s) [] []
              (split_elements s)) as (ns & ds & Hfold & Hns & Hds & Hr);
    [done..|].
  unfold path.Clean, path.elements. cbn [app] in Hfold. rewrite Hfold.
  rewrite rev_app_distr.
  assert (Hnames : Forall (fun e => e <> ""%string /\ e <> "."%string
                                    /\ e <> ".."%string) (rev ns)).
  { apply Forall_rev. eapply Forall_impl; [done|]. by intros e (?&?&?&?). }
  assert (Hheads : Forall (fun e => e = ""%string \/ e = "."%string
                                    \/ e = ".."%string) (rev ds)).
  { apply Forall_rev. eapply Forall_impl; [done|]. intros e ->. auto. }
  assert (Hsplit : Forall (fun e => path.split e = [e]) (rev ds ++ rev ns)).
  { apply Forall_app. split; apply Forall_rev.
    - eapply Forall_impl; [done|]. by intros e ->.
    - eapply Forall_impl; [done|]. by intros e (?&?&?&?). }
  assert (Hfirst : Forall (fun e => e <> ""%string) (rev ds ++ rev ns)).
  { apply Forall_app. split; apply Forall_rev.
    - eapply Forall_impl; [done|]. by intros e ->.
    - eapply Forall_impl; [done|]. by intros e (?&?&?&?). }
  destruct (rev ds ++ rev ns) as [|e es] eqn:Hes.
  - clear Hes.
    destruct (path.rooted s).
    + exists [""; ""]%string, []. by repeat split; repeat constructor; auto.
    + exists ["."%string], []. by repeat split; repeat constructor; auto.
  - apply Forall_cons in Hfirst as [Hfirst _].
    pose proof (concat_not_empty e es Hfirst) as Hbody.
    rewrite <- Hes in *.
    destruct (path.rooted s) eqn:Hrooted.
    + rewrite (Hr eq_refl) in *. cbn [rev app] in *.
      exists [""%string], (rev ns).
      split; [|split; [by repeat constructor; auto|done]].
      change ("/" +:+ String.concat "/" (rev ns))
        with ("" +:+ "/" +:+ String.concat "/" (rev ns)).
      rewrite split_append by done. rewrite split_concat; [done| |done].
      by rewrite Hes.
    + destruct (String.eqb_spec (String.concat "/" (rev ds ++ rev ns)) "");
        [done|].
      exists (rev ds), (rev ns). split; [|done].
      apply split_concat; [by rewrite Hes|done].
Qed.

(** Along names the walk is the lookup. *)
Lemma walk_names r names : forall cur,
  Forall (fun e => e <> ""%string /\ e <> "."%string
                   /\ e <> ".."%string) names ->
  match walk r cur names with
  | inr q => lookup_node r q
  | inl e => inl e
  end = lookup_node r (cur ++ names)
  /\ forall out, fold_left (path.push true) names out = rev names ++ out.
Proof.
  induction names as [|name names IH]; intros cur Hnames.
  - cbn [walk]. by rewrite app_nil_r.
  - apply Forall_cons in Hnames as [(H1 & H2 & H3) Hnames].
    assert (Hstep : step cur name = cur ++ [name]).
    { unfold step. by rewrite (proj2 (String.eqb_neq _ _) H1),
        (proj2 (String.eqb_neq _ _) H2), (proj2 (String.eqb_neq _ _) H3). }
    assert (Hpush : forall out, path.push true out name = name :: out).
    { intros out. unfold path.push.
      by rewrite (proj2 (String.eqb_neq _ _) H1),
        (proj2 (String.eqb_neq _ _) H2), (proj2 (String.eqb_neq _ _) H3). }
    split.
    + cbn [walk]. rewrite lookup_node_app.
      destruct (lookup_node r cur) as [|[c|es]] eqn:Hcur; [done..|].
      rewrite Hstep. destruct (IH (cur ++ [name]) Hnames) as [-> _].
      by rewrite <- app_assoc, lookup_node_app, Hcur.
    + intros out. cbn [fold_left rev]. rewrite Hpush.
      destruct (IH cur Hnames) as [_ ->]. by rewrite <- app_assoc.
Qed.

(** In a tree whose root is a directory, a clean path names what its
    names lead to. *)
Lemma lookup_path_Clean s es0 :
  lookup_path (Dir es0) (path.Clean s)
  = lookup_node (Dir es0) (resolve (path.Clean s)).
Proof.
  unfold lookup_path, resolve.
  destruct (String.eqb_spec (path.Clean s) "") as [H|_];
    [by apply Clean_not_empty in H|].
  destruct (Clean_split s) as (heads & names & -> & Hheads & Hnames).
  assert (Hgo :
    walk (Dir es0) [] (heads ++ names) = walk (Dir es0) [] names
    /\ fold_left (path.push true) (heads ++ names) []
       = fold_left (path.push true) names []).
  { induction heads as [|h heads IH]; [done|].
    apply Forall_cons in Hheads as [Hh Hheads]. cbn [app walk fold_left].
    cbn [lookup_node].
    by destruct Hh as [->|[->| ->]]; apply IH. }
  destruct Hgo as [-> ->].
  destruct (walk_names (Dir es0) names [] Hnames) as [-> ->].
  by rewrite app_nil_r, rev_involutive.
Qed.


Lemma mkdir_all_dir p n n' :
  mkdir_all n p = inr n' ->
  (exists es, n = Dir es) /\ exists es', n' = Dir es'.
Proof.
  destruct n as [|es]; [by destruct p|]. intros H. split; [by eexists|].
  destruct p as [|name p]; cbn [mkdir_all] in H.
  - injection H as <-. by eexists.
  - destruct (mkdir_all _ p); [done|]. injection H as <-. by eexists.
Qed.

End CleanPaths.

(** ** The key store *)

Section KeyStore.
Import os cryptoutil accountutils Examples.

(** After [k] turns the loop that splits [contents] has copied [k] bytes
    of each half. *)
Lemma split_contents_prefix contents k :
  k <= KeySize -> k + KeySize <= length contents ->
  for_range k 0 (split_contents contents) (zeros, zeros)
  = Return (take k contents ++ replicate (KeySize - k) x00,
            take k (drop KeySize contents) ++ replicate (KeySize - k) x00).
Proof.
  intros Hk Hlen.
  destruct (for_range_invariant
    (fun i vals =>
       vals = (take i contents ++ replicate (KeySize - i) x00,
               take i (drop KeySize contents) ++ replicate (KeySize - i) x00))
    (split_contents contents) k 0 (zeros, zeros)) as (s' & -> & ->);
    [by rewrite !take_0 | | done].
  intros i vals Hi ->.
  unfold split_contents, index, store; simpl fst; simpl snd.
  destruct (lookup_lt_is_Some_2 contents i) as [b Hb]; [lia|].
  destruct (lookup_lt_is_Some_2 contents (i + KeySize)) as [b' Hb']; [lia|].
  rewrite Hb, Hb'; simpl.
  assert (Hlt : forall (l : list byte),
    length (take i l) = i ->
    i < length (take i l ++ replicate (KeySize - i) x00)).
  { intros l Hl. rewrite length_app, Hl, length_replicate. lia. }
  assert (Hti : length (take i contents) = i) by (rewrite length_take; lia).
  assert (Htd : length (take i (drop KeySize contents)) = i).
  { rewrite length_take, length_drop. lia. }
  rewrite !decide_True by auto. simpl.
  eexists; split; [done|]. f_equal.
  - rewrite (take_S_r _ _ b) by done.
    rewrite <- (Nat.add_0_r i) at 1. rewrite <- Hti at 1.
    rewrite insert_app_r. rewrite <- app_assoc. f_equal.
    replace (KeySize - i) with (S (KeySize - S i)) by lia. done.
  - rewrite (take_S_r _ _ b').
    2:{ rewrite lookup_drop. by rewrite Nat.add_comm. }
    rewrite <- (Nat.add_0_r i) at 1. rewrite <- Htd at 1.
    rewrite insert_app_r. rewrite <- app_assoc. f_equal.
    replace (KeySize - i) with (S (KeySize - S i)) by lia. done.
Qed.

(** A file of at least [2*KeySize] bytes is split into its first two runs
    of [KeySize] bytes. *)
Lemma split_contents_ok contents :
  2 * KeySize <= length contents ->
  for_range KeySize 0 (split_contents contents) (zeros, zeros)
  = Return (take KeySize contents, take KeySize (drop KeySize contents)).
Proof.
  intros Hlen. rewrite split_contents_prefix; [|done|lia].
  rewrite Nat.sub_diag. simpl replicate. by rewrite !app_nil_r.
Qed.

(** A shorter file makes the loop index outside it. *)
Lemma split_contents_short contents :
  length contents < 2 * KeySize ->
  exists i,
    for_range KeySize 0 (split_contents contents) (zeros, zeros)
    = Panic (IndexOutOfRange i (length contents)).
Proof.
  intros Hlen.
  destruct (decide (length contents <= KeySize)) as [Hle|Hgt].
  - change KeySize with (S 31) at 1. simpl for_range.
    unfold split_contents at 1, index.
    destruct (contents !! 0) as [b|] eqn:H0; simpl; [|by eexists].
    rewrite (lookup_ge_None_2 contents (KeySize)) by done. simpl. by eexists.
  - set (k := length contents - KeySize).
    exists (k + KeySize).
    replace KeySize with (k + S (KeySize - S k)) at 1
      by (subst k; unfold KeySize in *; lia).
    rewrite for_range_add, split_contents_prefix by (unfold k; lia).
    simpl obind. simpl for_range.
    unfold split_contents at 1, index, store; simpl fst; simpl snd.
    destruct (lookup_lt_is_Some_2 contents k) as [b ->]; [unfold k; lia|].
    simpl. rewrite decide_True.
    2:{ rewrite length_app, length_take, length_replicate. unfold k; lia. }
    simpl. rewrite (lookup_ge_None_2 contents (k + KeySize)) by (unfold k; lia).
    done.
Qed.

(** The other loop lays a generated pair out as public key, then private
    key. *)
Lemma fill_contents_ok (pk sk : key) :
  for_range KeySize 0
    (fill_contents (Some (vec_to_list pk)) (Some (vec_to_list sk)))
    (replicate (KeySize * 2) x00)
  = Return (vec_to_list pk ++ vec_to_list sk).
Proof.
  pose proof (length_vec_to_list pk) as Hpk.
  pose proof (length_vec_to_list sk) as Hsk.
  revert Hpk Hsk. generalize (vec_to_list pk) (vec_to_list sk).
  intros p q Hp Hq. unfold KeySize in *.
  do 32 (destruct p as [|? p]; [done|]). destruct p; [|done].
  do 32 (destruct q as [|? q]; [done|]). destruct q; [|done].
  reflexivity.
Qed.

(** On an existing file the call is the read followed by the loop that
    splits the contents. *)
Lemma GetDevicePushKeyForPath_read filePath create w contents :
  file_at (root w) filePath = Some contents ->
  GetDevicePushKeyForPath filePath create w
  = match for_range KeySize 0 (split_contents contents) (zeros, zeros) with
    | Return (pkVal, skVal) =>
        (Return (Some pkVal, Some skVal, None), log (EvReadFile filePath) w)
    | Panic p => (Panic p, log (EvReadFile filePath) w)
    | Blocked => (Blocked, log (EvReadFile filePath) w)
    end.
Proof.
  unfold file_at. intros Hf.
  unfold GetDevicePushKeyForPath, bind, ReadFile.
  destruct (lookup_path (root w) filePath) as [|[c|]]; try done.
  injection Hf as ->. unfold lift. cbv beta iota. fold zeros.
  change (os_IsNotExist None && create) with false. cbv beta iota.
  change (bool_decide (@None error <> None)) with false. cbv beta iota.
  by destruct (for_range KeySize 0 (split_contents contents) (zeros, zeros))
    as [[??]| |].
Qed.

(** Reading an existing key file of at least [2*KeySize] bytes returns its
    first two runs of [KeySize] bytes, whatever follows them. *)
Lemma GetDevicePushKeyForPath_existing filePath create w contents :
  file_at (root w) filePath = Some contents ->
  2 * KeySize <= length contents ->
  GetDevicePushKeyForPath filePath create w
  = (Return (Some (take KeySize contents),
             Some (take KeySize (drop KeySize contents)), None),
     log (EvReadFile filePath) w).
Proof.
  intros Hf Hlen.
  by rewrite (GetDevicePushKeyForPath_read _ _ _ _ Hf), split_contents_ok.
Qed.

(** Reading an existing key file of fewer bytes panics. *)
Lemma GetDevicePushKeyForPath_truncated filePath create w contents :
  file_at (root w) filePath = Some contents ->
  length contents < 2 * KeySize ->
  exists i,
    GetDevicePushKeyForPath filePath create w
    = (Panic (IndexOutOfRange i (length contents)),
       log (EvReadFile filePath) w).
Proof.
  intros Hf Hlen.
  destruct (split_contents_short contents Hlen) as [i Hi]. exists i.
  by rewrite (GetDevicePushKeyForPath_read _ _ _ _ Hf), Hi.
Qed.

(** C2, at a key file of three bytes: the call does not fail with an
    error, it panics on the index [KeySize], outside the contents, when it
    reads the first byte of the private half. *)
Theorem GetDevicePushKeyForPath_truncated_file_panics :
  GetDevicePushKeyForPath "push.key" false truncated_key_world
  = (Panic (IndexOutOfRange KeySize 3),
     log (EvReadFile "push.key") truncated_key_world).
Proof. reflexivity. Qed.

(** C7: when there is no key file at the path and [createIfMissing] is
    false, the call fails with the key-not-found error; it has made one
    call, the read, and the file tree is as it was. *)
Theorem GetDevicePushKeyForPath_missing_no_create filePath w :
  file_at (root w) filePath = None ->
  exists w',
    GetDevicePushKeyForPath filePath false w
    = (Return (None, None, Some key_not_found), w')
    /\ root w' = root w
    /\ trace w' = trace w ++ [EvReadFile filePath].
Proof.
  unfold file_at. intros Hf. exists (log (EvReadFile filePath) w).
  split; [|done].
  unfold GetDevicePushKeyForPath, bind, ReadFile.
  destruct (lookup_path (root w) filePath) as [e|[c|]]; try done.
  simpl. by rewrite andb_false_r.
Qed.

(** Whenever no file exists at the path and the call with
    [createIfMissing] true returns a pair, the file then at the path holds
    [2*KeySize] bytes, the public key followed by the private key, and a
    call with [createIfMissing] false returns the same pair and leaves the
    file tree as it is. *)
Lemma GetDevicePushKeyForPath_created_is_read filePath w pk sk w1 :
  lookup_path (root w) filePath = inl ENOENT ->
  GetDevicePushKeyForPath filePath true w = (Return (pk, sk, None), w1) ->
  exists pkv skv,
    pk = Some pkv /\ sk = Some skv
    /\ file_at (root w1) filePath = Some (pkv ++ skv)
    /\ length pkv = KeySize /\ length (pkv ++ skv) = 2 * KeySize
    /\ exists w2,
         GetDevicePushKeyForPath filePath false w1
         = (Return (Some pkv, Some skv, None), w2)
         /\ root w2 = root w1.
Proof.
  intros Hmiss Hcall.
  unfold GetDevicePushKeyForPath in Hcall at 1. unfold bind in Hcall.
  unfold ReadFile in Hcall at 1. rewrite Hmiss in Hcall.
  cbv beta iota in Hcall.
  change (os_IsNotExist _ && true) with true in Hcall.
  cbv beta iota in Hcall.
  destruct (MkdirAll (path.Dir filePath) (log (EvReadFile filePath) w))
    as [[[e|]|?|] wm] eqn:Hm; try done.
  unfold GenerateKey in Hcall.
  destruct (entropy wm) as [|[e|[pkv skv]] rest]; try done.
  cbv beta iota in Hcall. unfold lift in Hcall.
  rewrite fill_contents_ok in Hcall. cbv beta iota in Hcall.
  match type of Hcall with context [Create filePath ?w] =>
    destruct (Create filePath w) as [[[e|]|?|] wc] eqn:Hc; try done end.
  unfold WriteFile in Hcall.
  destruct (write_path (root wc) filePath (vec_to_list pkv ++ vec_to_list skv))
    as [e|r'] eqn:Hw; [done|].
  injection Hcall as <- <- <-.
  exists (vec_to_list pkv), (vec_to_list skv).
  assert (Hfile : file_at
            (root (set_root r' (log (EvWriteFile filePath
                     (vec_to_list pkv ++ vec_to_list skv)) wc))) filePath
          = Some (vec_to_list pkv ++ vec_to_list skv)).
  { unfold file_at. simpl. by rewrite (write_path_lookup _ _ _ _ Hw). }
  assert (Hlen : length (vec_to_list pkv ++ vec_to_list skv) = 2 * KeySize).
  { rewrite length_app, !length_vec_to_list. lia. }
  repeat split; try done.
  - apply length_vec_to_list.
  - eexists. split.
    + rewrite (GetDevicePushKeyForPath_existing _ _ _ _ Hfile) by lia.
      rewrite take_app_length' by (by rewrite length_vec_to_list).
      rewrite drop_app_length' by (by rewrite length_vec_to_list).
      rewrite take_ge by (by rewrite length_vec_to_list). done.
    + done.
Qed.

(** The call with [createIfMissing] true does return a pair: when no
    file exists at the path, the directory of the path can be made, the
    generator yields a pair and the file can be created, the file is
    written. *)
Lemma GetDevicePushKeyForPath_creates filePath w r1 r2 pk sk rest :
  lookup_path (root w) filePath = inl ENOENT ->
  mkdir_all (root w) (resolve (path.Dir filePath)) = inr r1 ->
  entropy w = inr (pk, sk) :: rest ->
  write_path r1 filePath [] = inr r2 ->
  exists w1,
    GetDevicePushKeyForPath filePath true w
    = (Return (Some (vec_to_list pk), Some (vec_to_list sk), None), w1).
Proof.
  intros Hmiss Hmk Hent Hcreate.
  destruct (write_path_again _ _ _ (vec_to_list pk ++ vec_to_list sk) _
              Hcreate) as [r3 Hwrite].
  unfold GetDevicePushKeyForPath, bind, ReadFile. rewrite Hmiss.
  cbv beta iota. change (os_IsNotExist _ && true) with true. cbv beta iota.
  unfold MkdirAll.
  destruct (String.eqb_spec (path.Dir filePath) "") as [Hd|_];
    [by apply Clean_not_empty in Hd|].
  cbn [root log]. rewrite Hmk. cbv beta iota.
  unfold GenerateKey. cbn [entropy set_root log]. rewrite Hent.
  cbv beta iota. unfold lift. rewrite fill_contents_ok. cbv beta iota.
  unfold Create, WriteFile.
  cbn [root set_entropy set_root log]. rewrite Hcreate. cbv beta iota.
  cbn [root set_entropy set_root log]. rewrite Hwrite. by eexists.
Qed.

(** C4, as the code has it: when the path does not exist, the directory
    of the path can be made, the generator yields a pair and the file can
    be created at the path as it is written, the call with
    [createIfMissing] true returns that pair and leaves at the path a
    file of [2*KeySize] bytes, the public key followed by the private
    key; a call with [createIfMissing] false then returns the same pair
    and leaves the file tree as it is. *)
Theorem GetDevicePushKeyForPath_create_then_read
  filePath w r1 r2 pk sk rest :
  lookup_path (root w) filePath = inl ENOENT ->
  mkdir_all (root w) (resolve (path.Dir filePath)) = inr r1 ->
  entropy w = inr (pk, sk) :: rest ->
  write_path r1 filePath [] = inr r2 ->
  exists w1,
    GetDevicePushKeyForPath filePath true w
    = (Return (Some (vec_to_list pk), Some (vec_to_list sk), None), w1)
    /\ file_at (root w1) filePath
       = Some (vec_to_list pk ++ vec_to_list sk)
    /\ length (vec_to_list pk ++ vec_to_list sk) = 2 * KeySize
    /\ exists w2,
         GetDevicePushKeyForPath filePath false w1
         = (Return (Some (vec_to_list pk), Some (vec_to_list sk), None), w2)
         /\ root w2 = root w1.
Proof.
  intros Hmiss Hmk Hent Hcreate.
  destruct (GetDevicePushKeyForPath_creates _ _ _ _ _ _ _
              Hmiss Hmk Hent Hcreate) as [w1 Hcall].
  destruct (GetDevicePushKeyForPath_created_is_read _ _ _ _ _ Hmiss Hcall)
    as (pkv & skv & [= <-] & [= <-] & Hfile & _ & Hlen & w2 & Hread & Hroot).
  exists w1. repeat split; try done. by exists w2.
Qed.

End KeyStore.

(** ** The account registry *)

Section RegistryProperties.
Import os accountutils.

Context (Fields : Type).
Context (Unmarshal : list byte -> AccountMetadata Fields * option error).
Context (error_text : error -> string) (no_fields : Fields).

Local Abbreviation GetAccountMetaForName :=
  (accountutils.GetAccountMetaForName Fields Unmarshal).
Local Abbreviation ListAccounts_range :=
  (accountutils.ListAccounts_range Fields Unmarshal error_text no_fields).
Local Abbreviation ListAccounts :=
  (accountutils.ListAccounts Fields Unmarshal error_text no_fields).
Local Abbreviation load := (accountutils.load Fields Unmarshal).
Local Abbreviation record_of :=
  (accountutils.record_of Fields error_text no_fields).

(** Loading metadata only reads: it returns, its result is a function of
    the file tree, and the tree is as before. *)
Lemma GetAccountMetaForName_reads rootDir accountID logger w :
  exists w',
    GetAccountMetaForName rootDir accountID logger w
    = (Return (load (root w) rootDir accountID), w')
    /\ root w' = root w.
Proof.
  unfold accountutils.load, accountutils.GetAccountMetaForName.
  unfold bind, ReadFile, Warn.
  cbn [root fst].
  destruct (lookup_path (root w) _) as [[]|[c|]]; cbn;
    try (destruct (warn_enabled _); eexists; split; reflexivity);
    try (eexists; split; reflexivity).
  destruct (Unmarshal c) as [meta [e|]]; eexists; split; reflexivity.
Qed.

(** A loaded record carries the name of its directory. *)
Lemma record_of_load_AccountID r rootDir name :
  AccountID <$> record_of name (load r rootDir name) = Some name.
Proof.
  unfold accountutils.load, accountutils.GetAccountMetaForName.
  unfold bind, ReadFile, Warn.
  cbn [root fst].
  destruct (lookup_path r _) as [[]|[c|]]; cbn; try done.
  by destruct (Unmarshal c) as [meta [e|]].
Qed.

(** The loop appends one record for each directory among the items, in
    their order, and nothing for the other items. *)
Lemma ListAccounts_range_returns rootDir logger subitems : forall accounts w,
  exists w',
    ListAccounts_range rootDir logger subitems accounts w
    = (Return
         (accounts
            ++ map (fun it => record_of (Name it)
                                (load (root w) rootDir (Name it)))
                 (filter (fun it => IsDir it = true) subitems)),
       w')
    /\ root w' = root w.
Proof.
  induction subitems as [|it rest IH]; intros accounts w.
  - exists w. simpl. by rewrite app_nil_r.
  - cbn [accountutils.ListAccounts_range]. rewrite filter_cons.
    destruct (IsDir it) eqn:Hdir; cbn [negb].
    + rewrite decide_True by done. unfold bind at 1.
      destruct (GetAccountMetaForName_reads rootDir (Name it) logger w)
        as (w1 & -> & Hroot).
      destruct (load (root w) rootDir (Name it)) as [account [e|]] eqn:Hload.
      * destruct (IH (accounts ++
            [Some {| AccountID := Name it; Error := error_text e;
                     other := no_fields |}]) w1) as (w' & -> & Hroot').
        exists w'. rewrite Hroot. split; [|congruence].
        cbn [map]. rewrite Hload. cbn [accountutils.record_of].
        by rewrite <- app_assoc.
      * destruct (IH (accounts ++ [account]) w1) as (w' & -> & Hroot').
        exists w'. rewrite Hroot. split; [|congruence].
        cbn [map]. rewrite Hload. cbn [accountutils.record_of].
        by rewrite <- app_assoc.
    + rewrite decide_False by done. apply IH.
Qed.

Lemma filter_infos es :
  filter (fun it => IsDir it = true)
    (map (fun e : string * node => info_of (fst e) (snd e)) es)
  = map (fun e => info_of (fst e) (snd e))
      (filter (fun e => is_dir_entry e = true) es).
Proof.
  induction es as [|[name n] es IH]; [done|].
  cbn [map]. rewrite !filter_cons. unfold is_dir_entry at 1. cbn [snd fst].
  destruct n; cbn [info_of IsDir].
  - rewrite !decide_False by done. apply IH.
  - rewrite !decide_True by done. cbn [map]. by rewrite IH.
Qed.

(** On an existing directory [ListAccounts] returns, without error, the
    records of the directories among its entries. *)
Lemma ListAccounts_returns rootDir logger w es :
  lookup_path (root w) rootDir = inr (Dir es) ->
  exists w',
    ListAccounts rootDir logger w
    = (Return
         (map (fun e => record_of (fst e) (load (root w) rootDir (fst e)))
            (filter (fun e => is_dir_entry e = true) es),
          None),
       w').
Proof.
  intros Hdir.
  unfold accountutils.ListAccounts, bind, Stat, ReadDir.
  rewrite Hdir. cbv beta iota. cbn [os_IsNotExist root log].
  rewrite Hdir. cbv beta iota.
  match goal with |- context [ListAccounts_range ?r ?l ?s ?a ?w] =>
    destruct (ListAccounts_range_returns r l s a w) as (w' & -> & _) end.
  exists w'. cbn [root app]. rewrite filter_infos, map_map. done.
Qed.

(** C6: when [rootDir] does not exist, [ListAccounts] returns an empty
    sequence and no error. *)
Theorem ListAccounts_missing_root rootDir logger w :
  lookup_path (root w) rootDir = inl ENOENT ->
  ListAccounts rootDir logger w = (Return ([], None), log (EvStat rootDir) w).
Proof.
  intros Hmiss. unfold accountutils.ListAccounts, bind, Stat.
  by rewrite Hmiss.
Qed.

(** C5: on a directory [rootDir], [ListAccounts] returns without error;
    for each subdirectory whose metadata fails to load with an error [e],
    the result holds a record with the text of [e] as [Error] and the name
    of the subdirectory as [AccountID]; for each subdirectory whose
    metadata loads, it holds the loaded record. *)
Theorem ListAccounts_records_failures rootDir logger w es :
  lookup_path (root w) rootDir = inr (Dir es) ->
  exists accounts w',
    ListAccounts rootDir logger w = (Return (accounts, None), w')
    /\ forall name sub, (name, Dir sub) ∈ es ->
       forall logger0 w0 account err w0',
         root w0 = root w ->
         GetAccountMetaForName rootDir name logger0 w0
         = (Return (account, err), w0') ->
         match err with
         | Some e =>
             Some {| AccountID := name; Error := error_text e;
                     other := no_fields |} ∈ accounts
         | None => account ∈ accounts
         end.
Proof.
  intros Hdir.
  destruct (ListAccounts_returns rootDir logger w es Hdir) as (w' & ->).
  eexists _, w'. split; [done|].
  intros name sub Hin logger0 w0 account err w0' Hroot Hload.
  destruct (GetAccountMetaForName_reads rootDir name logger0 w0)
    as (w1 & Heq & _).
  rewrite Heq in Hload. injection Hload as Hres _. rewrite Hroot in Hres.
  assert (Hrec : record_of name (load (root w) rootDir name)
                 ∈ map (fun e => record_of (fst e)
                                   (load (root w) rootDir (fst e)))
                     (filter (fun e => is_dir_entry e = true) es)).
  { apply (list_elem_of_fmap_2
             (fun e => record_of (fst e) (load (root w) rootDir (fst e)))
             _ (name, Dir sub)).
    by apply list_elem_of_filter. }
  rewrite Hres in Hrec. by destruct err.
Qed.

(** C10: the records [ListAccounts] returns are, in order, one for each
    directory among the entries of [rootDir], with its name as
    [AccountID]; an entry that is not a directory has no record. *)
Theorem ListAccounts_skips_files rootDir logger w es :
  lookup_path (root w) rootDir = inr (Dir es) ->
  exists accounts w',
    ListAccounts rootDir logger w = (Return (accounts, None), w')
    /\ map (fmap AccountID) accounts
       = map (fun e => Some (fst e))
           (filter (fun e => is_dir_entry e = true) es).
Proof.
  intros Hdir.
  destruct (ListAccounts_returns rootDir logger w es Hdir) as (w' & ->).
  eexists _, w'. split; [done|].
  rewrite map_map. apply map_ext. intros [name n]. cbn [fst].
  apply record_of_load_AccountID.
Qed.

End RegistryProperties.

(** ** The backend selector *)

Section DatastoreProperties.
Import os accountutils.

Context (DB : Type).
Context (sql_Open : string -> string -> M (option DB * option error)).
Context (db_Exec : DB -> string -> M (option error)).

Local Abbreviation GetRootDatastoreForPath :=
  (accountutils.GetRootDatastoreForPath DB sql_Open db_Exec).

(** C8: on the sentinel [":memory:"], [GetDatastoreDir] returns the
    sentinel and [GetRootDatastoreForPath] returns the map datastore under
    the lock; in both the world after the call is the world before it: no
    call was made to the file system or to the SQL driver. *)
Theorem in_memory_sentinel_touches_nothing logger w :
  GetDatastoreDir InMemoryDir w = (Return (InMemoryDir, None), w)
  /\ GetRootDatastoreForPath InMemoryDir logger w
     = (Return (Some (MutexWrap DB (NewMapDatastore DB)), None), w).
Proof. split; reflexivity. Qed.

(** C9: whenever [GetRootDatastoreForPath] returns without error, what it
    returns is [MutexWrap] of the datastore it selected, the map datastore
    or the SQL datastore over the table [blocks]. *)
Theorem GetRootDatastoreForPath_returns_wrapped dir logger w ds w' :
  GetRootDatastoreForPath dir logger w = (Return (ds, None), w') ->
  exists child,
    ds = Some (MutexWrap DB child)
    /\ (child = NewMapDatastore DB
        \/ exists db, child = SQLDatastore db "blocks").
Proof.
  unfold accountutils.GetRootDatastoreForPath, bind, ret, lift.
  destruct (String.eqb dir InMemoryDir).
  - intros [= <- <-]. eexists. split; [done|]. by left.
  - destruct (sql_Open _ _ w) as [[[db [e|]]|?|] w1]; try done.
    destruct db as [db|]; [|done]. cbn [deref].
    destruct (db_Exec db _ w1) as [[[e|]|?|] w2]; try done.
    intros [= <- <-]. eexists. split; [done|]. right. by exists db.
Qed.

End DatastoreProperties.

(** ** The subscriptions of the pairing driver *)

Section DriverProperties.
Import mini.

Context (Service : Type).
Context (ServiceGetConfiguration
  : M Service (option ServiceGetConfiguration_Reply * option error)).
Context (GroupMetadataList
  : list byte
    -> M Service (option (Stream GroupMetadataEvent) * option error)).
Context (GroupMessageList
  : list byte
    -> M Service (option (Stream GroupMessageEvent) * option error)).
Context (Unmarshal_request
  : list byte -> AccountContactRequestReceived * option error).

Local Abbreviation receiveContactRequest :=
  (mini.receiveContactRequest Service ServiceGetConfiguration
     GroupMetadataList Unmarshal_request).
Local Abbreviation receiveMessage :=
  (mini.receiveMessage Service GroupMessageList).

Lemma receiveContactRequest_loop_passes skipped rest :
  forallb passed_over skipped = true ->
  receiveContactRequest_loop Unmarshal_request (skipped ++ rest)
  = receiveContactRequest_loop Unmarshal_request rest.
Proof.
  induction skipped as [|r skipped IH]; [done|].
  cbn [forallb app]. intros [Hr Hs]%andb_prop.
  cbn [receiveContactRequest_loop]. unfold passed_over in Hr.
  destruct (recv_err r); [done|]. destruct (ctx_err r); [done|].
  cbn [is_EOF orb]. rewrite bool_decide_false by (by intros []).
  destruct (recv_msg r) as [md|]; [|by apply IH].
  destruct (Metadata_ md) as [gm|]; [|done]. cbn [deref obind].
  rewrite Hr. by apply IH.
Qed.

(** Both loops on a [Recv] that reports the end of the stream. *)
Lemma receiveContactRequest_loop_EOF r rest :
  is_EOF (recv_err r) = true ->
  receiveContactRequest_loop Unmarshal_request (r :: rest)
  = Return (None, None).
Proof. intros H. cbn [receiveContactRequest_loop]. by rewrite H. Qed.

Lemma receiveMessage_loop_EOF r rest :
  is_EOF (recv_err r) = true ->
  receiveMessage_loop (r :: rest) = Return (None, None).
Proof. intros H. cbn [receiveMessage_loop]. by rewrite H. Qed.

(** [receiveContactRequest] on a [Recv] after which the context of the
    subscription reports an error: not received, whatever [Recv] gave. *)
Lemma receiveContactRequest_loop_context_error r rest :
  ctx_err r <> None ->
  receiveContactRequest_loop Unmarshal_request (r :: rest)
  = Return (None, None).
Proof.
  intros H. cbn [receiveContactRequest_loop].
  by rewrite (bool_decide_true _ H), orb_true_r.
Qed.

(** [receiveMessage] on a [Recv] that fails with another error than the
    end of the stream: that error. *)
Lemma receiveMessage_loop_error r rest e :
  recv_err r = Some e -> e <> EOF ->
  receiveMessage_loop (r :: rest) = Return (None, Some e).
Proof.
  intros H Hne. cbn [receiveMessage_loop]. rewrite H.
  by destruct e.
Qed.

Lemma receiveContactRequest_subscribed s0 config s1 stream s2 :
  ServiceGetConfiguration s0 = (Return (Some config, None), s1) ->
  GroupMetadataList (AccountGroupPK config) s1
  = (Return (Some stream, None), s2) ->
  receiveContactRequest s0
  = (receiveContactRequest_loop Unmarshal_request stream, s2).
Proof.
  intros Hc Hs. unfold mini.receiveContactRequest, bind, lift.
  rewrite Hc. cbn [deref]. by rewrite Hs.
Qed.

Lemma receiveMessage_subscribed groupInfo group s0 stream s1 :
  Group_ groupInfo = Some group ->
  GroupMessageList (PublicKey group) s0 = (Return (Some stream, None), s1) ->
  receiveMessage (Some groupInfo) s0 = (receiveMessage_loop stream, s1).
Proof.
  intros Hg Hs. unfold mini.receiveMessage, bind, lift.
  cbn [deref]. rewrite Hg. cbn [deref]. by rewrite Hs.
Qed.

(** C1, as the code has it.  On both subscriptions a [Recv] that reports
    the end of the stream, after events passed over, gives the outcome
    "not received", [(nil, nil)].  When the context is cancelled and
    [Recv] fails with the cancellation error, [receiveMessage] returns
    that error; [receiveContactRequest] returns "not received" as soon as
    the context of its subscription reports an error. *)
Theorem stream_end_and_cancellation
  s0 config s1 skipped r rest s2 groupInfo group s3 rm restm s4 :
  ServiceGetConfiguration s0 = (Return (Some config, None), s1) ->
  GroupMetadataList (AccountGroupPK config) s1
  = (Return (Some (skipped ++ r :: rest), None), s2) ->
  forallb passed_over skipped = true ->
  Group_ groupInfo = Some group ->
  GroupMessageList (PublicKey group) s3
  = (Return (Some (rm :: restm), None), s4) ->
  (is_EOF (recv_err r) = true ->
   receiveContactRequest s0 = (Return (None, None), s2))
  /\ (is_EOF (recv_err rm) = true ->
      receiveMessage (Some groupInfo) s3 = (Return (None, None), s4))
  /\ (forall e, recv_err rm = Some e -> e <> EOF ->
      receiveMessage (Some groupInfo) s3 = (Return (None, Some e), s4))
  /\ (ctx_err r <> None ->
      receiveContactRequest s0 = (Return (None, None), s2)).
Proof.
  intros Hc Hsub Hskip Hg Hmsg.
  rewrite (receiveContactRequest_subscribed _ _ _ _ _ Hc Hsub).
  rewrite (receiveMessage_subscribed _ _ _ _ _ Hg Hmsg).
  rewrite (receiveContactRequest_loop_passes _ _ Hskip).
  repeat split.
  - intros H. by rewrite receiveContactRequest_loop_EOF.
  - intros H. by rewrite receiveMessage_loop_EOF.
  - intros e H Hne. by rewrite (receiveMessage_loop_error _ _ e).
  - intros H. by rewrite receiveContactRequest_loop_context_error.
Qed.

End DriverProperties.

(** ** Numerals *)

Lemma rev_reverse {A} (l : list A) : rev l = reverse l.
Proof. unfold reverse. apply rev_alt. Qed.

Lemma last_rev {A} (l : list A) : last (rev l) = head l.
Proof. rewrite rev_reverse. apply last_reverse. Qed.

Lemma head_rev {A} (l : list A) : head (rev l) = last l.
Proof. rewrite rev_reverse. apply head_reverse. Qed.

Section Numerals.
Import base58.
Local Open Scope N_scope.

Variable base : N.
Hypothesis base_ge_2 : 2 <= base.

Local Abbreviation value_le := (base58.value_le base).

Lemma of_digits_acc l acc :
  fold_left (fun acc d => acc * base + d) l acc
  = value_le (rev l) + acc * base ^ N.of_nat (length l).
Proof.
  revert acc. induction l as [|d l IH]; intros acc.
  - simpl. lia.
  - cbn [fold_left rev length]. rewrite IH.
    assert (Hv : forall a b, value_le (a ++ [b])
                 = value_le a + b * base ^ N.of_nat (length a)).
    { clear. induction a as [|x a IHa]; intros b.
      - simpl. lia.
      - cbn [app value_le length]. rewrite IHa, Nat2N.inj_succ, N.pow_succ_r'.
        lia. }
    rewrite Hv, length_rev, Nat2N.inj_succ, N.pow_succ_r'. lia.
Qed.

Lemma of_digits_value l : of_digits base l = value_le (rev l).
Proof. unfold of_digits. rewrite of_digits_acc. lia. Qed.

Lemma enough_div count n :
  n <> 0 -> enough (S count) n -> enough count (n / base).
Proof.
  intros Hn [->|Hlog]; [done|].
  destruct (N.eq_dec (n / base) 0) as [Hq|Hq]; [by left|right].
  assert (Hpos : 0 < n / base) by (by apply N.neq_0_lt_0).
  apply (proj1 (N.log2_lt_pow2 (n / base) _ Hpos)).
  assert (Hlt : n < 2 ^ N.of_nat (S count)).
  { by apply (proj2 (N.log2_lt_pow2 n _ ltac:(lia))). }
  rewrite Nat2N.inj_succ, N.pow_succ_r' in Hlt.
  assert (Hdiv : base * (n / base) <= n) by (apply N.Div0.mul_div_le).
  assert (2 * (n / base) <= base * (n / base))
    by (apply N.mul_le_mono_r; lia).
  lia.
Qed.

(** Writing a number and reading the numeral gives the number. *)
Lemma value_to_digits_le count : forall n,
  enough count n -> value_le (to_digits_le base count n) = n.
Proof.
  induction count as [|count IH]; intros n Hn.
  - destruct Hn as [->|Hn]; [done|]. simpl in Hn. lia.
  - cbn [to_digits_le]. destruct (N.eqb_spec n 0) as [->|Hn0]; [done|].
    cbn [value_le]. rewrite IH by (by apply enough_div).
    rewrite (N.div_mod n base) at 3 by lia. lia.
Qed.

Lemma to_digits_le_bounded count : forall n,
  Forall (fun d => d < base) (to_digits_le base count n).
Proof.
  induction count as [|count IH]; intros n; cbn [to_digits_le]; [done|].
  destruct (n =? 0); [done|]. constructor; [|apply IH].
  apply N.mod_lt. lia.
Qed.

(** The numeral written has no zero as its highest digit. *)
Lemma to_digits_le_last count : forall n,
  enough count n -> last (to_digits_le base count n) <> Some 0.
Proof.
  induction count as [|count IH]; intros n Hn; [done|].
  cbn [to_digits_le]. destruct (N.eqb_spec n 0) as [->|Hn0]; [done|].
  pose proof (IH (n / base) (enough_div _ _ Hn0 Hn)) as Hlast.
  destruct (to_digits_le base count (n / base)) as [|d ds] eqn:Hds.
  - cbn [last]. intros [= Hmod].
    pose proof (value_to_digits_le count (n / base) (enough_div _ _ Hn0 Hn))
      as Hv.
    rewrite Hds in Hv. simpl in Hv.
    pose proof (N.div_mod n base ltac:(lia)). lia.
  - by rewrite last_cons_cons.
Qed.

Lemma value_le_nonzero l :
  l <> [] -> last l <> Some 0 -> value_le l <> 0.
Proof.
  induction l as [|d l IH]; [done|]. intros _ Hlast. cbn [value_le].
  destruct l as [|d' l].
  - simpl in *. intros H. apply Hlast. f_equal. lia.
  - rewrite last_cons_cons in Hlast.
    specialize (IH ltac:(done) Hlast). nia.
Qed.

(** Reading a numeral without a zero as its highest digit and writing the
    number gives the numeral. *)
Lemma to_digits_le_value l : forall count,
  Forall (fun d => d < base) l -> last l <> Some 0 ->
  enough count (value_le l) ->
  to_digits_le base count (value_le l) = l.
Proof.
  induction l as [|d l IH]; intros count Hb Hlast Hen.
  - by destruct count.
  - inversion Hb as [|? ? Hd Hb']; subst.
    assert (Hnz : value_le (d :: l) <> 0) by (by apply value_le_nonzero).
    destruct count as [|count].
    { destruct Hen as [?|Hen]; [done|]. simpl in Hen. lia. }
    cbn [to_digits_le]. destruct (N.eqb_spec (value_le (d :: l)) 0); [done|].
    assert (Hdiv : value_le (d :: l) / base = value_le l).
    { cbn [value_le]. symmetry. apply (N.div_unique _ _ _ d); lia. }
    assert (Hmod : value_le (d :: l) mod base = d).
    { cbn [value_le]. symmetry. apply (N.mod_unique _ _ (value_le l)); lia. }
    pose proof (enough_div _ _ Hnz Hen) as Hen'.
    rewrite Hdiv in Hen'. rewrite Hmod, Hdiv. f_equal.
    apply IH; [done| |done].
    destruct l; [done|]. by rewrite last_cons_cons in Hlast.
Qed.

Lemma enough_log2 n : enough (S (N.to_nat (N.log2 n))) n.
Proof. right. lia. Qed.

Lemma of_to_digits n : of_digits base (to_digits base n) = n.
Proof.
  unfold to_digits. rewrite of_digits_value, rev_involutive.
  apply value_to_digits_le, enough_log2.
Qed.

Lemma to_of_digits l :
  Forall (fun d => d < base) l -> head l <> Some 0 ->
  to_digits base (of_digits base l) = l.
Proof.
  intros Hb Hh. unfold to_digits. rewrite of_digits_value.
  rewrite to_digits_le_value.
  - apply rev_involutive.
  - by apply Forall_rev.
  - by rewrite last_rev.
  - apply enough_log2.
Qed.

Lemma to_digits_bounded n : Forall (fun d => d < base) (to_digits base n).
Proof. unfold to_digits. apply Forall_rev, to_digits_le_bounded. Qed.

Lemma to_digits_head n : head (to_digits base n) <> Some 0.
Proof.
  unfold to_digits. rewrite head_rev. apply to_digits_le_last, enough_log2.
Qed.

(** Leading zeros: counted, and without weight. *)
Lemma zcount_zeros z l :
  head l <> Some 0 -> zcount (replicate z 0 ++ l) = z.
Proof.
  intros Hh. induction z as [|z IH]; simpl.
  - destruct l as [|d l]; [done|]. simpl.
    destruct (N.eqb_spec d 0) as [->|]; done.
  - by rewrite IH.
Qed.

Lemma zcount_split l :
  exists tl, l = replicate (zcount l) 0 ++ tl /\ head tl <> Some 0.
Proof.
  induction l as [|d l (tl & Hl & Hh)]; [by exists []|].
  cbn [zcount]. destruct (N.eqb_spec d 0) as [->|Hd].
  - exists tl. split; [|done]. cbn [replicate app]. by rewrite <- Hl.
  - exists (d :: l). split; [done|]. simpl. congruence.
Qed.

Lemma of_digits_zeros z l :
  of_digits base (replicate z 0 ++ l) = of_digits base l.
Proof.
  induction z as [|z IH]; [done|]. unfold of_digits in *.
  cbn [replicate app fold_left]. by replace (0 * base + 0) with 0 by lia.
Qed.

(** A numeral with its leading zeros kept apart is recovered from their
    count and its number. *)
Lemma zeros_and_digits l :
  Forall (fun d => d < base) l ->
  replicate (zcount l) 0 ++ to_digits base (of_digits base l) = l.
Proof.
  intros Hb. destruct (zcount_split l) as (tl & Hl & Hh).
  rewrite Hl at 2.
  rewrite of_digits_zeros, to_of_digits; [by rewrite <- Hl| |done].
  rewrite Hl in Hb. by apply Forall_app in Hb as [_ ?].
Qed.

End Numerals.

(** ** The contact token *)

Section Base58.
Import base58.
Local Open Scope N_scope.

Lemma decode_encode_digit d :
  d < 58 -> decode_digit (encode_digit d) = Some d.
Proof.
  intros Hd. rewrite <- (N2Nat.id d).
  assert (Hn : (N.to_nat d < 58)%nat) by lia.
  revert Hn. generalize (N.to_nat d). intros n Hn.
  do 58 (destruct n as [|n]; [reflexivity|]). lia.
Qed.

Lemma decode_digits_encode ds :
  Forall (fun d => d < 58) ds ->
  decode_digits (map encode_digit ds) = Some ds.
Proof.
  induction 1 as [|d ds Hd _ IH]; [done|].
  cbn [map decode_digits]. by rewrite decode_encode_digit, IH.
Qed.

Lemma byte_of_to_N b : proto.byte_of_N (Byte.to_N b) = b.
Proof.
  unfold proto.byte_of_N. pose proof (Byte.to_N_bounded b).
  rewrite N.mod_small by lia. by rewrite Byte.of_to_N.
Qed.

Lemma bytes_bounded bin : Forall (fun d => d < 256) (map Byte.to_N bin).
Proof.
  apply Forall_map, Forall_forall. intros b _. cbn.
  pose proof (Byte.to_N_bounded b). lia.
Qed.

(** The digits of an encoding give back the bytes. *)
Lemma decode_digits_Encode bin :
  match decode_digits (list_ascii_of_string (Encode bin)) with
  | None => ([], Some (LibError "invalid base58 digit"))
  | Some digits58 =>
      (map proto.byte_of_N
         (replicate (zcount digits58) 0
            ++ to_digits 256 (of_digits 58 digits58)),
       None)
  end = (bin, None).
Proof.
  unfold Encode.
  rewrite list_ascii_of_string_of_list_ascii, decode_digits_encode.
  2:{ apply Forall_app. split.
      - apply Forall_replicate. lia.
      - apply to_digits_bounded. lia. }
  rewrite zcount_zeros by (apply to_digits_head; lia).
  rewrite of_digits_zeros, of_to_digits by lia.
  rewrite zeros_and_digits by (lia || apply bytes_bounded).
  f_equal. rewrite map_map. rewrite <- (map_id bin) at 2.
  apply map_ext. intros b. apply byte_of_to_N.
Qed.

(** Decoding the encoding of bytes gives back the bytes, when there are
    any: the encoding of no byte is the empty string, which [Decode]
    refuses. *)
Lemma base58_Decode_Encode bin :
  bin <> [] -> Decode (Encode bin) = (bin, None).
Proof.
  intros Hne. pose proof (decode_digits_Encode bin) as Hcore.
  unfold Decode.
  destruct (String.eqb_spec (Encode bin) "") as [He|_]; [|done].
  rewrite He in Hcore.
  change (([] : list byte, @None error) = (bin, None)) in Hcore.
  by injection Hcore as <-.
Qed.

End Base58.

Section Varint.
Import proto.
Local Open Scope N_scope.

Lemma uint64_small n : n < 2 ^ 64 -> uint64 n = n.
Proof. intros. unfold uint64. by apply N.mod_small. Qed.

Lemma lor_lt_pow2 a b n : a < 2 ^ n -> b < 2 ^ n -> N.lor a b < 2 ^ n.
Proof.
  intros Ha Hb.
  destruct (N.eq_dec a 0) as [->|Ha0]; [by rewrite N.lor_0_l|].
  destruct (N.eq_dec b 0) as [->|Hb0]; [by rewrite N.lor_0_r|].
  assert (N.lor a b <> 0) by (intros [? ?]%N.lor_eq_0_iff; done).
  apply N.log2_lt_pow2; [lia|]. rewrite N.log2_lor.
  apply N.max_lub_lt; apply N.log2_lt_pow2; lia.
Qed.

(** A number is its low seven bits and the rest. *)
Lemma low7_and_rest v :
  N.lor (N.land v 127) (N.shiftl (N.shiftr v 7) 7) = v.
Proof.
  apply N.bits_inj. intros m.
  rewrite N.lor_spec, N.land_spec. change 127 with (N.ones 7).
  destruct (N.lt_ge_cases m 7) as [Hm|Hm].
  - rewrite N.ones_spec_low, N.shiftl_spec_low by done.
    by rewrite andb_true_r, orb_false_r.
  - rewrite N.ones_spec_high, N.shiftl_spec_high', N.shiftr_spec' by done.
    rewrite andb_false_r, orb_false_l. f_equal. lia.
Qed.

Lemma low7_byte v :
  Byte.to_N (byte_of_N (N.lor (N.land v 127) 128))
  = N.lor (N.land v 127) 128.
Proof.
  unfold byte_of_N.
  assert (Hlt : N.lor (N.land v 127) 128 < 256).
  { apply (lor_lt_pow2 _ _ 8); [|done].
    change 127 with (N.ones 7). rewrite N.land_ones.
    pose proof (N.mod_lt v (2 ^ 7) ltac:(done)).
    change (2 ^ 7) with 128 in *. change (2 ^ 8) with 256. lia. }
  rewrite N.mod_small by done.
  destruct (Byte.of_N _) as [b|] eqn:Hb.
  - by apply Byte.to_of_N.
  - apply Byte.of_N_None_iff in Hb. lia.
Qed.

Lemma small_byte v : v < 128 -> Byte.to_N (byte_of_N v) = v.
Proof.
  intros Hv. unfold byte_of_N. rewrite N.mod_small by lia.
  destruct (Byte.of_N v) as [b|] eqn:Hb.
  - by apply Byte.to_of_N.
  - apply Byte.of_N_None_iff in Hb. lia.
Qed.

Lemma continuation_bits v :
  N.land (N.lor (N.land v 127) 128) 127 = N.land v 127
  /\ 128 <= N.lor (N.land v 127) 128.
Proof.
  split.
  - apply N.bits_inj. intros m.
    rewrite !N.land_spec, N.lor_spec, N.land_spec.
    change 127 with (N.ones 7). change 128 with (2 ^ 7).
    destruct (N.lt_ge_cases m 7) as [Hm|Hm].
    + rewrite N.ones_spec_low, N.pow2_bits_false by lia.
      by rewrite orb_false_r, !andb_true_r.
    + rewrite N.ones_spec_high by done. by rewrite !andb_false_r.
  - assert (Hbit : N.testbit (N.lor (N.land v 127) 128) 7 = true).
    { rewrite N.lor_spec. change 128 with (2 ^ 7).
      by rewrite N.pow2_bits_true, orb_true_r. }
    destruct (N.lt_ge_cases (N.lor (N.land v 127) 128) 128) as [Hlt|]; [|done].
    change 128 with (2 ^ 7) in Hlt at 2.
    destruct (N.eq_dec (N.lor (N.land v 127) 128) 0) as [H0|H0].
    { rewrite H0 in Hbit. by rewrite N.bits_0 in Hbit. }
    apply N.log2_lt_pow2 in Hlt; [|lia].
    rewrite N.bits_above_log2 in Hbit by done. done.
Qed.

(** A varint written is the varint read, from any position [shift] at
    which the number still fits 64 bits. *)
Lemma decodeVarint_from_encode count : forall v shift acc rest,
  shift < 64 -> acc < 2 ^ 64 -> v < 2 ^ (64 - shift) ->
  v < 2 ^ (7 * N.of_nat count) -> (0 < count)%nat ->
  decodeVarint_from shift acc (encodeVarint_from count v ++ rest)
  = inr (N.lor acc (N.shiftl v shift), rest).
Proof.
  induction count as [|count IH]; intros v shift acc rest Hs Hacc Hv Hc Hpos;
    [lia|].
  assert (Hshl : N.shiftl v shift < 2 ^ 64).
  { rewrite N.shiftl_mul_pow2.
    replace 64 with ((64 - shift) + shift) at 1 by lia.
    rewrite N.pow_add_r. apply N.mul_lt_mono_pos_r; [|done].
    apply N.neq_0_lt_0, N.pow_nonzero. done. }
  cbn [encodeVarint_from]. destruct (N.ltb_spec v 128) as [Hsmall|Hbig].
  - cbn [app decodeVarint_from].
    destruct (N.leb_spec 64 shift); [lia|].
    rewrite small_byte by done.
    destruct (N.ltb_spec v 128); [|lia].
    change 127 with (N.ones 7). rewrite N.land_ones.
    rewrite (N.mod_small v) by done.
    rewrite uint64_small; [done|]. by apply lor_lt_pow2.
  - cbn [app decodeVarint_from].
    destruct (N.leb_spec 64 shift); [lia|].
    rewrite low7_byte.
    destruct (continuation_bits v) as [Hlow Hge]. rewrite Hlow.
    destruct (N.ltb_spec (N.lor (N.land v 127) 128) 128); [lia|].
    assert (Hshift : shift + 7 < 64).
    { destruct (N.lt_ge_cases (shift + 7) 64) as [|Hge64]; [done|].
      assert (2 ^ (64 - shift) <= 2 ^ 7)
        by (apply N.pow_le_mono_r; lia).
      change (2 ^ 7) with 128 in *. lia. }
    assert (Hlow_shl : N.shiftl (N.land v 127) shift < 2 ^ 64).
    { eapply N.le_lt_trans; [|exact Hshl].
      rewrite !N.shiftl_mul_pow2. apply N.mul_le_mono_r.
      change 127 with (N.ones 7). rewrite N.land_ones.
      apply N.Div0.mod_le. }
    rewrite uint64_small by (by apply lor_lt_pow2).
    assert (Hcount : (0 < count)%nat).
    { destruct count; [|lia]. change (2 ^ (7 * N.of_nat 1)) with 128 in Hc.
      lia. }
    rewrite IH; try done.
    + f_equal. f_equal. rewrite <- N.lor_assoc. f_equal.
      rewrite <- (low7_and_rest v) at 3.
      by rewrite N.shiftl_lor, N.shiftl_shiftl, (N.add_comm 7 shift).
    + by apply lor_lt_pow2.
    + rewrite N.shiftr_div_pow2. apply N.Div0.div_lt_upper_bound.
      rewrite <- N.pow_add_r. by replace (7 + (64 - (shift + 7)))
        with (64 - shift) by lia.
    + rewrite N.shiftr_div_pow2. apply N.Div0.div_lt_upper_bound.
      rewrite <- N.pow_add_r.
      by replace (7 + 7 * N.of_nat count) with (7 * N.of_nat (S count))
        by lia.
Qed.

Lemma decodeVarint_encode v rest :
  v < 2 ^ 64 -> decodeVarint (encodeVarint v ++ rest) = inr (v, rest).
Proof.
  intros Hv. unfold decodeVarint, encodeVarint. rewrite uint64_small by done.
  rewrite decodeVarint_from_encode; try done.
  - by rewrite N.lor_0_l, N.shiftl_0_r.
  - eapply N.lt_trans; [exact Hv|]. done.
  - lia.
Qed.

End Varint.

Section Wire.
Import protocoltypes proto.
Local Open Scope N_scope.

Lemma read_bytes_written v rest :
  slice_len_ok v ->
  read_bytes (encodeVarint (N.of_nat (length v)) ++ v ++ rest)
  = inr (v, rest).
Proof.
  unfold slice_len_ok. intros Hv. unfold read_bytes.
  rewrite decodeVarint_encode
    by (eapply N.lt_trans; [exact Hv|done]).
  unfold is_negative_int. destruct (N.leb_spec (2 ^ 63) (N.of_nat (length v)));
    [lia|].
  destruct (N.ltb_spec (N.of_nat (length (v ++ rest))) (N.of_nat (length v)))
    as [Hlt|_].
  { rewrite length_app in Hlt. lia. }
  rewrite Nat2N.id. by rewrite take_app_length, drop_app_length.
Qed.

(** One written field of type [bytes] is read into the message. *)
Lemma Unmarshal_from_field fuel tag set v rest m :
  (tag, set) = (x0a, set_PK)
  \/ (tag, set) = (x12, set_PublicRendezvousSeed)
  \/ (tag, set) = (x1a, set_Metadata) ->
  slice_len_ok v ->
  Unmarshal_from (S fuel)
    (tag :: encodeVarint (N.of_nat (length v)) ++ v ++ rest) m
  = Unmarshal_from fuel rest (set v m).
Proof.
  intros Hcase Hv.
  destruct Hcase as [[= -> ->]|[[= -> ->]|[= -> ->]]];
    cbn [Unmarshal_from];
    match goal with |- context [decodeVarint (?b :: ?d)] =>
      change (decodeVarint (b :: d)) with (@inr error _ (Byte.to_N b, d))
    end; cbv beta iota;
    match goal with |- context [int32 ?n] =>
      let z := eval vm_compute in (int32 n) in change (int32 n) with z
    end;
    match goal with |- context [N.land ?n 7] =>
      let z := eval vm_compute in (N.land n 7) in change (N.land n 7) with z
    end;
    cbn [N.eqb Pos.eqb Z.leb Z.eqb Z.compare Pos.compare Pos.compare_cont negb];
    by rewrite read_bytes_written.
Qed.

(** The field written from [v], followed by [rest], is read into the
    message and the loop goes on with [rest]. *)
Lemma Unmarshal_from_bytes_field num tag set v rest m res fuel :
  (num, tag, set) = (1, x0a, set_PK)
  \/ (num, tag, set) = (2, x12, set_PublicRendezvousSeed)
  \/ (num, tag, set) = (3, x1a, set_Metadata) ->
  slice_len_ok v ->
  (forall fuel', (length rest <= fuel')%nat ->
     Unmarshal_from fuel' rest (read_into set v m) = res) ->
  (length (bytes_field num v ++ rest) <= fuel)%nat ->
  Unmarshal_from fuel (bytes_field num v ++ rest) m = res.
Proof.
  intros Hcase Hv Hrest Hfuel. destruct v as [|b v]; [by apply Hrest|].
  assert (Hfield : bytes_field num (b :: v)
          = tag :: encodeVarint (N.of_nat (length (b :: v))) ++ b :: v)
    by (by destruct Hcase as [[= -> -> _]|[[= -> -> _]|[= -> -> _]]]).
  rewrite Hfield in *. rewrite <- !app_comm_cons, <- !app_assoc in *.
  destruct fuel as [|fuel]; [simpl in Hfuel; lia|].
  rewrite (Unmarshal_from_field fuel tag set).
  - apply Hrest. cbn [length] in Hfuel. rewrite !length_app in Hfuel. lia.
  - destruct Hcase as [[= _ -> ->]|[[= _ -> ->]|[= _ -> ->]]]; auto.
  - done.
Qed.

(** With enough turns, the fields written from a message are read back
    into it. *)
Lemma Unmarshal_from_fields fuel pk seed md :
  slice_len_ok pk -> slice_len_ok seed -> slice_len_ok md ->
  (length (bytes_field 1 pk ++ bytes_field 2 seed ++ bytes_field 3 md)
   <= fuel)%nat ->
  Unmarshal_from fuel
    (bytes_field 1 pk ++ bytes_field 2 seed ++ bytes_field 3 md)
    {| PK := []; PublicRendezvousSeed := []; Metadata := [] |}
  = ({| PK := pk; PublicRendezvousSeed := seed; Metadata := md |}, None).
Proof.
  intros Hpk Hseed Hmd.
  apply (Unmarshal_from_bytes_field 1 x0a set_PK); [auto|done|].
  intros fuel1.
  apply (Unmarshal_from_bytes_field 2 x12 set_PublicRendezvousSeed);
    [auto|done|].
  intros fuel2. rewrite <- (app_nil_r (bytes_field 3 md)).
  apply (Unmarshal_from_bytes_field 3 x1a set_Metadata); [auto|done|].
  intros fuel3 _. by destruct fuel3, pk, seed, md.
Qed.

(** Unmarshalling what [Marshal] wrote gives the message back. *)
Lemma Unmarshal_Marshal m :
  slice_len_ok (PK m) -> slice_len_ok (PublicRendezvousSeed m) ->
  slice_len_ok (Metadata m) ->
  Unmarshal (fst (Marshal m)) = (m, None) /\ snd (Marshal m) = None.
Proof.
  intros Hpk Hseed Hmd. split; [|done].
  unfold Unmarshal, Marshal. cbn [fst].
  rewrite Unmarshal_from_fields by done. by destruct m.
Qed.

End Wire.

Section Token.
Import protocoltypes proto mini.

(** What [shareContact] returns without error is the serialization of a
    contact with no metadata, and no error of [proto.Marshal]. *)
Lemma shareContact_marshals (Service : Type)
  (ServiceGetConfiguration
    : M Service (option ServiceGetConfiguration_Reply * option error))
  (ContactRequestReference
    : M Service (option ContactRequestReference_Reply * option error))
  (ContactRequestResetReference ContactRequestEnable
    : M Service (option error)) s binaryContact s' :
  shareContact Service ServiceGetConfiguration ContactRequestReference
    ContactRequestResetReference ContactRequestEnable s
  = (Return (binaryContact, None), s') ->
  exists pk seed,
    proto.Marshal {| PK := pk; PublicRendezvousSeed := seed; Metadata := [] |}
    = (binaryContact, None).
Proof.
  unfold shareContact, bind, ret, lift.
  destruct (ContactRequestReference s) as [[[ref [e|]]|?|] s1]; try done.
  destruct ref as [ref|]; [|done]. cbn [deref].
  destruct (_ || _).
  - destruct (ContactRequestResetReference s1) as [[[e|]|?|] s2]; try done.
    destruct (ContactRequestEnable s2) as [[[e|]|?|] s3]; try done.
    destruct (ContactRequestReference s3) as [[[ref' [e|]]|?|] s4]; try done.
    destruct (ServiceGetConfiguration s4) as [[[cfg [e|]]|?|] s5]; try done.
    destruct cfg as [cfg|]; [|done]. destruct ref' as [ref'|]; [|done].
    cbn [deref]. intros [= <- _]. by eexists _, _.
  - destruct (ServiceGetConfiguration s1) as [[[cfg [e|]]|?|] s5]; try done.
    destruct cfg as [cfg|]; [|done]. cbn [deref].
    intros [= <- _]. by eexists _, _.
Qed.

(** A contact that holds a byte is serialized to bytes. *)
Lemma bytes_field_not_empty num v : v <> [] -> bytes_field num v <> [].
Proof.
  destruct v as [|b v]; [done|]. intros _ H. unfold bytes_field in H.
  apply app_eq_nil in H as [_ H]. by apply app_eq_nil in H as [_ H].
Qed.

Lemma Marshal_not_empty contact :
  PK contact <> [] \/ PublicRendezvousSeed contact <> []
  \/ Metadata contact <> [] ->
  fst (Marshal contact) <> [].
Proof.
  unfold Marshal. cbn [fst]. intros Hne H.
  apply app_eq_nil in H as [H1 H]. apply app_eq_nil in H as [H2 H3].
  destruct Hne as [Hne|[Hne|Hne]];
    by eapply bytes_field_not_empty in Hne.
Qed.


End Token.

(** * More of the code: behaviour at the edges *)

(** ** The key store: reads, blocked paths, failed generation *)

Section KeyStoreBehaviour.
Import os cryptoutil accountutils.

(** The loop that splits a file shorter than [2*KeySize] stops at the
    first index it reads outside the file. *)
Lemma split_contents_short_at contents :
  length contents < 2 * KeySize ->
  for_range KeySize 0 (split_contents contents) (zeros, zeros)
  = Panic (IndexOutOfRange
             (Nat.max (length contents)
                (if decide (length contents = 0) then 0 else KeySize))
             (length contents)).
Proof.
  intros Hlen.
  destruct (decide (length contents <= KeySize)) as [Hle|Hgt].
  - change KeySize with (S 31) at 1. simpl for_range.
    unfold split_contents at 1, index.
    destruct (contents !! 0) as [b|] eqn:H0; simpl.
    + apply lookup_lt_Some in H0.
      rewrite (lookup_ge_None_2 contents KeySize) by done. simpl.
      rewrite decide_False by lia. do 2 f_equal. lia.
    + apply lookup_ge_None in H0.
      rewrite decide_True by lia. do 2 f_equal. lia.
  - set (k := length contents - KeySize).
    replace KeySize with (k + S (KeySize - S k)) at 1
      by (subst k; unfold KeySize in *; lia).
    rewrite for_range_add, split_contents_prefix by (unfold k; lia).
    simpl obind. simpl for_range.
    unfold split_contents at 1, index, store; simpl fst; simpl snd.
    destruct (lookup_lt_is_Some_2 contents k) as [b ->]; [unfold k; lia|].
    simpl. rewrite decide_True.
    2:{ rewrite length_app, length_take, length_replicate. unfold k; lia. }
    simpl. rewrite (lookup_ge_None_2 contents (k + KeySize)) by (unfold k; lia).
    simpl. rewrite decide_False by lia. do 2 f_equal. unfold k. lia.
Qed.

(** X1: an existing key file of at least [2*KeySize] bytes is returned as
    its first [KeySize] bytes and the [KeySize] bytes after them, whatever
    follows and whatever [createIfMissing] is; the call makes one call,
    the read: the file tree and the key generator are as before. *)
Theorem existing_key_file_is_only_read filePath createIfMissing w contents :
  file_at (root w) filePath = Some contents ->
  2 * KeySize <= length contents ->
  exists w',
    GetDevicePushKeyForPath filePath createIfMissing w
    = (Return (Some (take KeySize contents),
               Some (take KeySize (drop KeySize contents)), None), w')
    /\ root w' = root w
    /\ entropy w' = entropy w
    /\ trace w' = trace w ++ [EvReadFile filePath].
Proof.
  intros Hf Hlen. exists (log (EvReadFile filePath) w).
  split; [by apply GetDevicePushKeyForPath_existing|done].
Qed.

(** X3: an existing key file of fewer than [2*KeySize] bytes makes the
    call panic, whatever [createIfMissing] is, on the first index read
    outside the file: 0 in an empty file, [KeySize] in a file of at most
    [KeySize] bytes, the length of the file in a longer one. *)
Theorem short_key_file_panics filePath createIfMissing w contents :
  file_at (root w) filePath = Some contents ->
  length contents < 2 * KeySize ->
  GetDevicePushKeyForPath filePath createIfMissing w
  = (Panic (IndexOutOfRange
              (Nat.max (length contents)
                 (if decide (length contents = 0) then 0 else KeySize))
              (length contents)),
     log (EvReadFile filePath) w).
Proof.
  intros Hf Hlen.
  by rewrite (GetDevicePushKeyForPath_read _ _ _ _ Hf),
    split_contents_short_at.
Qed.

(** Without [createIfMissing] the call is the read and a function of the
    file tree. *)
Lemma GetDevicePushKeyForPath_no_create_frame filePath w :
  snd (GetDevicePushKeyForPath filePath false w) = log (EvReadFile filePath) w
  /\ forall w0, root w0 = root w ->
       fst (GetDevicePushKeyForPath filePath false w0)
       = fst (GetDevicePushKeyForPath filePath false w).
Proof.
  split.
  - unfold GetDevicePushKeyForPath, bind, ReadFile.
    destruct (lookup_path (root w) filePath) as [e|[c|]]; cbv beta iota.
    + by rewrite andb_false_r.
    + change (os_IsNotExist None && false) with false. cbv beta iota.
      change (bool_decide (@None error <> None)) with false. cbv beta iota.
      unfold lift.
      by destruct (for_range KeySize 0 (split_contents c) (zeros, zeros))
        as [[??]| |].
    + done.
  - intros w0 Hroot. unfold GetDevicePushKeyForPath, bind, ReadFile.
    rewrite Hroot.
    destruct (lookup_path (root w) filePath) as [e|[c|]]; cbv beta iota.
    + by rewrite andb_false_r.
    + change (os_IsNotExist None && false) with false. cbv beta iota.
      change (bool_decide (@None error <> None)) with false. cbv beta iota.
      unfold lift.
      by destruct (for_range KeySize 0 (split_contents c) (zeros, zeros))
        as [[??]| |].
    + done.
Qed.

(** X2: without [createIfMissing] the call never writes and never
    generates a key, whatever its outcome (a pair, an error or a panic):
    it makes one call, the read, and a second call has the outcome of the
    first. *)
Theorem read_without_create_is_repeatable filePath w o w' :
  GetDevicePushKeyForPath filePath false w = (o, w') ->
  root w' = root w
  /\ entropy w' = entropy w
  /\ trace w' = trace w ++ [EvReadFile filePath]
  /\ fst (GetDevicePushKeyForPath filePath false w') = o.
Proof.
  intros Hcall.
  destruct (GetDevicePushKeyForPath_no_create_frame filePath w) as [Hw Hfst].
  rewrite Hcall in Hw, Hfst. cbn [fst snd] in Hw, Hfst. subst w'.
  repeat split. by apply Hfst.
Qed.

(** X4: [createIfMissing] creates a key only at a path that does not
    exist.  When the path is a directory, or lies under a regular file,
    the call fails with the error of a missing key; it has made one call,
    the read: nothing is created and no key is generated. *)
Theorem blocked_path_is_not_created filePath w :
  lookup_path (root w) filePath = inl ENOTDIR
  \/ (exists es, lookup_path (root w) filePath = inr (Dir es)) ->
  GetDevicePushKeyForPath filePath true w
  = (Return (None, None, Some key_not_found), log (EvReadFile filePath) w).
Proof.
  intros Hblocked. unfold GetDevicePushKeyForPath, bind, ReadFile.
  by destruct Hblocked as [->|[es ->]].
Qed.

(** X5: when the generator fails, the call returns the generator's error
    under [ErrCryptoKeyGeneration] and writes no key file; the directory
    of the path, made before the generator was asked, stays. *)
Theorem failed_generation_writes_no_file
  filePath w parent name r1 e rest :
  resolve filePath = parent ++ [name] ->
  resolve (path.Dir filePath) = parent ->
  lookup_path (root w) filePath = inl ENOENT ->
  mkdir_all (root w) parent = inr r1 ->
  entropy w = inl e :: rest ->
  exists w1,
    GetDevicePushKeyForPath filePath true w
    = (Return (None, None, Some (Wrap ErrCryptoKeyGeneration e)), w1)
    /\ root w1 = r1
    /\ file_at (root w1) filePath = None
    /\ (exists es, lookup_node (root w1) parent = inr (Dir es))
    /\ entropy w1 = rest.
Proof.
  intros Hres Hdir Hmiss Hmk Hent.
  eexists. split; [|split; [|split; [|split]]].
  - unfold GetDevicePushKeyForPath, bind, ReadFile. rewrite Hmiss.
    cbv beta iota. change (os_IsNotExist _ && true) with true.
    cbv beta iota. unfold MkdirAll.
    destruct (String.eqb_spec (path.Dir filePath) "") as [Hd|_];
      [by apply Clean_not_empty in Hd|].
    rewrite Hdir. cbn [root log]. rewrite Hmk. cbv beta iota.
    unfold GenerateKey. cbn [entropy set_root log]. rewrite Hent.
    reflexivity.
  - done.
  - cbn [root set_entropy set_root log]. unfold file_at.
    destruct (lookup_path r1 filePath) as [|[c|]] eqn:Hl; [done| |done].
    (* a file there would have been there before, in a directory that
       [MkdirAll] had not to make, and would have been found *)
    exfalso. pose proof (lookup_path_resolve _ _ _ Hl) as Hfile.
    rewrite Hres in Hfile.
    pose proof (mkdir_all_files _ _ _ Hmk _ _ Hfile) as Hfile0.
    assert (exists es, lookup_node (root w) parent = inr (Dir es))
      as [es Hparent].
    { rewrite lookup_node_app in Hfile0.
      destruct (lookup_node (root w) parent) as [|[c'|es]]; [done..|].
      by eexists. }
    unfold lookup_path in Hl, Hmiss.
    destruct (String.eqb filePath ""); [done|].
    destruct (walk r1 [] (path.split filePath)) as [|q] eqn:Hw; [done|].
    rewrite (walk_kept _ _ _ _ _
               (mkdir_all_dirs_back _ _ _ _ Hparent Hmk) Hw) in Hmiss.
    rewrite (walk_resolve _ _ [] _ (List.Forall_nil _) Hw) in Hmiss.
    change (lookup_node (root w) (resolve filePath) = inl ENOENT) in Hmiss.
    by rewrite Hres, Hfile0 in Hmiss.
  - cbn [root set_entropy set_root log]. by eapply mkdir_all_lookup.
  - done.
Qed.

(** X30: the directory is made at the cleaned path, the file is created
    at the path as it is written.  When the file cannot be created there,
    as at a path that goes through a missing directory and back with
    [..], the call returns the error of the create under [ErrInternal];
    the directory that was made stays, and the pair that was generated is
    lost. *)
Theorem failed_create_loses_the_pair filePath w r1 pk sk rest e :
  lookup_path (root w) filePath = inl ENOENT ->
  mkdir_all (root w) (resolve (path.Dir filePath)) = inr r1 ->
  entropy w = inr (pk, sk) :: rest ->
  write_path r1 filePath [] = inl e ->
  exists w1,
    GetDevicePushKeyForPath filePath true w
    = (Return (None, None,
               Some (Wrap ErrInternal (PathError "open" filePath e))), w1)
    /\ root w1 = r1
    /\ entropy w1 = rest
    /\ trace w1
       = trace w ++ [EvReadFile filePath; EvMkdirAll (path.Dir filePath);
                     EvGenerateKey; EvCreate filePath].
Proof.
  intros Hmiss Hmk Hent Hcreate. eexists. split.
  - unfold GetDevicePushKeyForPath, bind, ReadFile. rewrite Hmiss.
    cbv beta iota. change (os_IsNotExist _ && true) with true.
    cbv beta iota. unfold MkdirAll.
    destruct (String.eqb_spec (path.Dir filePath) "") as [Hd|_];
      [by apply Clean_not_empty in Hd|].
    cbn [root log]. rewrite Hmk. cbv beta iota.
    unfold GenerateKey. cbn [entropy set_root log]. rewrite Hent.
    cbv beta iota. unfold lift. rewrite fill_contents_ok. cbv beta iota.
    unfold Create. cbn [root set_entropy set_root log]. rewrite Hcreate.
    reflexivity.
  - cbn [root entropy trace set_entropy set_root log].
    by rewrite <- !app_assoc.
Qed.

End KeyStoreBehaviour.

(** ** The account registry: what it reads and what it reports *)

Section RegistryBehaviour.
Import os accountutils behaviour.

Context (Fields : Type).
Context (Unmarshal : list byte -> AccountMetadata Fields * option error).
Context (error_text : error -> string) (no_fields : Fields).

Local Abbreviation GetAccountMetaForName :=
  (accountutils.GetAccountMetaForName Fields Unmarshal).
Local Abbreviation ListAccounts_range :=
  (accountutils.ListAccounts_range Fields Unmarshal error_text no_fields).
Local Abbreviation ListAccounts :=
  (accountutils.ListAccounts Fields Unmarshal error_text no_fields).
Local Abbreviation load := (accountutils.load Fields Unmarshal).
Local Abbreviation record_of :=
  (accountutils.record_of Fields error_text no_fields).

Lemma only_reads_refl warnings w : only_reads warnings w w.
Proof. repeat split. exists []. by rewrite app_nil_r. Qed.

Lemma only_reads_trans warnings w1 w2 w3 :
  only_reads warnings w1 w2 -> only_reads warnings w2 w3 ->
  only_reads warnings w1 w3.
Proof.
  intros (Hr & He & evs & Ht & Hevs) (Hr' & He' & evs' & Ht' & Hevs').
  repeat split; [congruence..|].
  exists (evs ++ evs'). split.
  - by rewrite Ht', Ht, app_assoc.
  - by rewrite forallb_app, Hevs, Hevs'.
Qed.

Lemma only_reads_log warnings ev w :
  is_read ev = true -> only_reads warnings w (log ev w).
Proof.
  intros Hev. repeat split. exists [ev]. split; [done|].
  cbn [forallb]. by rewrite Hev.
Qed.

(** Loading metadata reads one file, and writes a warning only through
    an enabled logger. *)
Lemma GetAccountMetaForName_only_reads rootDir accountID logger w :
  exists w',
    GetAccountMetaForName rootDir accountID logger w
    = (Return (load (root w) rootDir accountID), w')
    /\ only_reads (warn_enabled (default NewNop logger)) w w'.
Proof.
  assert (Hwarn : forall e w1,
    only_reads (warn_enabled (default NewNop logger)) w w1 ->
    only_reads (warn_enabled (default NewNop logger)) w
      (if warn_enabled (default NewNop logger)
       then log (EvWarn "unable to read account metadata" e accountID) w1
       else w1)).
  { intros e w1 H1. destruct (warn_enabled _) eqn:Hw; [|done].
    eapply only_reads_trans; [exact H1|].
    repeat split. by exists [EvWarn "unable to read account metadata" e
                               accountID]. }
  unfold accountutils.load, accountutils.GetAccountMetaForName.
  unfold bind, ReadFile, Warn, ret. cbn [root fst].
  destruct (lookup_path (root w) _) as [[]|[c|]]; cbv beta iota;
    cbn [os_IsNotExist fst].
  - eexists. split; [reflexivity|by apply only_reads_log].
  - eexists. split; [reflexivity|]. by apply Hwarn, only_reads_log.
  - eexists. split; [reflexivity|]. by apply Hwarn, only_reads_log.
  - destruct (Unmarshal c) as [meta [e|]]; eexists;
      (split; [reflexivity|by apply only_reads_log]).
  - eexists. split; [reflexivity|]. by apply Hwarn, only_reads_log.
Qed.

Lemma ListAccounts_range_only_reads rootDir logger subitems :
  forall accounts w,
  exists w',
    ListAccounts_range rootDir logger subitems accounts w
    = (Return
         (accounts
            ++ map (fun it => record_of (Name it)
                                (load (root w) rootDir (Name it)))
                 (filter (fun it => IsDir it = true) subitems)),
       w')
    /\ only_reads (warn_enabled (default NewNop logger)) w w'.
Proof.
  induction subitems as [|it rest IH]; intros accounts w.
  - exists w. simpl. rewrite app_nil_r. split; [done|apply only_reads_refl].
  - cbn [accountutils.ListAccounts_range]. rewrite filter_cons.
    destruct (IsDir it) eqn:Hdir; cbn [negb].
    + rewrite decide_True by done. unfold bind at 1.
      destruct (GetAccountMetaForName_only_reads rootDir (Name it) logger w)
        as (w1 & -> & H1).
      pose proof H1 as (Hroot & _).
      destruct (load (root w) rootDir (Name it)) as [account [e|]] eqn:Hload.
      * destruct (IH (accounts ++
            [Some {| AccountID := Name it; Error := error_text e;
                     other := no_fields |}]) w1) as (w' & -> & H2).
        exists w'. rewrite Hroot.
        split; [|by eapply only_reads_trans].
        cbn [map]. rewrite Hload. cbn [accountutils.record_of].
        by rewrite <- app_assoc.
      * destruct (IH (accounts ++ [account]) w1) as (w' & -> & H2).
        exists w'. rewrite Hroot.
        split; [|by eapply only_reads_trans].
        cbn [map]. rewrite Hload. cbn [accountutils.record_of].
        by rewrite <- app_assoc.
    + rewrite decide_False by done. apply IH.
Qed.

(** What [ListAccounts] returns on a file tree. *)
Lemma ListAccounts_only_reads_aux rootDir logger w :
  exists res w',
    ListAccounts rootDir logger w = (Return res, w')
    /\ only_reads (warn_enabled (default NewNop logger)) w w'
    /\ res
       = match lookup_path (root w) rootDir with
         | inl ENOENT => ([], None)
         | inl e =>
             ([], Some (Wrap ErrBertyAccountFSError
                          (PathError "stat" rootDir e)))
         | inr (File _) =>
             ([], Some (Wrap ErrBertyAccountFSError
                          (PathError "readdirent" rootDir ENOTDIR)))
         | inr (Dir es) =>
             (map (fun e => record_of (fst e)
                              (load (root w) rootDir (fst e)))
                (filter (fun e => is_dir_entry e = true) es), None)
         end.
Proof.
  assert (H2 : forall b,
    only_reads b w (log (EvReadDir rootDir) (log (EvStat rootDir) w))).
  { intros b. apply (only_reads_trans _ _ (log (EvStat rootDir) w));
      by apply only_reads_log. }
  unfold accountutils.ListAccounts, bind, Stat, ReadDir.
  destruct (lookup_path (root w) rootDir) as [e|[c|es]] eqn:Hl;
    cbv beta iota; cbn [os_IsNotExist root log]; rewrite ?Hl;
    cbv beta iota.
  - destruct e; eexists _, _;
      (split; [reflexivity|split; [by apply only_reads_log|done]]).
  - eexists _, _. split; [reflexivity|]. split; [apply H2|done].
  - match goal with |- context [ListAccounts_range ?r ?l ?s ?a ?w] =>
      destruct (ListAccounts_range_only_reads r l s a w) as (w' & -> & H)
    end.
    eexists _, w'. split; [reflexivity|]. split.
    + eapply only_reads_trans; [apply H2|]. destruct logger; exact H.
    + cbn [root app]. by rewrite filter_infos, map_map.
Qed.

(** X6: [ListAccounts] always returns, and only reads: its calls are
    stat, readdir and readfile, with warnings only through an enabled
    logger; the file tree and the key generator are as before.  What it
    returns is a function of the file tree: the logger and the calls made
    before do not change it, so listing again gives the same list. *)
Theorem ListAccounts_only_reads rootDir logger w :
  exists accounts err w',
    ListAccounts rootDir logger w = (Return (accounts, err), w')
    /\ only_reads (warn_enabled (default NewNop logger)) w w'
    /\ forall logger0 w0, root w0 = root w ->
         fst (ListAccounts rootDir logger0 w0) = Return (accounts, err).
Proof.
  destruct (ListAccounts_only_reads_aux rootDir logger w)
    as ([accounts err] & w' & Hcall & Hreads & Hres).
  exists accounts, err, w'. split; [done|]. split; [done|].
  intros logger0 w0 Hroot.
  destruct (ListAccounts_only_reads_aux rootDir logger0 w0)
    as (res0 & w0' & -> & _ & ->).
  rewrite Hroot, <- Hres. done.
Qed.

(** X7: a metadata file that [proto.Unmarshal] accepts is loaded with the
    name of the account directory as [AccountID], whatever identifier the
    file holds; the other fields are those of the file. *)
Theorem loaded_AccountID_is_directory_name
  rootDir accountID logger w contents meta :
  file_at (root w) (metafile rootDir accountID) = Some contents ->
  Unmarshal contents = (meta, None) ->
  GetAccountMetaForName rootDir accountID logger w
  = (Return (Some {| AccountID := accountID; Error := Error meta;
                     other := other meta |}, None),
     log (EvReadFile (metafile rootDir accountID)) w).
Proof.
  unfold file_at, metafile. intros Hf Hun.
  unfold accountutils.GetAccountMetaForName, bind, ReadFile.
  destruct (lookup_path (root w) _) as [|[c|]]; try done.
  injection Hf as ->. cbn. by rewrite Hun.
Qed.

(** X8: a metadata file that exists but cannot be read (it is a
    directory, or its path lies under a regular file) is reported as
    [ErrBertyAccountFSError] around the error of the read, which is not a
    not-exist error, and it is logged as a warning exactly when the logger
    writes warnings: with a [nil] logger nothing is logged. *)
Theorem unreadable_metadata_is_warned rootDir accountID logger w :
  lookup_path (root w) (metafile rootDir accountID) = inl ENOTDIR
  \/ (exists es,
        lookup_path (root w) (metafile rootDir accountID) = inr (Dir es)) ->
  exists e,
    os_IsNotExist (Some e) = false
    /\ GetAccountMetaForName rootDir accountID logger w
       = (Return (None,
                  Some (Wrap ErrBertyAccountFSError
                          (ErrorfW "unable to read account metadata: " e))),
          let w1 := log (EvReadFile (metafile rootDir accountID)) w in
          match logger with
          | Some l =>
              if warn_enabled l
              then log (EvWarn "unable to read account metadata" e
                          accountID) w1
              else w1
          | None => w1
          end).
Proof.
  intros Hbad. unfold accountutils.GetAccountMetaForName, bind, ReadFile.
  fold (metafile rootDir accountID).
  destruct Hbad as [->|[es ->]].
  - exists (PathError "open" (metafile rootDir accountID) ENOTDIR).
    split; [|destruct logger]; reflexivity.
  - exists (PathError "read" (metafile rootDir accountID) EISDIR).
    split; [|destruct logger]; reflexivity.
Qed.

(** X9: a subdirectory without metadata file is listed all the same, as
    a record with its name and the text of
    [ErrBertyAccountDataNotFound]. *)
Theorem directory_without_metadata_is_listed rootDir logger w es name sub :
  lookup_path (root w) rootDir = inr (Dir es) ->
  (name, Dir sub) ∈ es ->
  lookup_path (root w) (metafile rootDir name) = inl ENOENT ->
  exists accounts w',
    ListAccounts rootDir logger w = (Return (accounts, None), w')
    /\ Some {| AccountID := name;
               Error := error_text (Code ErrBertyAccountDataNotFound);
               other := no_fields |} ∈ accounts.
Proof.
  intros Hdir Hin Hmiss.
  destruct (ListAccounts_only_reads_aux rootDir logger w)
    as (res & w' & Hcall & _ & Hres).
  rewrite Hdir in Hres. subst res. eexists _, w'. split; [exact Hcall|].
  assert (Hload : load (root w) rootDir name
                  = (None, Some (Code ErrBertyAccountDataNotFound))).
  { unfold accountutils.load, accountutils.GetAccountMetaForName.
    unfold bind, ReadFile. cbn [root]. fold (metafile rootDir name).
    by rewrite Hmiss. }
  apply (list_elem_of_fmap_2'
           (fun e => record_of (fst e) (load (root w) rootDir (fst e)))
           _ (name, Dir sub)).
  - by apply list_elem_of_filter.
  - cbn [fst]. by rewrite Hload.
Qed.

(** X10: when [rootDir] is a regular file, the stat succeeds and the
    listing fails on reading the directory: no record, and the error of
    the read under [ErrBertyAccountFSError]. *)
Theorem ListAccounts_on_a_regular_file rootDir logger w contents :
  file_at (root w) rootDir = Some contents ->
  ListAccounts rootDir logger w
  = (Return ([], Some (Wrap ErrBertyAccountFSError
                         (PathError "readdirent" rootDir ENOTDIR))),
     log (EvReadDir rootDir) (log (EvStat rootDir) w)).
Proof.
  unfold file_at. intros Hf.
  unfold accountutils.ListAccounts, bind, Stat, ReadDir.
  destruct (lookup_path (root w) rootDir) as [|[c|]] eqn:Hl; try done.
  cbv beta iota. cbn [os_IsNotExist root log]. by rewrite Hl.
Qed.

End RegistryBehaviour.

(** ** The backend selector: the directory and the errors *)

Section DatastoreBehaviour.
Import os accountutils behaviour.



Lemma account0_not_empty dir :
  dir <> ""%string -> String.eqb (account0 dir) "" = false.
Proof.
  intros Hdir. apply String.eqb_neq. unfold account0, path.Join.
  rewrite filter_cons. rewrite decide_True by done. rewrite filter_cons.
  rewrite decide_True by done. apply Clean_not_empty.
Qed.

(** [account0] under a directory is a clean path: in a tree whose root
    is a directory it names what its names lead to. *)
Lemma lookup_account0 dir r :
  dir <> ""%string -> (exists es, r = Dir es) ->
  lookup_path r (account0 dir) = lookup_node r (resolve (account0 dir)).
Proof.
  intros Hdir [es ->]. unfold account0, path.Join.
  rewrite filter_cons. rewrite decide_True by done. rewrite filter_cons.
  rewrite decide_True by done. apply lookup_path_Clean.
Qed.


(** [GetDatastoreDir] on a name that is neither empty nor the sentinel
    starts with the stat of [account0] under it. *)
Lemma GetDatastoreDir_stats dir w :
  dir <> ""%string -> dir <> InMemoryDir ->
  GetDatastoreDir dir w
  = (let* (_, err) := Stat (account0 dir) in
     if os_IsNotExist err then
       let* err := MkdirAll (account0 dir) in
       match err with
       | Some e => ret (""%string, Some (Wrap TODO e))
       | None => ret (account0 dir, None)
       end
     else
       match err with
       | Some e => ret (""%string, Some (Wrap TODO e))
       | None => ret (account0 dir, None)
       end) w.
Proof.
  intros H1 H2. unfold GetDatastoreDir.
  apply String.eqb_neq in H1, H2. by rewrite H1, H2.
Qed.


Lemma GetDatastoreDir_existing dir w n :
  dir <> ""%string -> dir <> InMemoryDir ->
  lookup_path (root w) (account0 dir) = inr n ->
  GetDatastoreDir dir w
  = (Return (account0 dir, None), log (EvStat (account0 dir)) w).
Proof.
  intros H1 H2 Hn. rewrite GetDatastoreDir_stats by done.
  unfold bind, Stat. by rewrite Hn.
Qed.

(** X12: an entry that exists at [account0] is returned as it is after
    one stat, a regular file as well as a directory: nothing checks that
    it is a directory, and nothing is created. *)
Theorem GetDatastoreDir_takes_what_exists dir w n :
  dir <> ""%string -> dir <> InMemoryDir ->
  lookup_path (root w) (account0 dir) = inr n ->
  GetDatastoreDir dir w
  = (Return (account0 dir, None), log (EvStat (account0 dir)) w)
  /\ lookup_path (root (log (EvStat (account0 dir)) w)) (account0 dir)
     = inr n.
Proof.
  intros H1 H2 Hn. split; [by apply (GetDatastoreDir_existing _ _ n)|done].
Qed.

(** X13: a call that succeeded can be repeated: the second call returns
    the same directory and leaves the file tree as the first left it. *)
Theorem GetDatastoreDir_twice dir w d w' :
  GetDatastoreDir dir w = (Return (d, None), w') ->
  exists w'',
    GetDatastoreDir dir w' = (Return (d, None), w'')
    /\ root w'' = root w'.
Proof.
  destruct (String.eqb_spec dir "") as [->|H1]; [done|].
  destruct (String.eqb_spec dir InMemoryDir) as [->|H2].
  { intros [= <- <-]. by exists w. }
  rewrite GetDatastoreDir_stats by done.
  pose proof (account0_not_empty dir H1) as Hne.
  unfold bind at 1, Stat at 1.
  destruct (lookup_path (root w) (account0 dir)) as [e|n] eqn:Hl;
    cbv beta iota.
  - destruct e; cbn [os_IsNotExist]; try done.
    unfold bind, MkdirAll. rewrite Hne. cbn [root log].
    destruct (mkdir_all (root w) (resolve (account0 dir))) as [|n'] eqn:Hmk;
      [done|].
    intros [= <- <-]. destruct (mkdir_all_lookup _ _ _ Hmk) as [es Hes].
    rewrite (GetDatastoreDir_existing _ _ (Dir es)); [by eexists|done..|].
    cbn [root set_root].
    by rewrite lookup_account0
      by (done || exact (proj2 (mkdir_all_dir _ _ _ Hmk))).
  - intros [= <- <-].
    rewrite (GetDatastoreDir_existing _ _ n); [by eexists|done..].
Qed.


Context (DB : Type).
Context (sql_Open : string -> string -> M (option DB * option error)).
Context (db_Exec : DB -> string -> M (option error)).

Local Abbreviation GetRootDatastoreForPath :=
  (accountutils.GetRootDatastoreForPath DB sql_Open db_Exec).

(** X15: when [GetRootDatastoreForPath] returns an error, it returns no
    datastore, the directory is not the sentinel, and the error is the
    error of [sql.Open] at [datastore.sqlite] in the directory under
    [ErrDBOpen], or the error of creating the table [blocks] under
    [ErrDBWrite]. *)
Theorem GetRootDatastoreForPath_errors dir logger w ds err w' :
  GetRootDatastoreForPath dir logger w = (Return (ds, Some err), w') ->
  ds = None
  /\ dir <> InMemoryDir
  /\ ((exists db e,
         sql_Open "sqlite3" (path.Join [dir; "datastore.sqlite"%string]) w
         = (Return (db, Some e), w')
         /\ err = Wrap ErrDBOpen e)
      \/ (exists db w1 e,
            sql_Open "sqlite3" (path.Join [dir; "datastore.sqlite"%string]) w
            = (Return (Some db, None), w1)
            /\ db_Exec db (create_table_statement "blocks") w1
               = (Return (Some e), w')
            /\ err = Wrap ErrDBWrite e)).
Proof.
  unfold accountutils.GetRootDatastoreForPath, bind, ret, lift.
  destruct (String.eqb_spec dir InMemoryDir) as [->|Hdir]; [done|].
  destruct (sql_Open _ _ w) as [[[db [e|]]|?|] w1] eqn:Hopen; try done.
  - intros [= <- <- <-]. repeat split; [done|]. left. by exists db, e.
  - destruct db as [db|]; [|done]. cbn [deref].
    destruct (db_Exec db _ w1) as [[[e|]|?|] w2] eqn:Hexec; try done.
    intros [= <- <- <-]. repeat split; [done|]. right. by exists db, w1, e.
Qed.

End DatastoreBehaviour.

(** ** The pairing driver: the contact shared, the request received, the
    two flows *)

Section DriverBehaviour.
Import protocoltypes proto mini behaviour.

Context (Service : Type).
Context (ServiceGetConfiguration
  : M Service (option ServiceGetConfiguration_Reply * option error)).
Context (ContactRequestReference
  : M Service (option ContactRequestReference_Reply * option error)).
Context (ContactRequestResetReference ContactRequestEnable
  : M Service (option error)).
Context (ContactRequestSend : ShareableContact -> M Service (option error)).
Context (ContactRequestAccept : list byte -> M Service (option error)).
Context (GroupInfo
  : list byte -> M Service (option GroupInfo_Reply * option error)).
Context (ActivateGroup : list byte -> M Service (option error)).
Context (AppMessageSend
  : list byte -> list byte -> M Service (option error)).
Context (GroupMetadataList
  : list byte
    -> M Service (option (Stream GroupMetadataEvent) * option error)).
Context (GroupMessageList
  : list byte
    -> M Service (option (Stream GroupMessageEvent) * option error)).
Context (Unmarshal_request
  : list byte -> AccountContactRequestReceived * option error).

Local Abbreviation shareContact :=
  (mini.shareContact Service ServiceGetConfiguration ContactRequestReference
     ContactRequestResetReference ContactRequestEnable).
Local Abbreviation receiveContactRequest :=
  (mini.receiveContactRequest Service ServiceGetConfiguration
     GroupMetadataList Unmarshal_request).
Local Abbreviation receiveMessage :=
  (mini.receiveMessage Service GroupMessageList).
Local Abbreviation doClient1 :=
  (mini.doClient1 Service ServiceGetConfiguration ContactRequestReference
     ContactRequestResetReference ContactRequestEnable ContactRequestAccept
     GroupInfo ActivateGroup GroupMetadataList GroupMessageList
     Unmarshal_request).
Local Abbreviation doClient2 :=
  (mini.doClient2 Service ContactRequestSend GroupInfo ActivateGroup
     AppMessageSend).

Lemma shareContact_enabled s ref s1 config s2 :
  ContactRequestReference s = (Return (Some ref, None), s1) ->
  Ref_PublicRendezvousSeed ref <> [] ->
  Enabled ref = true ->
  ServiceGetConfiguration s1 = (Return (Some config, None), s2) ->
  shareContact s = (Return (Marshal (contact_of config ref)), s2).
Proof.
  intros Href Hseed Hen Hcfg. unfold mini.shareContact, bind, ret, lift.
  rewrite Href. cbn [deref]. rewrite Hen.
  destruct (Ref_PublicRendezvousSeed ref) eqn:Hs; [done|].
  cbn [length Nat.eqb orb negb]. rewrite Hcfg. cbn [deref].
  unfold contact_of. by rewrite Hs.
Qed.

(** X16: when the reference is enabled and has a seed, [shareContact]
    makes two calls, for the reference and for the configuration, and
    neither resets nor enables the reference; it returns, without error,
    the account key as field 1 followed by the seed as field 2. *)
Theorem shareContact_keeps_enabled_reference s ref s1 config s2 :
  ContactRequestReference s = (Return (Some ref, None), s1) ->
  Ref_PublicRendezvousSeed ref <> [] ->
  Enabled ref = true ->
  ServiceGetConfiguration s1 = (Return (Some config, None), s2) ->
  shareContact s
  = (Return (bytes_field 1 (AccountPK config)
               ++ bytes_field 2 (Ref_PublicRendezvousSeed ref), None),
     s2).
Proof.
  intros Href Hseed Hen Hcfg.
  rewrite (shareContact_enabled _ _ _ _ _ Href Hseed Hen Hcfg).
  unfold Marshal, contact_of. cbn [PK PublicRendezvousSeed Metadata].
  change (bytes_field 3 []) with (@nil byte). by rewrite app_nil_r.
Qed.

(** X17: when the reference has no seed or is disabled, [shareContact]
    resets it, enables it and asks for it again, and the contact is built
    from this second answer, which is not checked again: its seed is
    serialized as it is. *)
Theorem shareContact_refreshes_reference
  s ref0 s1 s2 s3 ref s4 config s5 :
  ContactRequestReference s = (Return (Some ref0, None), s1) ->
  Ref_PublicRendezvousSeed ref0 = [] \/ Enabled ref0 = false ->
  ContactRequestResetReference s1 = (Return None, s2) ->
  ContactRequestEnable s2 = (Return None, s3) ->
  ContactRequestReference s3 = (Return (Some ref, None), s4) ->
  ServiceGetConfiguration s4 = (Return (Some config, None), s5) ->
  shareContact s = (Return (Marshal (contact_of config ref)), s5).
Proof.
  intros Href0 Hstale Hreset Henable Href Hcfg.
  unfold mini.shareContact, bind, ret, lift.
  rewrite Href0. cbn [deref].
  assert (Htest : (length (Ref_PublicRendezvousSeed ref0) =? 0)%nat
                  || negb (Enabled ref0) = true).
  { destruct Hstale as [->| ->]; [done|]. by rewrite orb_true_r. }
  rewrite Htest, Hreset, Henable, Href, Hcfg. done.
Qed.

(** X18: an error [shareContact] returns comes with no bytes, and it is
    the error of one of its four kinds of calls, as the call returned
    it, with the service as that call left it. *)
Theorem shareContact_error_is_a_call_error s b e s' :
  shareContact s = (Return (b, Some e), s') ->
  b = []
  /\ ((exists s0 r, ContactRequestReference s0 = (Return (r, Some e), s'))
      \/ (exists s0, ContactRequestResetReference s0 = (Return (Some e), s'))
      \/ (exists s0, ContactRequestEnable s0 = (Return (Some e), s'))
      \/ (exists s0 r,
            ServiceGetConfiguration s0 = (Return (r, Some e), s'))).
Proof.
  unfold mini.shareContact, bind, ret, lift.
  destruct (ContactRequestReference s) as [[[ref [e0|]]|?|] s1] eqn:H1;
    try done.
  { intros [= <- <- <-]. split; [done|]. left. by exists s, ref. }
  destruct ref as [ref|]; [|done]. cbn [deref].
  destruct (_ || _).
  - destruct (ContactRequestResetReference s1) as [[[e0|]|?|] s2] eqn:H2;
      try done.
    { intros [= <- <- <-]. split; [done|]. right; left. by exists s1. }
    destruct (ContactRequestEnable s2) as [[[e0|]|?|] s3] eqn:H3; try done.
    { intros [= <- <- <-]. split; [done|]. right; right; left.
      by exists s2. }
    destruct (ContactRequestReference s3) as [[[ref' [e0|]]|?|] s4] eqn:H4;
      try done.
    { intros [= <- <- <-]. split; [done|]. left. by exists s3, ref'. }
    destruct (ServiceGetConfiguration s4) as [[[cfg [e0|]]|?|] s5] eqn:H5;
      try done.
    { intros [= <- <- <-]. split; [done|]. do 3 right. by exists s4, cfg. }
    destruct cfg as [cfg|]; [|done]. destruct ref' as [ref'|]; [|done].
    done.
  - destruct (ServiceGetConfiguration s1) as [[[cfg [e0|]]|?|] s5] eqn:H5;
      try done.
    { intros [= <- <- <-]. split; [done|]. do 3 right. by exists s1, cfg. }
    destruct cfg as [cfg|]; [|done]. done.
Qed.


(** X20: [receiveContactRequest] returns the first incoming contact
    request of the subscription, decoded from the payload of its event:
    the events before it are passed over, what comes after it is not
    received. *)
Theorem receiveContactRequest_returns_first_request
  s0 config s1 skipped r md rest s2 request :
  ServiceGetConfiguration s0 = (Return (Some config, None), s1) ->
  GroupMetadataList (AccountGroupPK config) s1
  = (Return (Some (skipped ++ r :: rest), None), s2) ->
  forallb passed_over skipped = true ->
  is_request r md ->
  Unmarshal_request (Event md) = (request, None) ->
  receiveContactRequest s0 = (Return (Some request, None), s2).
Proof.
  intros Hc Hs Hskip (Herr & Hctx & Hmsg & Hmd) Hun.
  erewrite receiveContactRequest_subscribed by eassumption.
  rewrite (receiveContactRequest_loop_passes _ _ _ Hskip).
  cbn [receiveContactRequest_loop]. rewrite Herr, Hctx, Hmsg, Hmd.
  cbn [is_EOF orb deref obind EventType_].
  rewrite !bool_decide_false by (by intros []). by rewrite Hun.
Qed.

(** X21: an error that is not the end of the stream, on a live context,
    is returned as it is, without a request; so is the error of decoding
    the payload of an incoming contact request. *)
Theorem receiveContactRequest_returns_errors
  s0 config s1 skipped r rest s2 e :
  ServiceGetConfiguration s0 = (Return (Some config, None), s1) ->
  GroupMetadataList (AccountGroupPK config) s1
  = (Return (Some (skipped ++ r :: rest), None), s2) ->
  forallb passed_over skipped = true ->
  (recv_err r = Some e /\ is_EOF (Some e) = false /\ ctx_err r = None)
  \/ (exists md request,
        is_request r md /\ Unmarshal_request (Event md) = (request, Some e)) ->
  receiveContactRequest s0 = (Return (None, Some e), s2).
Proof.
  intros Hc Hs Hskip Hcase.
  erewrite receiveContactRequest_subscribed by eassumption.
  rewrite (receiveContactRequest_loop_passes _ _ _ Hskip).
  cbn [receiveContactRequest_loop].
  destruct Hcase as [(Herr & Hne & Hctx)
                    |(md & request & (Herr & Hctx & Hmsg & Hmd) & Hun)].
  - rewrite Herr, Hne, Hctx. cbn [orb].
    by rewrite bool_decide_false by (by intros []).
  - rewrite Herr, Hctx, Hmsg, Hmd.
    cbn [is_EOF orb deref obind EventType_].
    rewrite !bool_decide_false by (by intros []). by rewrite Hun.
Qed.

(** X22: an event delivered without its [Metadata] makes
    [receiveContactRequest] panic on the [nil] pointer: the test of the
    event type reads through it unguarded. *)
Theorem receiveContactRequest_panics_without_metadata
  s0 config s1 skipped r md rest s2 :
  ServiceGetConfiguration s0 = (Return (Some config, None), s1) ->
  GroupMetadataList (AccountGroupPK config) s1
  = (Return (Some (skipped ++ r :: rest), None), s2) ->
  forallb passed_over skipped = true ->
  recv_err r = None -> ctx_err r = None ->
  recv_msg r = Some md -> Metadata_ md = None ->
  receiveContactRequest s0 = (Panic NilDereference, s2).
Proof.
  intros Hc Hs Hskip Herr Hctx Hmsg Hmd.
  erewrite receiveContactRequest_subscribed by eassumption.
  rewrite (receiveContactRequest_loop_passes _ _ _ Hskip).
  cbn [receiveContactRequest_loop]. rewrite Herr, Hctx, Hmsg, Hmd.
  cbn [is_EOF orb]. by rewrite bool_decide_false by (by intros []).
Qed.

(** X23: [receiveMessage] does not return the error of opening its
    subscription, as [receiveContactRequest] does: it panics with it. *)
Theorem receiveMessage_panics_on_subscription_error
  groupInfo group s stream e s1 :
  Group_ groupInfo = Some group ->
  GroupMessageList (PublicKey group) s = (Return (stream, Some e), s1) ->
  receiveMessage (Some groupInfo) s = (Panic (PanicError e), s1)
  /\ forall s0 config s2 sub s3,
       ServiceGetConfiguration s0 = (Return (Some config, None), s2) ->
       GroupMetadataList (AccountGroupPK config) s2
       = (Return (sub, Some e), s3) ->
       receiveContactRequest s0 = (Return (None, Some e), s3).
Proof.
  intros Hg Hs. split.
  - unfold mini.receiveMessage, bind, lift, panic. cbn [deref].
    rewrite Hg. cbn [deref]. by rewrite Hs.
  - intros s0 config s2 sub s3 Hc Hsub.
    unfold mini.receiveContactRequest, bind, lift, ret.
    rewrite Hc. cbn [deref]. by rewrite Hsub.
Qed.

(** X24: a token that is not base58, or whose bytes are not a
    [ShareableContact], makes [doClient2] panic before it calls the
    service or prints anything. *)
Theorem doClient2_rejects_bad_token encodedContact p :
  snd (base58.Decode encodedContact) <> None
  \/ snd (Unmarshal (fst (base58.Decode encodedContact))) <> None ->
  exists e, doClient2 encodedContact p = (Panic (PanicError e), p).
Proof.
  intros Hbad. unfold mini.doClient2, decode_contact, bind, panic, lift.
  destruct (base58.Decode encodedContact) as [bin [e|]]; [by exists e|].
  cbn [fst snd] in Hbad.
  destruct (Unmarshal bin) as [contact [e|]]; [by exists e|].
  by destruct Hbad.
Qed.

(** X25: when the subscription ends or its context is cancelled before a
    contact request came, [doClient1] does not panic: it prints the
    token, then that the request was not received, and returns, without
    accepting a contact or asking for a group. *)
Theorem doClient1_reports_missing_request
  s out binaryContact s1 config s2 skipped r rest s3 :
  shareContact s = (Return (binaryContact, None), s1) ->
  ServiceGetConfiguration s1 = (Return (Some config, None), s2) ->
  GroupMetadataList (AccountGroupPK config) s2
  = (Return (Some (skipped ++ r :: rest), None), s3) ->
  forallb passed_over skipped = true ->
  is_EOF (recv_err r) = true \/ ctx_err r <> None ->
  doClient1 (s, out)
  = (Return tt,
     (s3, out ++ [String.append "***Contact share:" nl;
                  String.append (contact_token binaryContact) nl;
                  String.append "Error: Did not receive the contact request"
                    nl])).
Proof.
  intros Hshare Hc Hs Hskip Hend.
  unfold mini.doClient1, bind, rpc, Println, Print. cbn [fst snd].
  rewrite Hshare. cbn [fst snd].
  erewrite receiveContactRequest_subscribed by eassumption.
  rewrite (receiveContactRequest_loop_passes _ _ _ Hskip).
  assert (Hloop : receiveContactRequest_loop Unmarshal_request (r :: rest)
                  = Return (None, None)).
  { destruct Hend as [H|H].
    - by apply receiveContactRequest_loop_EOF.
    - by apply receiveContactRequest_loop_context_error. }
  unfold lift. rewrite Hloop. cbn [fst snd].
  by rewrite <- !app_assoc.
Qed.

(** X26: the flow of the first client to its end.  After the request is
    received, [doClient1] accepts the contact of the request, activates
    the group of that contact, and prints as the message of the second
    client the first event of the group's messages, whatever the context
    of that subscription reports. *)
Theorem doClient1_prints_first_message
  s out binaryContact s1 request s2 s3 info group s4 s5 r rest s6 message :
  shareContact s = (Return (binaryContact, None), s1) ->
  receiveContactRequest s1 = (Return (Some request, None), s2) ->
  ContactRequestAccept (ContactPK request) s2 = (Return None, s3) ->
  GroupInfo (ContactPK request) s3 = (Return (Some info, None), s4) ->
  Group_ info = Some group ->
  ActivateGroup (PublicKey group) s4 = (Return None, s5) ->
  GroupMessageList (PublicKey group) s5
  = (Return (Some (r :: rest), None), s6) ->
  recv_err r = None ->
  recv_msg r = Some message ->
  doClient1 (s, out)
  = (Return tt,
     (s6, out ++ [String.append "***Contact share:" nl;
                  String.append (contact_token binaryContact) nl;
                  String.append
                    (String.append "client2: "
                       (string_of_bytes (Message message))) nl])).
Proof.
  intros Hshare Hreq Hacc Hinfo Hgroup Hact Hsub Herr Hmsg.
  unfold mini.doClient1, bind, rpc, Println, Print, lift. cbn [fst snd].
  rewrite Hshare. cbn [fst snd]. rewrite Hreq. cbn [fst snd].
  rewrite Hacc. cbn [fst snd]. rewrite Hinfo. cbn [fst snd deref].
  rewrite Hgroup. cbn [deref fst snd]. rewrite Hact. cbn [fst snd].
  erewrite receiveMessage_subscribed by eassumption.
  cbn [receiveMessage_loop]. rewrite Herr, Hmsg. cbn [is_EOF fst snd].
  by rewrite <- !app_assoc.
Qed.

(** X27: the flow of the second client to its end, on the token of a
    contact that holds a byte: the request is sent to the contact the
    token was made from, the group asked for is the one of the contact's
    key, and the message sent to it is [Hello]. *)
Theorem doClient2_sends_to_shared_contact
  contact s out s1 info group s2 s3 s4 :
  PK contact <> [] \/ PublicRendezvousSeed contact <> []
  \/ Metadata contact <> [] ->
  slice_len_ok (PK contact) ->
  slice_len_ok (PublicRendezvousSeed contact) ->
  slice_len_ok (Metadata contact) ->
  ContactRequestSend contact s = (Return None, s1) ->
  GroupInfo (PK contact) s1 = (Return (Some info, None), s2) ->
  Group_ info = Some group ->
  ActivateGroup (PublicKey group) s2 = (Return None, s3) ->
  AppMessageSend (PublicKey group) (bytes_of_string "Hello") s3
  = (Return None, s4) ->
  doClient2 (contact_token (fst (Marshal contact))) (s, out)
  = (Return tt, (s4, out ++ [String.append "Message sent. Sleep." nl])).
Proof.
  intros Hne Hpk Hseed Hmeta Hsend Hinfo Hgroup Hact Hmsg.
  destruct (Unmarshal_Marshal contact Hpk Hseed Hmeta) as [Hun _].
  unfold mini.doClient2, decode_contact, contact_token.
  rewrite base58_Decode_Encode, Hun by (by apply Marshal_not_empty).
  unfold bind, ret, rpc, Println, Print, lift. cbn [fst snd].
  rewrite Hsend. cbn [fst snd]. rewrite Hinfo. cbn [fst snd deref].
  rewrite Hgroup. cbn [deref fst snd]. rewrite Hact. cbn [fst snd].
  by rewrite Hmsg.
Qed.

End DriverBehaviour.

(** ** [Main]: the checks before the flows *)

Section MainBehaviour.
Import protocoltypes mini mini_main.

Context (Service : Type).
Context (ServiceGetConfiguration
  : M Service (option ServiceGetConfiguration_Reply * option error)).
Context (ContactRequestReference
  : M Service (option ContactRequestReference_Reply * option error)).
Context (ContactRequestResetReference ContactRequestEnable
  : M Service (option error)).
Context (ContactRequestSend : ShareableContact -> M Service (option error)).
Context (ContactRequestAccept : list byte -> M Service (option error)).
Context (GroupInfo
  : list byte -> M Service (option GroupInfo_Reply * option error)).
Context (ActivateGroup : list byte -> M Service (option error)).
Context (AppMessageSend
  : list byte -> list byte -> M Service (option error)).
Context (GroupMetadataList
  : list byte
    -> M Service (option (Stream GroupMetadataEvent) * option error)).
Context (GroupMessageList
  : list byte
    -> M Service (option (Stream GroupMessageEvent) * option error)).
Context (Unmarshal_request
  : list byte -> AccountContactRequestReceived * option error).
Context (LookupTerminfo_error : option error).
Context (ErrMissingInput ErrCLINoTermcaps : ErrCode).

Local Abbreviation doClient1 :=
  (mini_main.doClient1 Service ServiceGetConfiguration
     ContactRequestReference ContactRequestResetReference
     ContactRequestEnable ContactRequestAccept GroupInfo ActivateGroup
     GroupMetadataList GroupMessageList Unmarshal_request).
Local Abbreviation doClient2 :=
  (mini_main.doClient2 Service ContactRequestSend GroupInfo ActivateGroup
     AppMessageSend).
Local Abbreviation Main :=
  (mini_main.Main Service ServiceGetConfiguration ContactRequestReference
     ContactRequestResetReference ContactRequestEnable ContactRequestSend
     ContactRequestAccept GroupInfo ActivateGroup AppMessageSend
     GroupMetadataList GroupMessageList Unmarshal_request
     LookupTerminfo_error ErrMissingInput ErrCLINoTermcaps).

(** X28: an error [Main] returns was found before a pairing flow began:
    it wraps a missing client, the terminal lookup or the call for the
    configuration; nothing was printed, and no call was made but, in the
    last case, that one. *)
Theorem Main_error_is_before_pairing opts p e p' :
  Main opts p = (Return (Some e), p') ->
  snd p' = snd p
  /\ ((p' = p
       /\ (e = Wrap ErrMissingInput (Errorf "missing messenger client")
           \/ e = Wrap ErrMissingInput (Errorf "missing protocol client")
           \/ exists e0,
                LookupTerminfo_error = Some e0
                /\ e = Wrap ErrCLINoTermcaps e0))
      \/ exists config e0,
           ServiceGetConfiguration (fst p)
           = (Return (config, Some e0), fst p')
           /\ e = Wrap TODO e0).
Proof.
  unfold mini_main.Main, bind, ret, lift.
  destruct opts as [opts|]; [|done]. cbn [deref].
  destruct (MessengerClient opts).
  2:{ intros [= <- <-]. split; [done|]. left. split; [done|]. by left. }
  destruct (ProtocolClient opts).
  2:{ intros [= <- <-]. split; [done|]. left. split; [done|].
      right. by left. }
  destruct LookupTerminfo_error as [e0|].
  { intros [= <- <-]. split; [done|]. left. split; [done|].
    right. right. by exists e0. }
  unfold rpc.
  destruct (ServiceGetConfiguration (fst p)) as [[[config [e0|]]|?|] s1]
    eqn:Hc; try done.
  { intros [= <- <-]. split; [done|]. right. by exists config, e0. }
  destruct (_ =? _)%nat.
  - by destruct (mini_main.doClient1 _ _ _ _ _ _ _ _ _ _ _ _)
      as [[[]|?|] ?].
  - by destruct (mini_main.doClient2 _ _ _ _ _ _ _) as [[[]|?|] ?].
Qed.

(** X29: once the checks passed and the configuration was answered,
    whatever the answer holds, [Main] runs the flow the invitation
    selects, the first client's when it is empty, and a panic of the flow
    is a panic of [Main], not an error it returns: a flow that returns
    makes [Main] return [nil]. *)
Theorem Main_runs_one_flow opts m c config s1 p :
  MessengerClient opts = Some m ->
  ProtocolClient opts = Some c ->
  LookupTerminfo_error = None ->
  ServiceGetConfiguration (fst p) = (Return (config, None), s1) ->
  let flow :=
    if (String.length (GroupInvitation opts) =? 0)%nat then doClient1
    else doClient2 (GroupInvitation opts) in
  Main (Some opts) p
  = match flow (s1, snd p) with
    | (Return _, p') => (Return None, p')
    | (Panic v, p') => (Panic v, p')
    | (Blocked, p') => (Blocked, p')
    end.
Proof.
  intros Hm Hc Ht Hcfg flow. subst flow.
  unfold mini_main.Main, bind, ret, lift, rpc. cbn [deref].
  rewrite Hm, Hc, Ht, Hcfg.
  destruct (_ =? _)%nat.
  - by destruct (mini_main.doClient1 _ _ _ _ _ _ _ _ _ _ _ _)
      as [[[]|?|] ?].
  - by destruct (mini_main.doClient2 _ _ _ _ _ _ _) as [[[]|?|] ?].
Qed.

End MainBehaviour.

(** * The properties on the example worlds *)

Section Witnesses.
Import os cryptoutil accountutils protocoltypes proto mini Examples.

(** A key file with a byte too many is read as if it had none. *)
Example GetDevicePushKeyForPath_long_file_accepted :
  GetDevicePushKeyForPath "push.key" false long_key_world
  = (Return (Some (replicate 32 x07), Some (replicate 32 x07), None),
     log (EvReadFile "push.key") long_key_world).
Proof. reflexivity. Qed.

Lemma GetDevicePushKeyForPath_missing_no_create_witness :
  file_at (root truncated_key_world) "other.key" = None
  /\ exists w',
       GetDevicePushKeyForPath "other.key" false truncated_key_world
       = (Return (None, None, Some key_not_found), w')
       /\ root w' = root truncated_key_world
       /\ trace w' = trace truncated_key_world ++ [EvReadFile "other.key"].
Proof.
  split; [reflexivity|].
  exact (GetDevicePushKeyForPath_missing_no_create
           "other.key" truncated_key_world eq_refl).
Defined.

Lemma GetDevicePushKeyForPath_create_then_read_witness :
  lookup_path (root fresh_world) "keys/push.key" = inl ENOENT
  /\ mkdir_all (root fresh_world) (resolve (path.Dir "keys/push.key"))
     = inr (Dir [("keys"%string, Dir [])])
  /\ entropy fresh_world = [inr (example_pk, example_sk)]
  /\ write_path (Dir [("keys"%string, Dir [])]) "keys/push.key" []
     = inr (Dir [("keys"%string, Dir [("push.key"%string, File [])])])
  /\ exists w1,
       GetDevicePushKeyForPath "keys/push.key" true fresh_world
       = (Return (Some (vec_to_list example_pk),
                  Some (vec_to_list example_sk), None), w1)
       /\ file_at (root w1) "keys/push.key"
          = Some (vec_to_list example_pk ++ vec_to_list example_sk)
       /\ length (vec_to_list example_pk ++ vec_to_list example_sk)
          = 2 * KeySize
       /\ exists w2,
            GetDevicePushKeyForPath "keys/push.key" false w1
            = (Return (Some (vec_to_list example_pk),
                       Some (vec_to_list example_sk), None), w2)
            /\ root w2 = root w1.
Proof.
  repeat (split; [reflexivity|]).
  exact (GetDevicePushKeyForPath_create_then_read
           "keys/push.key" fresh_world
           (Dir [("keys"%string, Dir [])])
           (Dir [("keys"%string, Dir [("push.key"%string, File [])])])
           example_pk example_sk []
           eq_refl eq_refl eq_refl eq_refl).
Defined.

(** C4 as stated fails where no key file exists and the path is a
    directory, and where the path leads through a directory that does not
    exist and back: the call with [createIfMissing] true returns an
    error, and no file is at the path afterwards. *)
Lemma GetDevicePushKeyForPath_creates_no_file :
  (* the path is a directory *)
  file_at (root accounts_world) "accounts" = None
  /\ GetDevicePushKeyForPath "accounts" true accounts_world
     = (Return (None, None, Some key_not_found),
        log (EvReadFile "accounts") accounts_world)
  (* the path leads through a directory that is not there *)
  /\ file_at (root fresh_world) "a/../keys/push.key" = None
  /\ exists w1,
       GetDevicePushKeyForPath "a/../keys/push.key" true fresh_world
       = (Return (None, None,
                  Some (Wrap ErrInternal
                          (PathError "open" "a/../keys/push.key" ENOENT))),
          w1)
       /\ root w1 = Dir [("keys"%string, Dir [])]
       /\ file_at (root w1) "a/../keys/push.key" = None
       /\ fst (GetDevicePushKeyForPath "a/../keys/push.key" false w1)
          = Return (None, None, Some key_not_found).
Proof.
  repeat (split; [reflexivity|]).
  exists (snd (GetDevicePushKeyForPath "a/../keys/push.key" true
                 fresh_world)).
  by repeat split.
Qed.

Lemma ListAccounts_missing_root_witness :
  lookup_path (root accounts_world) "nowhere" = inl ENOENT
  /\ ListAccounts unit example_Unmarshal example_error_text tt
       "nowhere" None accounts_world
     = (Return ([], None), log (EvStat "nowhere") accounts_world).
Proof.
  split; [reflexivity|].
  exact (ListAccounts_missing_root unit example_Unmarshal example_error_text
           tt "nowhere" None accounts_world eq_refl).
Defined.

Lemma ListAccounts_records_failures_witness :
  lookup_path (root accounts_world) "accounts" = inr (Dir accounts_entries)
  /\ exists accounts w',
       ListAccounts unit example_Unmarshal example_error_text tt
         "accounts" None accounts_world
       = (Return (accounts, None), w')
       /\ Some {| AccountID := "bob";
                  Error := example_error_text
                             (Wrap ErrDeserialization
                                (ErrorfW
                                   "unable to unmarshall account metadata: "
                                   (LibError "proto: illegal tag")));
                  other := tt |} ∈ accounts.
Proof.
  split; [reflexivity|].
  destruct (ListAccounts_records_failures unit example_Unmarshal
              example_error_text tt "accounts" None accounts_world
              accounts_entries eq_refl)
    as (accounts & w' & Hcall & Hrec).
  exists accounts, w'. split; [exact Hcall|].
  refine (Hrec "bob"%string [("account_meta"%string, File [xff])] _
            None accounts_world None _ _ eq_refl eq_refl).
  unfold accounts_entries. constructor 2. constructor 1.
Defined.

Lemma ListAccounts_skips_files_witness :
  lookup_path (root accounts_world) "accounts" = inr (Dir accounts_entries)
  /\ exists accounts w',
       ListAccounts unit example_Unmarshal example_error_text tt
         "accounts" None accounts_world
       = (Return (accounts, None), w')
       /\ map (fmap AccountID) accounts
          = [Some "alice"; Some "bob"; Some "carol"]%string.
Proof.
  split; [reflexivity|].
  exact (ListAccounts_skips_files unit example_Unmarshal example_error_text
           tt "accounts" None accounts_world accounts_entries eq_refl).
Defined.

Lemma GetRootDatastoreForPath_returns_wrapped_witness :
  GetRootDatastoreForPath string example_sql_Open example_db_Exec
    "/data" None accounts_world
  = (Return (Some (MutexWrap string
                     (SQLDatastore "/data/datastore.sqlite" "blocks")),
             None),
     accounts_world)
  /\ exists child,
       Some (MutexWrap string
               (SQLDatastore "/data/datastore.sqlite"%string "blocks"))
       = Some (MutexWrap string child)
       /\ (child = NewMapDatastore string
           \/ exists db, child = SQLDatastore db "blocks").
Proof.
  split; [reflexivity|].
  exact (GetRootDatastoreForPath_returns_wrapped string example_sql_Open
           example_db_Exec "/data" None accounts_world _ accounts_world
           eq_refl).
Defined.

Lemma stream_end_and_cancellation_witness :
  (* the stream of metadata events ends after an event of another type *)
  mini.receiveContactRequest unit example_ServiceGetConfiguration
    (subscription [group_joined; closed]) example_Unmarshal_request tt
  = (Return (None, None), tt)
  (* the stream of messages ends *)
  /\ mini.receiveMessage unit (subscription [closed])
       (Some example_groupInfo) tt
     = (Return (None, None), tt)
  (* the context is cancelled while waiting for a message *)
  /\ mini.receiveMessage unit (subscription [cancelled])
       (Some example_groupInfo) tt
     = (Return (None, Some cancelled_error), tt)
  (* the context is cancelled while waiting for a contact request *)
  /\ mini.receiveContactRequest unit example_ServiceGetConfiguration
       (subscription [group_joined; cancelled]) example_Unmarshal_request tt
     = (Return (None, None), tt).
Proof.
  pose proof (fun r rm =>
    stream_end_and_cancellation unit example_ServiceGetConfiguration
      (subscription [group_joined; r]) (subscription [rm])
      example_Unmarshal_request
      tt example_config tt [group_joined] r [] tt
      example_groupInfo {| PublicKey := [x09] |} tt rm [] tt
      eq_refl eq_refl eq_refl eq_refl eq_refl) as H.
  destruct (H closed closed) as (Hend & Hend' & _ & _).
  destruct (H cancelled cancelled) as (_ & _ & Hcancel' & Hcancel).
  split; [exact (Hend eq_refl)|].
  split; [exact (Hend' eq_refl)|].
  split; [exact (Hcancel' cancelled_error eq_refl ltac:(discriminate))|].
  exact (Hcancel ltac:(discriminate)).
Defined.

(** C1 as stated fails for [receiveContactRequest]: when the context is
    cancelled it returns the outcome it returns at the end of the stream,
    [(nil, nil)], and no error. *)
Lemma receiveContactRequest_masks_cancellation :
  let receive stream :=
    fst (mini.receiveContactRequest unit example_ServiceGetConfiguration
           (subscription stream) example_Unmarshal_request tt) in
  receive [cancelled] = Return (None, None)
  /\ receive [cancelled] = receive [closed]
  /\ ~ exists e, receive [cancelled] = Return (None, Some e).
Proof.
  cbv zeta. split; [reflexivity|]. split; [reflexivity|].
  intros [e He]. discriminate He.
Qed.



End Witnesses.

(** * The properties of the edges on the example worlds *)

Section EdgeWitnesses.
Import os cryptoutil accountutils protocoltypes proto mini behaviour.
Import Examples Scenarios.

Lemma existing_key_file_is_only_read_witness :
  file_at (root long_key_world) "push.key" = Some (replicate 65 x07)
  /\ 2 * KeySize <= length (replicate 65 x07)
  /\ exists w',
       GetDevicePushKeyForPath "push.key" true long_key_world
       = (Return (Some (replicate 32 x07), Some (replicate 32 x07), None),
          w')
       /\ root w' = root long_key_world
       /\ entropy w' = entropy long_key_world
       /\ trace w' = trace long_key_world ++ [EvReadFile "push.key"].
Proof.
  assert (H : 2 * KeySize <= length (replicate 65 x07))
    by (vm_compute; lia).
  split; [reflexivity|]. split; [exact H|].
  exact (existing_key_file_is_only_read "push.key" true long_key_world
           (replicate 65 x07) eq_refl H).
Defined.

Lemma read_without_create_is_repeatable_witness :
  let w' := log (EvReadFile "push.key") truncated_key_world in
  GetDevicePushKeyForPath "push.key" false truncated_key_world
  = (Panic (IndexOutOfRange 32 3), w')
  /\ root w' = root truncated_key_world
  /\ entropy w' = entropy truncated_key_world
  /\ trace w' = trace truncated_key_world ++ [EvReadFile "push.key"]
  /\ fst (GetDevicePushKeyForPath "push.key" false w')
     = Panic (IndexOutOfRange 32 3).
Proof.
  cbv zeta. split; [reflexivity|].
  exact (read_without_create_is_repeatable "push.key" truncated_key_world
           (Panic (IndexOutOfRange 32 3))
           (log (EvReadFile "push.key") truncated_key_world) eq_refl).
Defined.

Lemma short_key_file_panics_witness :
  file_at (root truncated_key_world) "push.key" = Some [x01; x02; x03]
  /\ length [x01; x02; x03] < 2 * KeySize
  /\ GetDevicePushKeyForPath "push.key" true truncated_key_world
     = (Panic (IndexOutOfRange 32 3),
        log (EvReadFile "push.key") truncated_key_world).
Proof.
  assert (H : length [x01; x02; x03] < 2 * KeySize) by (vm_compute; lia).
  split; [reflexivity|]. split; [exact H|].
  exact (short_key_file_panics "push.key" true truncated_key_world
           [x01; x02; x03] eq_refl H).
Defined.

Lemma blocked_path_is_not_created_witness :
  lookup_path (root truncated_key_world) "push.key/device" = inl ENOTDIR
  /\ lookup_path (root accounts_world) "accounts"
     = inr (Dir accounts_entries)
  /\ GetDevicePushKeyForPath "push.key/device" true truncated_key_world
     = (Return (None, None, Some key_not_found),
        log (EvReadFile "push.key/device") truncated_key_world)
  /\ GetDevicePushKeyForPath "accounts" true accounts_world
     = (Return (None, None, Some key_not_found),
        log (EvReadFile "accounts") accounts_world).
Proof.
  split; [reflexivity|]. split; [reflexivity|]. split.
  - exact (blocked_path_is_not_created "push.key/device"
             truncated_key_world (or_introl eq_refl)).
  - exact (blocked_path_is_not_created "accounts" accounts_world
             (or_intror (ex_intro _ accounts_entries eq_refl))).
Defined.

Lemma failed_generation_writes_no_file_witness :
  resolve "keys/push.key" = ["keys"] ++ ["push.key"]
  /\ resolve (path.Dir "keys/push.key") = ["keys"%string]
  /\ lookup_path (root failing_world) "keys/push.key" = inl ENOENT
  /\ mkdir_all (root failing_world) ["keys"%string]
     = inr (Dir [("keys"%string, Dir [])])
  /\ entropy failing_world = [inl entropy_error]
  /\ exists w1,
       GetDevicePushKeyForPath "keys/push.key" true failing_world
       = (Return (None, None,
                  Some (Wrap ErrCryptoKeyGeneration entropy_error)), w1)
       /\ root w1 = Dir [("keys"%string, Dir [])]
       /\ file_at (root w1) "keys/push.key" = None
       /\ (exists es, lookup_node (root w1) ["keys"%string] = inr (Dir es))
       /\ entropy w1 = [].
Proof.
  repeat (split; [reflexivity|]).
  exact (failed_generation_writes_no_file "keys/push.key" failing_world
           ["keys"%string] "push.key" (Dir [("keys"%string, Dir [])])
           entropy_error [] eq_refl eq_refl eq_refl eq_refl eq_refl).
Defined.

Lemma failed_create_loses_the_pair_witness :
  lookup_path (root fresh_world) "a/../keys/push.key" = inl ENOENT
  /\ mkdir_all (root fresh_world) (resolve (path.Dir "a/../keys/push.key"))
     = inr (Dir [("keys"%string, Dir [])])
  /\ entropy fresh_world = [inr (example_pk, example_sk)]
  /\ write_path (Dir [("keys"%string, Dir [])]) "a/../keys/push.key" []
     = inl ENOENT
  /\ exists w1,
       GetDevicePushKeyForPath "a/../keys/push.key" true fresh_world
       = (Return (None, None,
                  Some (Wrap ErrInternal
                          (PathError "open" "a/../keys/push.key" ENOENT))),
          w1)
       /\ root w1 = Dir [("keys"%string, Dir [])]
       /\ entropy w1 = []
       /\ trace w1
          = trace fresh_world
            ++ [EvReadFile "a/../keys/push.key"; EvMkdirAll "keys";
                EvGenerateKey; EvCreate "a/../keys/push.key"].
Proof.
  repeat (split; [reflexivity|]).
  exact (failed_create_loses_the_pair "a/../keys/push.key" fresh_world
           (Dir [("keys"%string, Dir [])]) example_pk example_sk []
           ENOENT eq_refl eq_refl eq_refl eq_refl).
Defined.

Lemma loaded_AccountID_is_directory_name_witness :
  file_at (root accounts_world) (metafile "accounts" "alice") = Some []
  /\ example_Unmarshal []
     = ({| AccountID := ""; Error := ""; other := tt |}, None)
  /\ GetAccountMetaForName unit example_Unmarshal "accounts" "alice" None
       accounts_world
     = (Return (Some {| AccountID := "alice"; Error := ""; other := tt |},
                None),
        log (EvReadFile "accounts/alice/account_meta") accounts_world).
Proof.
  split; [reflexivity|]. split; [reflexivity|].
  exact (loaded_AccountID_is_directory_name unit example_Unmarshal
           "accounts" "alice" None accounts_world []
           {| AccountID := ""; Error := ""; other := tt |}
           eq_refl eq_refl).
Defined.

Lemma unreadable_metadata_is_warned_witness :
  lookup_path (root unreadable_world) (metafile "accounts" "dave")
  = inr (Dir [])
  /\ exists e,
       os_IsNotExist (Some e) = false
       /\ GetAccountMetaForName unit example_Unmarshal "accounts" "dave"
            (Some {| warn_enabled := true |}) unreadable_world
          = (Return (None,
                     Some (Wrap ErrBertyAccountFSError
                             (ErrorfW "unable to read account metadata: "
                                e))),
             log (EvWarn "unable to read account metadata" e "dave")
               (log (EvReadFile "accounts/dave/account_meta")
                  unreadable_world)).
Proof.
  split; [reflexivity|].
  exact (unreadable_metadata_is_warned unit example_Unmarshal
           "accounts" "dave" (Some {| warn_enabled := true |})
           unreadable_world (or_intror (ex_intro _ [] eq_refl))).
Defined.

Lemma directory_without_metadata_is_listed_witness :
  lookup_path (root accounts_world) "accounts" = inr (Dir accounts_entries)
  /\ lookup_path (root accounts_world) (metafile "accounts" "carol")
     = inl ENOENT
  /\ exists accounts w',
       ListAccounts unit example_Unmarshal example_error_text tt
         "accounts" None accounts_world
       = (Return (accounts, None), w')
       /\ Some {| AccountID := "carol";
                  Error := example_error_text
                             (Code ErrBertyAccountDataNotFound);
                  other := tt |} ∈ accounts.
Proof.
  split; [reflexivity|]. split; [reflexivity|].
  refine (directory_without_metadata_is_listed unit example_Unmarshal
            example_error_text tt "accounts" None accounts_world
            accounts_entries "carol" [] eq_refl _ eq_refl).
  unfold accounts_entries. constructor 2. constructor 2. constructor 1.
Defined.

Lemma ListAccounts_on_a_regular_file_witness :
  file_at (root truncated_key_world) "push.key" = Some [x01; x02; x03]
  /\ ListAccounts unit example_Unmarshal example_error_text tt
       "push.key" None truncated_key_world
     = (Return ([], Some (Wrap ErrBertyAccountFSError
                            (PathError "readdirent" "push.key" ENOTDIR))),
        log (EvReadDir "push.key")
          (log (EvStat "push.key") truncated_key_world)).
Proof.
  split; [reflexivity|].
  exact (ListAccounts_on_a_regular_file unit example_Unmarshal
           example_error_text tt "push.key" None truncated_key_world
           [x01; x02; x03] eq_refl).
Defined.


Lemma GetDatastoreDir_takes_what_exists_witness :
  lookup_path (root store_world) (account0 "data") = inr (File [x2a])
  /\ GetDatastoreDir "data" store_world
     = (Return ("data/account0"%string, None),
        log (EvStat "data/account0") store_world)
  /\ lookup_path (root (log (EvStat "data/account0") store_world))
       "data/account0"
     = inr (File [x2a]).
Proof.
  split; [reflexivity|].
  exact (GetDatastoreDir_takes_what_exists "data" store_world (File [x2a])
           ltac:(discriminate) ltac:(discriminate) eq_refl).
Defined.

Lemma GetDatastoreDir_twice_witness :
  let w' := snd (GetDatastoreDir "data" fresh_world) in
  GetDatastoreDir "data" fresh_world
  = (Return ("data/account0"%string, None), w')
  /\ exists w'',
       GetDatastoreDir "data" w'
       = (Return ("data/account0"%string, None), w'')
       /\ root w'' = root w'.
Proof.
  cbv zeta. split; [reflexivity|].
  exact (GetDatastoreDir_twice "data" fresh_world "data/account0"
           (snd (GetDatastoreDir "data" fresh_world)) eq_refl).
Defined.


Lemma GetRootDatastoreForPath_errors_witness :
  GetRootDatastoreForPath string failing_sql_Open example_db_Exec
    "/data" None accounts_world
  = (Return (None, Some (Wrap ErrDBOpen open_error)), accounts_world)
  /\ @None (Batching string) = None
  /\ "/data"%string <> InMemoryDir
  /\ ((exists db e,
         failing_sql_Open "sqlite3" (path.Join ["/data"; "datastore.sqlite"])
           accounts_world
         = (Return (db, Some e), accounts_world)
         /\ Wrap ErrDBOpen open_error = Wrap ErrDBOpen e)
      \/ (exists db w1 e,
            failing_sql_Open "sqlite3"
              (path.Join ["/data"; "datastore.sqlite"]) accounts_world
            = (Return (Some db, None), w1)
            /\ example_db_Exec db (create_table_statement "blocks") w1
               = (Return (Some e), accounts_world)
            /\ Wrap ErrDBOpen open_error = Wrap ErrDBWrite e)).
Proof.
  split; [reflexivity|].
  exact (GetRootDatastoreForPath_errors string failing_sql_Open
           example_db_Exec "/data" None accounts_world None
           (Wrap ErrDBOpen open_error) accounts_world eq_refl).
Defined.

(** The driver on the recording service. *)
Local Abbreviation shareContact :=
  (mini.shareContact (list string) ServiceGetConfiguration
     ContactRequestReference ContactRequestResetReference
     ContactRequestEnable).
Local Abbreviation receiveContactRequest stream :=
  (mini.receiveContactRequest (list string) ServiceGetConfiguration
     (GroupMetadataList stream) example_Unmarshal_request).
Local Abbreviation doClient1 requests messages :=
  (mini.doClient1 (list string) ServiceGetConfiguration
     ContactRequestReference ContactRequestResetReference
     ContactRequestEnable ContactRequestAccept GroupInfo ActivateGroup
     (GroupMetadataList requests) (GroupMessageList messages)
     example_Unmarshal_request).
Local Abbreviation doClient2 :=
  (mini.doClient2 (list string) ContactRequestSend GroupInfo ActivateGroup
     AppMessageSend).

Lemma shareContact_keeps_enabled_reference_witness :
  shareContact ["ContactRequestEnable"%string]
  = (Return ([x0a; x02; x01; x02; x12; x02; xfe; xff], None),
     ["ContactRequestEnable"; "ContactRequestReference";
      "ServiceGetConfiguration"]%string).
Proof.
  exact (shareContact_keeps_enabled_reference (list string)
           ServiceGetConfiguration ContactRequestReference
           ContactRequestResetReference ContactRequestEnable
           ["ContactRequestEnable"%string]
           (reference_in ["ContactRequestEnable"%string]) _
           example_config _
           eq_refl ltac:(discriminate) eq_refl eq_refl).
Defined.

Lemma shareContact_refreshes_reference_witness :
  shareContact []
  = (Return ([x0a; x02; x01; x02; x12; x02; xfe; xff], None),
     ["ContactRequestReference"; "ContactRequestResetReference";
      "ContactRequestEnable"; "ContactRequestReference";
      "ServiceGetConfiguration"]%string).
Proof.
  exact (shareContact_refreshes_reference (list string)
           ServiceGetConfiguration ContactRequestReference
           ContactRequestResetReference ContactRequestEnable
           [] (reference_in []) _ _ _
           (reference_in ["ContactRequestEnable"%string]) _
           example_config _
           eq_refl (or_introl eq_refl) eq_refl eq_refl eq_refl eq_refl).
Defined.

Lemma shareContact_error_is_a_call_error_witness :
  let refused : Go.M (list string) (option error) :=
    answer "ContactRequestEnable" (Some unavailable) in
  let share :=
    mini.shareContact (list string) ServiceGetConfiguration
      ContactRequestReference ContactRequestResetReference refused in
  let s' := ["ContactRequestReference"; "ContactRequestResetReference";
             "ContactRequestEnable"]%string in
  share [] = (Return ([], Some unavailable), s')
  /\ @nil byte = []
  /\ ((exists s0 r,
         ContactRequestReference s0 = (Return (r, Some unavailable), s'))
      \/ (exists s0,
            ContactRequestResetReference s0
            = (Return (Some unavailable), s'))
      \/ (exists s0, refused s0 = (Return (Some unavailable), s'))
      \/ (exists s0 r,
            ServiceGetConfiguration s0
            = (Return (r, Some unavailable), s'))).
Proof.
  cbv zeta. split; [reflexivity|].
  exact (shareContact_error_is_a_call_error (list string)
           ServiceGetConfiguration ContactRequestReference
           ContactRequestResetReference
           (answer "ContactRequestEnable" (Some unavailable))
           [] [] unavailable _ eq_refl).
Defined.


Lemma receiveContactRequest_returns_first_request_witness :
  forallb passed_over [group_joined] = true
  /\ is_request contact_request request_event
  /\ receiveContactRequest [group_joined; contact_request; failed] []
     = (Return (Some {| ContactPK := [x05; x06] |}, None),
        ["ServiceGetConfiguration"; "GroupMetadataList"]%string).
Proof.
  assert (H : is_request contact_request request_event)
    by (repeat split; reflexivity).
  split; [reflexivity|]. split; [exact H|].
  exact (receiveContactRequest_returns_first_request (list string)
           ServiceGetConfiguration
           (GroupMetadataList [group_joined; contact_request; failed])
           example_Unmarshal_request
           [] example_config _ [group_joined] contact_request
           request_event [failed] _ {| ContactPK := [x05; x06] |}
           eq_refl eq_refl eq_refl H eq_refl).
Defined.

Lemma receiveContactRequest_returns_errors_witness :
  forallb passed_over [group_joined] = true
  /\ recv_err (@failed GroupMetadataEvent) = Some unavailable
  /\ is_EOF (Some unavailable) = false
  /\ ctx_err (@failed GroupMetadataEvent) = None
  /\ receiveContactRequest [group_joined; failed; contact_request] []
     = (Return (None, Some unavailable),
        ["ServiceGetConfiguration"; "GroupMetadataList"]%string).
Proof.
  repeat (split; [reflexivity|]).
  exact (receiveContactRequest_returns_errors (list string)
           ServiceGetConfiguration
           (GroupMetadataList [group_joined; failed; contact_request])
           example_Unmarshal_request
           [] example_config _ [group_joined] failed [contact_request] _
           unavailable eq_refl eq_refl eq_refl
           (or_introl (conj eq_refl (conj eq_refl eq_refl)))).
Defined.

Lemma receiveContactRequest_panics_without_metadata_witness :
  recv_msg without_metadata = Some bare_event
  /\ Metadata_ bare_event = None
  /\ receiveContactRequest [group_joined; without_metadata] []
     = (Panic NilDereference,
        ["ServiceGetConfiguration"; "GroupMetadataList"]%string).
Proof.
  split; [reflexivity|]. split; [reflexivity|].
  exact (receiveContactRequest_panics_without_metadata (list string)
           ServiceGetConfiguration
           (GroupMetadataList [group_joined; without_metadata])
           example_Unmarshal_request
           [] example_config _ [group_joined] without_metadata bare_event
           [] _ eq_refl eq_refl eq_refl eq_refl eq_refl eq_refl eq_refl).
Defined.

Lemma receiveMessage_panics_on_subscription_error_witness :
  let refuse {A} (name : string)
    : list byte -> Go.M (list string) (option (Stream A) * option error) :=
    fun _ => answer name (None, Some unavailable) in
  mini.receiveMessage (list string) (refuse "GroupMessageList")
    (Some example_groupInfo) []
  = (Panic (PanicError unavailable), ["GroupMessageList"%string])
  /\ mini.receiveContactRequest (list string) ServiceGetConfiguration
       (refuse "GroupMetadataList") example_Unmarshal_request []
     = (Return (None, Some unavailable),
        ["ServiceGetConfiguration"; "GroupMetadataList"]%string).
Proof.
  cbv zeta.
  destruct (receiveMessage_panics_on_subscription_error (list string)
              ServiceGetConfiguration
              (fun _ => answer "GroupMetadataList" (None, Some unavailable))
              (fun _ => answer "GroupMessageList" (None, Some unavailable))
              example_Unmarshal_request
              example_groupInfo {| PublicKey := [x09] |} [] None
              unavailable _ eq_refl eq_refl) as [Hpanic Hreturn].
  split; [exact Hpanic|].
  exact (Hreturn [] example_config _ None _ eq_refl eq_refl).
Defined.

Lemma doClient2_rejects_bad_token_witness :
  snd (base58.Decode "0OIl") <> None
  /\ exists e,
       doClient2 "0OIl" ([], []) = (Panic (PanicError e), ([], [])).
Proof.
  assert (H : snd (base58.Decode "0OIl") <> None) by discriminate.
  split; [exact H|].
  exact (doClient2_rejects_bad_token (list string) ContactRequestSend
           GroupInfo ActivateGroup AppMessageSend "0OIl" ([], [])
           (or_introl H)).
Defined.

Lemma doClient1_reports_missing_request_witness :
  forallb passed_over [group_joined] = true
  /\ ctx_err (@cancelled GroupMetadataEvent) <> None
  /\ doClient1 [group_joined; cancelled] [message_hello] ([], [])
     = (Return tt,
        (["ContactRequestReference"; "ContactRequestResetReference";
          "ContactRequestEnable"; "ContactRequestReference";
          "ServiceGetConfiguration"; "ServiceGetConfiguration";
          "GroupMetadataList"]%string,
         [String.append "***Contact share:" nl;
          String.append "2g68bvsRrEi" nl;
          String.append "Error: Did not receive the contact request" nl])).
Proof.
  assert (H : ctx_err (@cancelled GroupMetadataEvent) <> None)
    by discriminate.
  split; [reflexivity|]. split; [exact H|].
  exact (doClient1_reports_missing_request (list string)
           ServiceGetConfiguration ContactRequestReference
           ContactRequestResetReference ContactRequestEnable
           ContactRequestAccept GroupInfo ActivateGroup
           (GroupMetadataList [group_joined; cancelled])
           (GroupMessageList [message_hello]) example_Unmarshal_request
           [] [] [x0a; x02; x01; x02; x12; x02; xfe; xff] _
           example_config _ [group_joined] cancelled [] _
           eq_refl eq_refl eq_refl eq_refl (or_intror H)).
Defined.

Lemma doClient1_prints_first_message_witness :
  doClient1 [contact_request] [message_hello; closed] ([], [])
  = (Return tt,
     (["ContactRequestReference"; "ContactRequestResetReference";
       "ContactRequestEnable"; "ContactRequestReference";
       "ServiceGetConfiguration"; "ServiceGetConfiguration";
       "GroupMetadataList"; "ContactRequestAccept"; "GroupInfo";
       "ActivateGroup"; "GroupMessageList"]%string,
      [String.append "***Contact share:" nl;
       String.append "2g68bvsRrEi" nl;
       String.append "client2: Hello" nl])).
Proof.
  exact (doClient1_prints_first_message (list string)
           ServiceGetConfiguration ContactRequestReference
           ContactRequestResetReference ContactRequestEnable
           ContactRequestAccept GroupInfo ActivateGroup
           (GroupMetadataList [contact_request])
           (GroupMessageList [message_hello; closed])
           example_Unmarshal_request
           [] [] [x0a; x02; x01; x02; x12; x02; xfe; xff] _
           {| ContactPK := [x05; x06] |} _ _
           example_groupInfo {| PublicKey := [x09] |} _ _
           message_hello [closed] _ hello
           eq_refl eq_refl eq_refl eq_refl eq_refl eq_refl eq_refl
           eq_refl eq_refl).
Defined.

Lemma doClient2_sends_to_shared_contact_witness :
  doClient2 (contact_token (fst (Marshal example_contact))) ([], [])
  = (Return tt,
     (["ContactRequestSend"; "GroupInfo"; "ActivateGroup";
       "AppMessageSend"]%string,
      [String.append "Message sent. Sleep." nl])).
Proof.
  assert (H0 : PK example_contact <> []) by discriminate.
  exact (doClient2_sends_to_shared_contact (list string)
           ContactRequestSend GroupInfo ActivateGroup AppMessageSend
           example_contact [] []
           ["ContactRequestSend"%string] example_groupInfo
           {| PublicKey := [x09] |}
           ["ContactRequestSend"; "GroupInfo"]%string
           ["ContactRequestSend"; "GroupInfo"; "ActivateGroup"]%string
           ["ContactRequestSend"; "GroupInfo"; "ActivateGroup";
            "AppMessageSend"]%string
           (or_introl H0)
           eq_refl eq_refl eq_refl eq_refl eq_refl eq_refl eq_refl
           eq_refl).
Defined.

(** [Main] on the recording service; its two error codes are parameters
    of the model, and any code stands for them here. *)
Local Abbreviation Main configuration :=
  (mini_main.Main (list string) configuration ContactRequestReference
     ContactRequestResetReference ContactRequestEnable ContactRequestSend
     ContactRequestAccept GroupInfo ActivateGroup AppMessageSend
     (GroupMetadataList [closed]) (GroupMessageList [closed])
     example_Unmarshal_request None ErrInternal ErrInternal).

Lemma Main_error_is_before_pairing_witness :
  let refused
    : Go.M (list string)
        (option ServiceGetConfiguration_Reply * option error) :=
    answer "ServiceGetConfiguration" (None, Some unavailable) in
  let p' : Process (list string) :=
    (["ServiceGetConfiguration"%string], []) in
  Main refused (Some (options "")) ([], [])
  = (Return (Some (Wrap TODO unavailable)), p')
  /\ snd p' = []
  /\ ((p' = ([], [])
       /\ (Wrap TODO unavailable
           = Wrap ErrInternal (Errorf "missing messenger client")
           \/ Wrap TODO unavailable
              = Wrap ErrInternal (Errorf "missing protocol client")
           \/ exists e0,
                @None error = Some e0
                /\ Wrap TODO unavailable = Wrap ErrInternal e0))
      \/ exists config e0,
           refused [] = (Return (config, Some e0), fst p')
           /\ Wrap TODO unavailable = Wrap TODO e0).
Proof.
  cbv zeta. split; [reflexivity|].
  exact (Main_error_is_before_pairing (list string)
           (answer "ServiceGetConfiguration" (None, Some unavailable))
           ContactRequestReference ContactRequestResetReference
           ContactRequestEnable ContactRequestSend ContactRequestAccept
           GroupInfo ActivateGroup AppMessageSend
           (GroupMetadataList [closed]) (GroupMessageList [closed])
           example_Unmarshal_request None ErrInternal ErrInternal
           (Some (options "")) ([], []) (Wrap TODO unavailable)
           (["ServiceGetConfiguration"%string], []) eq_refl).
Defined.

Lemma Main_runs_one_flow_witness :
  Main ServiceGetConfiguration (Some (options "")) ([], [])
  = (Return None,
     (["ServiceGetConfiguration"; "ContactRequestReference";
       "ContactRequestResetReference"; "ContactRequestEnable";
       "ContactRequestReference"; "ServiceGetConfiguration";
       "ServiceGetConfiguration"; "GroupMetadataList"]%string,
      [String.append "***Contact share:" nl;
       String.append "2g68bvsRrEi" nl;
       String.append "Error: Did not receive the contact request" nl])).
Proof.
  exact (Main_runs_one_flow (list string) ServiceGetConfiguration
           ContactRequestReference ContactRequestResetReference
           ContactRequestEnable ContactRequestSend ContactRequestAccept
           GroupInfo ActivateGroup AppMessageSend
           (GroupMetadataList [closed]) (GroupMessageList [closed])
           example_Unmarshal_request None ErrInternal ErrInternal
           (options "") tt tt (Some example_config) _ ([], [])
           eq_refl eq_refl eq_refl eq_refl).
Defined.

End EdgeWitnesses.
